(** * weather_app: validation, HTTP classification and forecast aggregation

    A shallow embedding of [weather_data.py] and of the exception dispatch
    of [WeatherApp.search_weather] in [weather_app.py].

    Python values are modelled as they are at run time: a [str] is a
    sequence of Unicode code points, numbers are unbounded integers or
    binary64 floats, JSON documents are trees of dicts and lists, a raised
    exception is the [Raise] branch of a result type.  What the program
    calls but does not define (the Unicode character database, the
    iteration order of a [set], [datetime], the network) is a parameter.

    Part I holds the embedding, Part II the properties. *)

From Stdlib Require Import ZArith List String Ascii Bool Lia.
From Stdlib Require Import Sorting.Sorted Sorting.Permutation.
From Stdlib Require Import Floats.SpecFloat.
Import ListNotations.

Local Open Scope Z_scope.

(* ================================================================== *)
(** * Part I.  The embedding *)

(* ------------------------------------------------------------------ *)
(** ** Python strings *)

(** A character is a Unicode code point; a [str] is a sequence of them. *)
Definition char := N.
Definition pystr := list char.

(** The code points of an ASCII literal of the source. *)
Definition lit (s : string) : pystr :=
  map N_of_ascii (list_ascii_of_string s).

Definition char_eqb (a b : char) : bool := N.eqb a b.

Fixpoint str_eqb (a b : pystr) : bool :=
  match a, b with
  | [], [] => true
  | x :: a', y :: b' => char_eqb x y && str_eqb a' b'
  | _, _ => false
  end.

(** [a < b] and [a <= b] on [str]: lexicographic on code points. *)
Fixpoint str_compare (a b : pystr) : comparison :=
  match a, b with
  | [], [] => Eq
  | [], _ :: _ => Lt
  | _ :: _, [] => Gt
  | x :: a', y :: b' =>
      match N.compare x y with
      | Eq => str_compare a' b'
      | c => c
      end
  end.

Definition str_ltb (a b : pystr) : bool :=
  match str_compare a b with Lt => true | _ => false end.

Definition str_leb (a b : pystr) : bool :=
  match str_compare a b with Gt => false | _ => true end.

Definition str_lt (a b : pystr) : Prop := str_compare a b = Lt.

(** [x in s] for a one-character [x]. *)
Definition char_in (c : char) (s : pystr) : bool := existsb (char_eqb c) s.

(** [s.split(" ")[0]]: the text before the first space, all of [s] when
    it has none.  ([split] with an explicit separator never returns an
    empty list, so the index cannot fail.) *)
Fixpoint before_space (s : pystr) : pystr :=
  match s with
  | [] => []
  | c :: s' => if char_eqb c 32%N then [] else c :: before_space s'
  end.

(** The Unicode character database of the interpreter, as far as the
    program consults it: [str.isalpha], [str.isspace] (also the class
    that [str.strip] removes), the case tables behind [str.title], and
    the quoting of [repr] on a [str]. *)
Record unicode_db : Type := {
  isalpha           : char -> bool;
  isspace           : char -> bool;
  iscased           : char -> bool;
  iscase_ignorable  : char -> bool;
  totitle           : char -> pystr;
  tolower           : char -> pystr;
  str_repr          : pystr -> pystr
}.

Section Strings.

Variable db : unicode_db.

(** [s.lstrip()], [s.rstrip()], [s.strip()]. *)
Fixpoint lstrip (s : pystr) : pystr :=
  match s with
  | [] => []
  | c :: s' => if isspace db c then lstrip s' else s
  end.

Definition rstrip (s : pystr) : pystr := rev (lstrip (rev s)).

Definition strip (s : pystr) : pystr := rstrip (lstrip s).

(** The first character of [s] that is not case-ignorable, if any. *)
Fixpoint skip_ignorable (s : pystr) : option char :=
  match s with
  | [] => None
  | c :: s' => if iscase_ignorable db c then skip_ignorable s' else Some c
  end.

(** Lower-casing of U+03A3 at a position with [before] (nearest
    character first) and [after] around it: the final form U+03C2 when a
    cased character precedes and none follows, case-ignorable characters
    aside. *)
Definition lower_sigma (before after : pystr) : char :=
  let preceded :=
    match skip_ignorable before with
    | Some c => iscased db c
    | None => false
    end in
  let followed :=
    match skip_ignorable after with
    | Some c => iscased db c
    | None => false
    end in
  if preceded && negb followed then 962%N else 963%N.

Definition lower_at (before : pystr) (c : char) (after : pystr) : pystr :=
  if char_eqb c 931%N then [lower_sigma before after] else tolower db c.

(** [s.title()]: a character that follows a cased one is lower-cased,
    any other is title-cased.  [before] is the text already consumed,
    nearest character first. *)
Fixpoint title_from (before : pystr) (previous_is_cased : bool)
                    (s : pystr) : pystr :=
  match s with
  | [] => []
  | c :: s' =>
      (if previous_is_cased then lower_at before c s' else totitle db c)
      ++ title_from (c :: before) (iscased db c) s'
  end.

Definition title (s : pystr) : pystr := title_from [] false s.

End Strings.

(** Whether [needle] occurs in [s] ([needle in s]). *)
Fixpoint starts_with (needle s : pystr) : bool :=
  match needle, s with
  | [], _ => true
  | _ :: _, [] => false
  | x :: n', y :: s' => char_eqb x y && starts_with n' s'
  end.

Fixpoint contains (needle s : pystr) : bool :=
  starts_with needle s ||
  match s with
  | [] => false
  | _ :: s' => contains needle s'
  end.

(** [sorted(keys)] on strings.  The keys of a dict are pairwise distinct,
    so every correct sort returns the same list; insertion sort is used. *)
Fixpoint insert_sorted (k : pystr) (l : list pystr) : list pystr :=
  match l with
  | [] => [k]
  | x :: l' => if str_leb k x then k :: l else x :: insert_sorted k l'
  end.

Fixpoint sorted (l : list pystr) : list pystr :=
  match l with
  | [] => []
  | k :: l' => insert_sorted k (sorted l')
  end.

(* ------------------------------------------------------------------ *)
(** ** Python numbers

    An [int] is a [Z].  A [float] is a binary64 value, written with the
    Standard Library's [spec_float]: [S754_finite s m e] is [m * 2 ^ e],
    negated when [s].  The functions below read a float by its exact
    value, so they do not depend on how the mantissa is normalised. *)

Definition prec : Z := 53.
Definition emax : Z := 1024.

(** [float(z)]: the nearest binary64 value, ties to even; an infinite
    result stands for [OverflowError]. *)
Definition float_of_Z (z : Z) : spec_float :=
  binary_normalize prec emax z 0 false.

(** The decimal [m * 10 ^ e10] of a JSON text, correctly rounded: what
    the JSON decoder stores for a number with a fraction or an exponent. *)
Definition float_of_decimal (m e10 : Z) : spec_float :=
  if 0 <=? e10 then binary_normalize prec emax (m * 10 ^ e10) 0 false
  else
    let d := 10 ^ (- e10) in
    let s := Z.log2 d + 64 in
    let a := Z.abs m in
    let q := (a * 2 ^ s) / d in
    let r := (a * 2 ^ s) mod d in
    let sticky := if r =? 0 then 0 else 1 in
    let mant := 2 * q + sticky in
    binary_normalize prec emax (if m <? 0 then - mant else mant)
                     (- s - 1) (m <? 0).

(** *** Decimal digits *)

Definition digit (d : Z) : char := (48 + Z.to_N d)%N.

Fixpoint digits_aux (fuel : nat) (n : Z) (acc : pystr) : pystr :=
  match fuel with
  | O => acc
  | S f => if n <? 10 then digit n :: acc
           else digits_aux f (n / 10) (digit (n mod 10) :: acc)
  end.

(** The decimal digits of [n >= 0]; the binary length of [n] bounds the
    number of steps. *)
Definition digits (n : Z) : pystr :=
  digits_aux (S (Z.to_nat (Z.log2 n))) n [].

(** [str(z)] for an [int]. *)
Definition int_str (z : Z) : pystr :=
  if z <? 0 then lit "-" ++ digits (- z) else digits z.

Definition sign_str (s : bool) : pystr := if s then lit "-" else [].

(** *** [format(x, ".1f")] on a float *)

(** [n / d] rounded to the nearest integer, ties to even ([0 <= n],
    [0 < d]). *)
Definition div_half_even (n d : Z) : Z :=
  let q := n / d in
  let r := n mod d in
  match 2 * r ?= d with
  | Lt => q
  | Gt => q + 1
  | Eq => if Z.even q then q else q + 1
  end.

(** [m * 2 ^ e] in tenths, rounded on its exact value. *)
Definition tenths (m : positive) (e : Z) : Z :=
  if 0 <=? e then Z.pos m * 2 ^ e * 10
  else div_half_even (Z.pos m * 10) (2 ^ (- e)).

Definition float_format_1f (f : spec_float) : pystr :=
  match f with
  | S754_nan => lit "nan"
  | S754_infinity s => sign_str s ++ lit "inf"
  | S754_zero s => sign_str s ++ lit "0.0"
  | S754_finite s m e =>
      let t := tenths m e in
      sign_str s ++ digits (t / 10) ++ lit "." ++ [digit (t mod 10)]
  end.

(** *** [repr(x)] on a float: the shortest decimal that reads back as [x] *)

(** The interval of the reals that round to the binary64 value
    [m * 2 ^ e] (mantissa normalised), as [(L, X, H, D)]: the value is
    [X / D], the interval runs from [L / D] to [H / D]. *)
Definition rounding_interval (m : positive) (e : Z) : Z * Z * Z * Z :=
  let at_binade := Pos.eqb m (Z.to_pos (2 ^ 52)) && negb (e =? -1074) in
  let x4 := 4 * Z.pos m in
  let l4 := if at_binade then x4 - 1 else x4 - 2 in
  let h4 := x4 + 2 in
  if 0 <=? e - 2
  then (l4 * 2 ^ (e - 2), x4 * 2 ^ (e - 2), h4 * 2 ^ (e - 2), 1)
  else (l4, x4, h4, 2 ^ (2 - e)).

(** [c * 10 ^ j] compared with [n / d]. *)
Definition cmp_dec (c j n d : Z) : comparison :=
  if 0 <=? j then (c * 10 ^ j * d ?= n) else (c * d ?= n * 10 ^ (- j)).

(** The integer part of [(x / d) / 10 ^ j]. *)
Definition floor_dec (x d j : Z) : Z :=
  if 0 <=? j then x / (d * 10 ^ j) else (x * 10 ^ (- j)) / d.

(** The position of the decimal point: the [k] with
    [10 ^ (k - 1) <= x / d < 10 ^ k]. *)
Fixpoint find_decpt (fuel : nat) (k x d : Z) : Z :=
  match fuel with
  | O => k
  | S f =>
      match cmp_dec 1 k x d with
      | Gt => match cmp_dec 1 (k - 1) x d with
              | Gt => find_decpt f (k - 1) x d
              | _ => k
              end
      | _ => find_decpt f (k + 1) x d
      end
  end.

Definition in_interval (closed : bool) (c j l h d : Z) : bool :=
  match cmp_dec c j l d, cmp_dec c j h d with
  | Gt, Lt => true
  | Eq, Lt | Gt, Eq | Eq, Eq => closed
  | _, _ => false
  end.

Definition dec_dist (c j x d : Z) : Z :=
  if 0 <=? j then Z.abs (c * 10 ^ j * d - x)
  else Z.abs (c * d - x * 10 ^ (- j)).

(** With [n] digits, then [n + 1], ...: the candidates around the value,
    the first that lies in the interval, the nearer when both do. *)
Fixpoint shortest_aux (fuel : nat) (n : Z) (closed : bool)
                      (l x h d k : Z) : Z * Z :=
  let j := k - n in
  let c := floor_dec x d j in
  let pick :=
    match in_interval closed c j l h d,
          in_interval closed (c + 1) j l h d with
    | true, true =>
        match dec_dist c j x d ?= dec_dist (c + 1) j x d with
        | Lt => Some c
        | Gt => Some (c + 1)
        | Eq => Some (if Z.even c then c else c + 1)
        end
    | true, false => Some c
    | false, true => Some (c + 1)
    | false, false => None
    end in
  match pick, fuel with
  | Some v, _ => (v, j)
  | None, O => (c, j)
  | None, S f => shortest_aux f (n + 1) closed l x h d k
  end.

Fixpoint strip_zeros (fuel : nat) (v j : Z) : Z * Z :=
  match fuel with
  | O => (v, j)
  | S f => if (v mod 10 =? 0) && negb (v =? 0)
           then strip_zeros f (v / 10) (j + 1) else (v, j)
  end.

(** The digits and the position of the decimal point. *)
Definition shortest (m : positive) (e : Z) : pystr * Z :=
  let '(l, x, h, d) := rounding_interval m e in
  let k := find_decpt 800 0 x d in
  let '(v, j) := shortest_aux 17 1 (Z.even (Z.pos m)) l x h d k in
  let '(v, j) := strip_zeros 20 v j in
  let ds := digits v in
  (ds, j + Z.of_nat (List.length ds)).

Definition zeros (n : Z) : pystr := repeat 48%N (Z.to_nat n).

Definition exp_str (x : Z) : pystr :=
  (if x <? 0 then lit "-" else lit "+") ++
  (if Z.abs x <? 10 then lit "0" else []) ++ digits (Z.abs x).

Definition repr_finite (ds : pystr) (decpt : Z) : pystr :=
  let n := Z.of_nat (List.length ds) in
  if (decpt <=? -4) || (16 <? decpt) then
    firstn 1 ds ++ (if 1 <? n then lit "." ++ skipn 1 ds else []) ++
    lit "e" ++ exp_str (decpt - 1)
  else if decpt <=? 0 then lit "0." ++ zeros (- decpt) ++ ds
  else if n <=? decpt then ds ++ zeros (decpt - n) ++ lit ".0"
  else firstn (Z.to_nat decpt) ds ++ lit "." ++ skipn (Z.to_nat decpt) ds.

Definition float_repr (f : spec_float) : pystr :=
  match f with
  | S754_nan => lit "nan"
  | S754_infinity s => sign_str s ++ lit "inf"
  | S754_zero s => sign_str s ++ lit "0.0"
  | S754_finite s m e =>
      match binary_normalize prec emax (Z.pos m) e false with
      | S754_finite _ m' e' =>
          let '(ds, k) := shortest m' e' in sign_str s ++ repr_finite ds k
      | _ => sign_str s ++ lit "inf"
      end
  end.

(** *** Exact comparison of numbers

    Python compares an [int] with a [float], and two floats, by their
    exact values; every comparison with a NaN is false. *)
Inductive xnum : Type :=
| XNaN
| XNegInf
| XFin (m e : Z)      (* m * 2 ^ e *)
| XPosInf.

Definition xnum_of_float (f : spec_float) : xnum :=
  match f with
  | S754_nan => XNaN
  | S754_infinity true => XNegInf
  | S754_infinity false => XPosInf
  | S754_zero _ => XFin 0 0
  | S754_finite s m e => XFin (if s then Z.neg m else Z.pos m) e
  end.

Definition dy_compare (m1 e1 m2 e2 : Z) : comparison :=
  let e := Z.min e1 e2 in
  (m1 * 2 ^ (e1 - e) ?= m2 * 2 ^ (e2 - e)).

(** [None] when one side is a NaN. *)
Definition xnum_compare (a b : xnum) : option comparison :=
  match a, b with
  | XNaN, _ | _, XNaN => None
  | XNegInf, XNegInf => Some Eq
  | XNegInf, _ => Some Lt
  | _, XNegInf => Some Gt
  | XPosInf, XPosInf => Some Eq
  | XPosInf, _ => Some Gt
  | _, XPosInf => Some Lt
  | XFin m1 e1, XFin m2 e2 => Some (dy_compare m1 e1 m2 e2)
  end.

Definition xnum_ltb (a b : xnum) : bool :=
  match xnum_compare a b with Some Lt => true | _ => false end.

Definition xnum_leb (a b : xnum) : bool :=
  match xnum_compare a b with Some Lt | Some Eq => true | _ => false end.

Definition xnum_eqb (a b : xnum) : bool :=
  match xnum_compare a b with Some Eq => true | _ => false end.

(* ------------------------------------------------------------------ *)
(** ** Python values and exceptions *)

Set Warnings "-register-all".

(** The objects a decoded JSON document is made of.  A dict keeps its
    items in insertion order; its keys are strings. *)
Inductive pyval : Type :=
| PNone
| PBool (b : bool)
| PInt (z : Z)
| PFloat (f : spec_float)
| PStr (s : pystr)
| PList (l : list pyval)
| PDict (d : list (pystr * pyval)).

(** The exception classes [requests] raises, as far as the handlers of
    [search_weather] tell them apart.  [RInvalid] stands for the classes
    that also derive from [ValueError] ([MissingSchema], [InvalidURL],
    [JSONDecodeError]). *)
Inductive requests_class : Type :=
| RConnectionError
| RTimeout
| RInvalid
| ROther.

Inductive exn : Type :=
| ValueError (msg : pystr)
| ConnectionError (msg : pystr)        (* the built-in class *)
| KeyError (key : pyval)
| IndexError
| TypeError
| AttributeError
| OverflowError
| RequestException (c : requests_class) (msg : pystr).

(** The outcome of an expression that may raise. *)
Inductive result (A : Type) : Type :=
| Ok (a : A)
| Raise (e : exn).

Arguments Ok {A} a.
Arguments Raise {A} e.

Definition bind {A B : Type} (r : result A) (k : A -> result B) : result B :=
  match r with
  | Ok a => k a
  | Raise e => Raise e
  end.

Declare Scope py_scope.
Delimit Scope py_scope with py.
Notation "x <- r ;; k" := (bind r (fun x => k))
  (at level 61, r at next level, right associativity) : py_scope.
Local Open Scope py_scope.

(** [KeyError] and [IndexError], the subclasses of [LookupError]. *)
Definition is_lookup_error (e : exn) : bool :=
  match e with
  | KeyError _ | IndexError => true
  | _ => false
  end.

(** *** Subscription *)

Fixpoint dict_get (d : list (pystr * pyval)) (k : pystr) : option pyval :=
  match d with
  | [] => None
  | (k', v) :: d' => if str_eqb k' k then Some v else dict_get d' k
  end.

(** [v[k]] for a string literal [k]. *)
Definition getitem (v : pyval) (k : pystr) : result pyval :=
  match v with
  | PDict d =>
      match dict_get d k with
      | Some x => Ok x
      | None => Raise (KeyError (PStr k))
      end
  | _ => Raise TypeError
  end.

(** [v[0]]. *)
Definition getitem0 (v : pyval) : result pyval :=
  match v with
  | PList (x :: _) => Ok x
  | PList [] => Raise IndexError
  | PStr (c :: _) => Ok (PStr [c])
  | PStr [] => Raise IndexError
  | PDict _ => Raise (KeyError (PInt 0))
  | _ => Raise TypeError
  end.

(** [for item in v]: the items visited. *)
Definition py_iter (v : pyval) : result (list pyval) :=
  match v with
  | PList l => Ok l
  | PDict d => Ok (map (fun kv => PStr (fst kv)) d)
  | PStr s => Ok (map (fun c => PStr [c]) s)
  | _ => Raise TypeError
  end.

(** *** Numbers among the values *)

(** The exact value of a number; [bool] is a subclass of [int]. *)
Definition number (v : pyval) : option xnum :=
  match v with
  | PBool b => Some (XFin (if b then 1 else 0) 0)
  | PInt z => Some (XFin z 0)
  | PFloat f => Some (xnum_of_float f)
  | _ => None
  end.

(** [a < b]; it raises [TypeError] between values that have no order.
    (Two lists are ordered in Python; the program formats what it
    compares with [".1f"], which raises [TypeError] on a list as well.) *)
Definition py_lt (a b : pyval) : result bool :=
  match number a, number b with
  | Some x, Some y => Ok (xnum_ltb x y)
  | _, _ =>
      match a, b with
      | PStr s, PStr t => Ok (str_ltb s t)
      | _, _ => Raise TypeError
      end
  end.

(** [a > b] is [b < a] on these types. *)
Definition py_gt (a b : pyval) : result bool := py_lt b a.

(** [a == b] on the hashable values. *)
Definition py_eqb (a b : pyval) : bool :=
  match number a, number b with
  | Some x, Some y =>
      match x, y with
      | XNaN, XNaN => true     (* the decoder shares one NaN object *)
      | _, _ => xnum_eqb x y
      end
  | _, _ =>
      match a, b with
      | PNone, PNone => true
      | PStr s, PStr t => str_eqb s t
      | _, _ => false
      end
  end.

Definition hashable (v : pyval) : bool :=
  match v with
  | PList _ | PDict _ => false
  | _ => true
  end.

(** [max(l)]: the running maximum is replaced by an item that compares
    greater. *)
Fixpoint max_from (cur : pyval) (l : list pyval) : result pyval :=
  match l with
  | [] => Ok cur
  | x :: l' =>
      g <- py_gt x cur ;;
      max_from (if g then x else cur) l'
  end.

Definition py_max (l : list pyval) : result pyval :=
  match l with
  | [] => Raise (ValueError (lit "max() arg is an empty sequence"))
  | x :: l' => max_from x l'
  end.

(** [min(l)]. *)
Fixpoint min_from (cur : pyval) (l : list pyval) : result pyval :=
  match l with
  | [] => Ok cur
  | x :: l' =>
      g <- py_lt x cur ;;
      min_from (if g then x else cur) l'
  end.

Definition py_min (l : list pyval) : result pyval :=
  match l with
  | [] => Raise (ValueError (lit "min() arg is an empty sequence"))
  | x :: l' => min_from x l'
  end.

(** *** Formatting *)

(** [float(z)] as [int.__format__] calls it. *)
Definition int_to_float (z : Z) : result spec_float :=
  match float_of_Z z with
  | S754_infinity _ => Raise OverflowError
  | f => Ok f
  end.

(** [format(v, ".1f")]: an [int] is converted to a float first. *)
Definition format_1f (v : pyval) : result pystr :=
  match v with
  | PFloat f => Ok (float_format_1f f)
  | PInt z => f <- int_to_float z ;; Ok (float_format_1f f)
  | PBool b => f <- int_to_float (if b then 1 else 0) ;; Ok (float_format_1f f)
  | PStr _ =>
      Raise (ValueError
               (lit "Unknown format code 'f' for object of type 'str'"))
  | _ => Raise TypeError
  end.

Section Repr.

Variable db : unicode_db.

(** [repr(v)]. *)
Fixpoint py_repr (v : pyval) : pystr :=
  match v with
  | PNone => lit "None"
  | PBool true => lit "True"
  | PBool false => lit "False"
  | PInt z => int_str z
  | PFloat f => float_repr f
  | PStr s => str_repr db s
  | PList l =>
      lit "[" ++
      (fix items (l : list pyval) : pystr :=
         match l with
         | [] => []
         | [x] => py_repr x
         | x :: l' => py_repr x ++ lit ", " ++ items l'
         end) l ++ lit "]"
  | PDict d =>
      lit "{" ++
      (fix items (d : list (pystr * pyval)) : pystr :=
         match d with
         | [] => []
         | [(k, x)] => str_repr db k ++ lit ": " ++ py_repr x
         | (k, x) :: d' =>
             str_repr db k ++ lit ": " ++ py_repr x ++ lit ", " ++ items d'
         end) d ++ lit "}"
  end.

(** [str(v)], which is what [f"{v}"] inserts. *)
Definition py_str (v : pyval) : pystr :=
  match v with
  | PStr s => s
  | _ => py_repr v
  end.

(** [v.title()]: only a [str] has the method. *)
Definition py_title (v : pyval) : result pystr :=
  match v with
  | PStr s => Ok (title db s)
  | _ => Raise AttributeError
  end.

(** [v.split(" ")[0]]. *)
Definition py_split0 (v : pyval) : result pystr :=
  match v with
  | PStr s => Ok (before_space s)
  | _ => Raise AttributeError
  end.

End Repr.

(* ------------------------------------------------------------------ *)
(** ** The interpreter, the configuration and the network *)

(** What the program takes from the interpreter and its library.
    [set_iter l] is the order in which [set(l)] is iterated, which the
    hashes of the process fix.  [date_label s] is
    [datetime.strptime(s, "%Y-%m-%d").strftime("%a, %b %d")], which raises
    [ValueError] when [s] is not a date. *)
Record runtime : Type := {
  unicode    : unicode_db;
  set_iter   : list pyval -> list pyval;
  date_label : pystr -> result pystr
}.

(** The iteration of a set of strings visits each distinct string of the
    list once. *)
Definition set_iter_ok (rt : runtime) : Prop :=
  forall l : list pystr,
    NoDup (set_iter rt (map PStr l)) /\
    forall v, In v (set_iter rt (map PStr l)) <-> In v (map PStr l).

(** Modelled from the spec: [config.py] is not among the sources; it
    supplies "an API key and the two endpoint URLs".  [None] is the value
    the import fallback of [weather_data.py] assigns. *)
Record config : Type := {
  API_KEY             : option pystr;
  CURRENT_WEATHER_URL : option pystr;
  FORECAST_URL        : option pystr
}.

(** [bool(API_KEY)]: neither [None] nor empty. *)
Definition truthy (k : option pystr) : bool :=
  match k with
  | Some (_ :: _) => true
  | _ => false
  end.

Definition key_text (k : option pystr) : pystr :=
  match k with
  | Some s => s
  | None => []
  end.

(** One call of [requests.get(url, params=params, timeout=timeout)]. *)
Record request : Type := {
  url     : option pystr;
  params  : list (pystr * pystr);
  timeout : Z
}.

(** The part of a [Response] the program reads: [status_code] and the
    outcome of [json()]. *)
Record response : Type := {
  status_code : Z;
  json        : result pyval
}.

(** The network answers a request, given the requests sent before it,
    with a response or with an exception of [requests]. *)
Definition network : Type := list request -> request -> result response.

(** A computation that may send requests: from the requests sent so far
    to the requests sent afterwards and an outcome. *)
Definition io (A : Type) : Type := list request -> list request * result A.

Definition io_ret {A : Type} (a : A) : io A := fun log => (log, Ok a).

Definition io_raise {A : Type} (e : exn) : io A := fun log => (log, Raise e).

Definition io_lift {A : Type} (r : result A) : io A := fun log => (log, r).

Definition io_bind {A B : Type} (m : io A) (k : A -> io B) : io B :=
  fun log =>
    match m log with
    | (log', Ok a) => k a log'
    | (log', Raise e) => (log', Raise e)
    end.

Notation "x <~ m ;; k" := (io_bind m (fun x => k))
  (at level 61, m at next level, right associativity) : py_scope.

Definition requests_get (net : network) (u : option pystr)
    (ps : list (pystr * pystr)) (t : Z) : io response :=
  fun log =>
    let req := {| url := u; params := ps; timeout := t |} in
    (log ++ [req], net log req).

(* ------------------------------------------------------------------ *)
(** ** [weather_data.py] *)

Section WeatherData.

Variable rt : runtime.
Variable cfg : config.
Variable net : network.

Let db := unicode rt.

(** The characters accepted besides letters and whitespace. *)
Definition punctuation : pystr := lit "-'.,".

(** [c.isalpha() or c.isspace() or c in "-'.,"] *)
Definition allowed (c : char) : bool :=
  isalpha db c || isspace db c || char_in c punctuation.

(** [validate_input(city_name)]; [None] is Python's [None]. *)
Definition validate_input (city_name : option pystr) : bool * pystr :=
  match city_name with
  | None => (false, lit "Please enter a city name.")
  | Some s =>
      if str_eqb s [] || str_eqb (strip db s) [] then
        (false, lit "Please enter a city name.")
      else if negb (forallb allowed (strip db s)) then
        (false, lit "City name contains invalid characters.")
      else (true, [])
  end.

(** The three messages of the fetch functions. *)
Definition msg_key_missing : pystr :=
  lit "API key is missing. Please set it in config.py.".

Definition msg_not_found (city_name : pystr) : pystr :=
  lit "City '" ++ city_name ++ lit "' not found. Please check the name.".

Definition msg_invalid_key : pystr :=
  lit "Invalid API key. Please check config.py.".

Definition msg_api_error (status : Z) : pystr :=
  lit "API error (status " ++ int_str status ++ lit ").".

(** [fetch_current_weather(city_name)] *)
Definition fetch_current_weather (city_name : pystr) : io pyval :=
  if negb (truthy (API_KEY cfg)) then
    io_raise (ValueError msg_key_missing)
  else
    let params := [ (lit "q", strip db city_name);
                    (lit "appid", key_text (API_KEY cfg));
                    (lit "units", lit "metric") ] in
    response <~ requests_get net (CURRENT_WEATHER_URL cfg) params 10 ;;
    if status_code response =? 404 then
      io_raise (ValueError (msg_not_found city_name))
    else if status_code response =? 401 then
      io_raise (ValueError msg_invalid_key)
    else if negb (status_code response =? 200) then
      io_raise (ConnectionError (msg_api_error (status_code response)))
    else io_lift (json response).

(** [fetch_forecast(city_name)] *)
Definition fetch_forecast (city_name : pystr) : io pyval :=
  if negb (truthy (API_KEY cfg)) then
    io_raise (ValueError msg_key_missing)
  else
    let params := [ (lit "q", strip db city_name);
                    (lit "appid", key_text (API_KEY cfg));
                    (lit "units", lit "metric") ] in
    response <~ requests_get net (FORECAST_URL cfg) params 10 ;;
    if status_code response =? 404 then
      io_raise (ValueError (msg_not_found city_name))
    else if status_code response =? 401 then
      io_raise (ValueError msg_invalid_key)
    else if negb (status_code response =? 200) then
      io_raise (ConnectionError (msg_api_error (status_code response)))
    else io_lift (json response).

(** The suffix [" °C"]: a space, U+00B0, [C]. *)
Definition degrees_c : pystr := [32%N; 176%N; 67%N].

(** The dict [parse_current_weather] returns. *)
Record current_weather : Type := {
  temperature : pystr;
  condition   : pystr;
  humidity    : pystr;
  wind_speed  : pystr
}.

(** [parse_current_weather(data)]: the four values of the dict display
    are evaluated in the order they are written. *)
Definition parse_current_weather (data : pyval) : result current_weather :=
  main <- getitem data (lit "main") ;;
  temp <- getitem main (lit "temp") ;;
  temperature <- format_1f temp ;;
  weather <- getitem data (lit "weather") ;;
  first <- getitem0 weather ;;
  description <- getitem first (lit "description") ;;
  condition <- py_title db description ;;
  main' <- getitem data (lit "main") ;;
  humidity <- getitem main' (lit "humidity") ;;
  wind <- getitem data (lit "wind") ;;
  speed <- getitem wind (lit "speed") ;;
  Ok {| temperature := temperature ++ degrees_c;
        condition   := condition;
        humidity    := py_str db humidity ++ lit "%";
        wind_speed  := py_str db speed ++ lit " m/s" |}.

(** One value of the [defaultdict]: [{"temps": [], "conditions": []}]. *)
Record bucket : Type := {
  temps      : list pyval;
  conditions : list pyval
}.

Definition empty_bucket : bucket := {| temps := []; conditions := [] |}.

(** The [defaultdict], its keys in the order they were first used. *)
Definition daily_t : Type := list (pystr * bucket).

Fixpoint daily_get (daily : daily_t) (k : pystr) : option bucket :=
  match daily with
  | [] => None
  | (k', b) :: daily' => if str_eqb k' k then Some b else daily_get daily' k
  end.

(** [daily[k]] followed by a change [f] of the list it holds: a missing
    key is first given the default bucket. *)
Fixpoint daily_update (daily : daily_t) (k : pystr)
                      (f : bucket -> bucket) : daily_t :=
  match daily with
  | [] => [(k, f empty_bucket)]
  | (k', b) :: daily' =>
      if str_eqb k' k then (k', f b) :: daily'
      else (k', b) :: daily_update daily' k f
  end.

Definition append_temp (t : pyval) (b : bucket) : bucket :=
  {| temps := temps b ++ [t]; conditions := conditions b |}.

Definition append_condition (c : pyval) (b : bucket) : bucket :=
  {| temps := temps b; conditions := conditions b ++ [c] |}.

(** The body of the first loop for one [item]. *)
Definition add_item (daily : daily_t) (item : pyval) : result daily_t :=
  dt_txt <- getitem item (lit "dt_txt") ;;
  date_str <- py_split0 dt_txt ;;
  main <- getitem item (lit "main") ;;
  temp <- getitem main (lit "temp") ;;
  let daily1 := daily_update daily date_str (append_temp temp) in
  weather <- getitem item (lit "weather") ;;
  first <- getitem0 weather ;;
  description <- getitem first (lit "description") ;;
  Ok (daily_update daily1 date_str (append_condition description)).

Fixpoint add_items (daily : daily_t) (items : list pyval) : result daily_t :=
  match items with
  | [] => Ok daily
  | item :: items' =>
      daily' <- add_item daily item ;;
      add_items daily' items'
  end.

(** [l.count(x)] *)
Definition count (l : list pyval) (x : pyval) : nat :=
  List.length (filter (fun y => py_eqb y x) l).

(** [max(it, key=key)]: the running maximum is replaced by an item whose
    key is greater, so the first of the greatest stays. *)
Fixpoint max_key_from (key : pyval -> nat) (cur : pyval)
                      (l : list pyval) : pyval :=
  match l with
  | [] => cur
  | x :: l' => max_key_from key (if (key cur <? key x)%nat then x else cur) l'
  end.

(** [max(set(conds), key=conds.count)] *)
Definition most_common (conds : list pyval) : result pyval :=
  if negb (forallb hashable conds) then Raise TypeError
  else
    match set_iter rt conds with
    | [] => Raise (ValueError (lit "max() arg is an empty sequence"))
    | x :: l => Ok (max_key_from (count conds) x l)
    end.

(** One dict of the list [parse_forecast] returns. *)
Record forecast_entry : Type := {
  date       : pystr;
  max_temp   : pystr;
  min_temp   : pystr;
  fcondition : pystr      (* the key ["condition"] *)
}.

(** The body of the second loop for one bucket. *)
Definition make_entry (date_str : pystr) (info : bucket)
  : result forecast_entry :=
  condition <- most_common (conditions info) ;;
  label <- date_label rt date_str ;;
  hi <- py_max (temps info) ;;
  hi_text <- format_1f hi ;;
  lo <- py_min (temps info) ;;
  lo_text <- format_1f lo ;;
  shown <- py_title db condition ;;
  Ok {| date       := label;
        max_temp   := hi_text ++ degrees_c;
        min_temp   := lo_text ++ degrees_c;
        fcondition := shown |}.

Fixpoint make_entries (daily : daily_t) (keys : list pystr)
  : result (list forecast_entry) :=
  match keys with
  | [] => Ok []
  | k :: keys' =>
      let info := match daily_get daily k with
                  | Some b => b
                  | None => empty_bucket
                  end in
      entry <- make_entry k info ;;
      rest <- make_entries daily keys' ;;
      Ok (entry :: rest)
  end.

(** [parse_forecast(data)] *)
Definition parse_forecast (data : pyval) : result (list forecast_entry) :=
  raw <- getitem data (lit "list") ;;
  items <- py_iter raw ;;
  daily <- add_items [] items ;;
  make_entries daily (sorted (map fst daily)).

End WeatherData.

(* ------------------------------------------------------------------ *)
(** ** [WeatherApp.search_weather] in [weather_app.py]

    The window is reduced to what the method changes: the text and the
    colour of the status label, and what the two frames show ([None]
    after [clear_frame]). *)

Record gui : Type := {
  status_text    : pystr;
  status_fg      : pystr;
  current_frame  : option current_weather;
  forecast_frame : option (list forecast_entry)
}.

(** [self.status_label.config(text=t)] and [config(text=t, fg=c)] *)
Definition set_text (g : gui) (t : pystr) : gui :=
  {| status_text := t; status_fg := status_fg g;
     current_frame := current_frame g; forecast_frame := forecast_frame g |}.

Definition set_status (g : gui) (t c : pystr) : gui :=
  {| status_text := t; status_fg := c;
     current_frame := current_frame g; forecast_frame := forecast_frame g |}.

(** What every handler does: the message in red, both frames cleared. *)
Definition report (g : gui) (t : pystr) : gui :=
  {| status_text := t; status_fg := lit "red";
     current_frame := None; forecast_frame := None |}.

(** [str(e)] for the exceptions that carry a message. *)
Definition exn_text (e : exn) : pystr :=
  match e with
  | ValueError m | ConnectionError m | RequestException _ m => m
  | _ => []
  end.

(** [isinstance(e, ValueError)] *)
Definition is_value_error (e : exn) : bool :=
  match e with
  | ValueError _ | RequestException RInvalid _ => true
  | _ => false
  end.

(** [isinstance(e, (requests.ConnectionError, requests.Timeout))] *)
Definition is_connectivity_error (e : exn) : bool :=
  match e with
  | RequestException RConnectionError _ | RequestException RTimeout _ => true
  | _ => false
  end.

(** [isinstance(e, requests.RequestException)] *)
Definition is_request_exception (e : exn) : bool :=
  match e with
  | RequestException _ _ => true
  | _ => false
  end.

Definition msg_connection : pystr :=
  lit "Connection error. Please check your internet connection.".

Definition msg_parsing : pystr :=
  lit "Error parsing weather data. Unexpected response format.".

Section WeatherApp.

Variable rt : runtime.
Variable cfg : config.
Variable net : network.

(** The [try] block: the window as the block leaves it, and how it ends. *)
Definition try_block (city : pystr) (g : gui) (log : list request)
  : list request * gui * result unit :=
  let g1 := set_status g (lit "Fetching weather data...") (lit "blue") in
  match fetch_current_weather rt cfg net city log with
  | (log1, Raise e) => (log1, g1, Raise e)
  | (log1, Ok current_data) =>
      match parse_current_weather rt current_data with
      | Raise e => (log1, g1, Raise e)
      | Ok parsed_current =>
          let g2 := {| status_text := status_text g1;
                       status_fg := status_fg g1;
                       current_frame := Some parsed_current;
                       forecast_frame := forecast_frame g1 |} in
          match fetch_forecast rt cfg net city log1 with
          | (log2, Raise e) => (log2, g2, Raise e)
          | (log2, Ok forecast_data) =>
              match parse_forecast rt forecast_data with
              | Raise e => (log2, g2, Raise e)
              | Ok parsed_forecast =>
                  let g3 := {| status_text :=
                                 lit "Weather data for '" ++
                                 strip (unicode rt) city ++ lit "'";
                               status_fg := lit "green";
                               current_frame := Some parsed_current;
                               forecast_frame := Some parsed_forecast |} in
                  (log2, g3, Ok tt)
              end
          end
      end
  end.

(** The [except] clauses, tried in the order they are written; an
    exception none of them names leaves the method ([Some e]). *)
Definition handle (g : gui) (e : exn) : gui * option exn :=
  if is_value_error e then (report g (exn_text e), None)
  else if is_connectivity_error e then (report g msg_connection, None)
  else if is_request_exception e then
    (report g (lit "Request failed: " ++ exn_text e), None)
  else if is_lookup_error e then (report g msg_parsing, None)
  else (g, Some e).

(** [search_weather()] with [city] the text of the entry field. *)
Definition search_weather (city : pystr) (g : gui) (log : list request)
  : list request * gui * option exn :=
  let g0 := set_text g [] in
  let '(valid, msg) := validate_input rt (Some city) in
  if negb valid then (log, set_text g0 msg, None)
  else if negb (truthy (API_KEY cfg)) then
    (log, set_text g0 (lit "API key is missing. Please configure config.py."),
     None)
  else
    match try_block city g0 log with
    | (log', g', Ok _) => (log', g', None)
    | (log', g', Raise e) =>
        let '(g'', uncaught) := handle g' e in (log', g'', uncaught)
    end.

End WeatherApp.

(* ------------------------------------------------------------------ *)
(** ** An interpreter for the examples

    The parameters at ASCII text and Gregorian dates written with ASCII
    digits; it serves to run the definitions on the inputs of the test
    suite, and no theorem depends on it. *)

Definition is_upper (c : char) : bool := ((65 <=? c) && (c <=? 90))%N.
Definition is_lower (c : char) : bool := ((97 <=? c) && (c <=? 122))%N.

Definition ascii_db : unicode_db :=
  {| isalpha := fun c => is_upper c || is_lower c;
     isspace := fun c => (((9 <=? c) && (c <=? 13)) ||
                          ((28 <=? c) && (c <=? 32)))%N;
     iscased := fun c => is_upper c || is_lower c;
     iscase_ignorable := fun c => char_in c (lit "'.:^`");
     totitle := fun c => if is_lower c then [(c - 32)%N] else [c];
     tolower := fun c => if is_upper c then [(c + 32)%N] else [c];
     str_repr := fun s => lit "'" ++ s ++ lit "'" |}.

(** The distinct values of [l], each at its first occurrence. *)
Fixpoint dedup (l : list pyval) : list pyval :=
  match l with
  | [] => []
  | x :: l' => x :: filter (fun y => negb (py_eqb y x)) (dedup l')
  end.

Definition ascii_digit (c : char) : option Z :=
  if ((48 <=? c) && (c <=? 57))%N then Some (Z.of_N c - 48) else None.

Fixpoint number_of (acc : Z) (s : pystr) : option Z :=
  match s with
  | [] => Some acc
  | c :: s' =>
      match ascii_digit c with
      | Some d => number_of (10 * acc + d) s'
      | None => None
      end
  end.

(** The text before the first [-] and the text after it. *)
Fixpoint cut_dash (s : pystr) : pystr * option pystr :=
  match s with
  | [] => ([], None)
  | c :: s' =>
      if char_eqb c 45%N then ([], Some s')
      else let '(a, b) := cut_dash s' in (c :: a, b)
  end.

Definition is_leap (y : Z) : bool :=
  (y mod 4 =? 0) && (negb (y mod 100 =? 0) || (y mod 400 =? 0)).

Definition days_in_month (y m : Z) : Z :=
  if m =? 2 then (if is_leap y then 29 else 28)
  else if (m =? 4) || (m =? 6) || (m =? 9) || (m =? 11) then 30
  else 31.

(** Days since 1970-01-01 in the proleptic Gregorian calendar. *)
Definition days_from_civil (y m d : Z) : Z :=
  let y' := if m <=? 2 then y - 1 else y in
  let era := y' / 400 in
  let yoe := y' - era * 400 in
  let doy := (153 * (if 2 <? m then m - 3 else m + 9) + 2) / 5 + d - 1 in
  let doe := yoe * 365 + yoe / 4 - yoe / 100 + doy in
  era * 146097 + doe - 719468.

Definition weekday_name (y m d : Z) : pystr :=
  nth (Z.to_nat ((days_from_civil y m d + 4) mod 7))
      (map lit ["Sun"; "Mon"; "Tue"; "Wed"; "Thu"; "Fri"; "Sat"]%string) [].

Definition month_name (m : Z) : pystr :=
  nth (Z.to_nat (m - 1))
      (map lit ["Jan"; "Feb"; "Mar"; "Apr"; "May"; "Jun";
                "Jul"; "Aug"; "Sep"; "Oct"; "Nov"; "Dec"]%string) [].

Definition two_digits (d : Z) : pystr := [digit (d / 10); digit (d mod 10)].

Definition short_field (s : pystr) : bool :=
  (1 <=? List.length s)%nat && (List.length s <=? 2)%nat.

Definition gregorian_label (s : pystr) : result pystr :=
  let bad := Raise (ValueError (lit "time data does not match format")) in
  match cut_dash s with
  | (ys, Some rest) =>
      match cut_dash rest with
      | (ms, Some ds) =>
          match number_of 0 ys, number_of 0 ms, number_of 0 ds with
          | Some y, Some m, Some d =>
              if (List.length ys =? 4)%nat && short_field ms && short_field ds
                 && (1 <=? m) && (m <=? 12) && (1 <=? d) && (d <=? 31)
              then
                if (1 <=? y) && (d <=? days_in_month y m)
                then Ok (weekday_name y m d ++ lit ", " ++ month_name m ++
                         lit " " ++ two_digits d)
                else Raise (ValueError (lit "day or year is out of range"))
              else bad
          | _, _, _ => bad
          end
      | _ => bad
      end
  | _ => bad
  end.

Definition example_runtime : runtime :=
  {| unicode := ascii_db; set_iter := dedup; date_label := gregorian_label |}.

(* ------------------------------------------------------------------ *)
(** ** The vocabulary of the statements

    The predicates and the example inputs the properties of Part II
    are stated with. *)

(** The characters of a city name, as the specification lists them:
    alphabetic, whitespace, [-], ['], [.] and [,]. *)
Definition city_char (rt : runtime) (c : char) : Prop :=
  isalpha (unicode rt) c = true \/ isspace (unicode rt) c = true \/
  c = 45%N \/ c = 39%N \/ c = 46%N \/ c = 44%N.

(** The request the specification describes for an endpoint [u]: the
    parameters [q] (the trimmed city), [appid] (the key) and [units], and
    a timeout of 10. *)
Definition query_for (rt : runtime) (cfg : config) (u : option pystr)
    (city_name : pystr) : request :=
  {| url := u;
     params := [ (lit "q", strip (unicode rt) city_name);
                 (lit "appid", key_text (API_KEY cfg));
                 (lit "units", lit "metric") ];
     timeout := 10 |}.

(** How a response is to be classified. *)
Definition status_classified (city_name : pystr) (resp : response)
    (outcome : result pyval) : Prop :=
  (status_code resp = 200 -> outcome = json resp) /\
  (status_code resp = 404 ->
     outcome = Raise (ValueError (msg_not_found city_name)) /\
     contains city_name (msg_not_found city_name) = true) /\
  (status_code resp = 401 -> outcome = Raise (ValueError msg_invalid_key)) /\
  (status_code resp <> 200 -> status_code resp <> 404 ->
   status_code resp <> 401 ->
     outcome = Raise (ConnectionError (msg_api_error (status_code resp))) /\
     contains (int_str (status_code resp))
              (msg_api_error (status_code resp)) = true).

(** A path into a JSON document: object members and first elements. *)
Inductive step : Type :=
| Key (k : pystr)
| Index0.

(** The value at a path; [None] when the document has no such member. *)
Fixpoint lookup (v : pyval) (p : list step) : option pyval :=
  match p with
  | [] => Some v
  | Key k :: p' =>
      match v with
      | PDict d =>
          match dict_get d k with
          | Some x => lookup x p'
          | None => None
          end
      | _ => None
      end
  | Index0 :: p' =>
      match v with
      | PList (x :: _) => lookup x p'
      | _ => None
      end
  end.

Definition path_temp : list step := [Key (lit "main"); Key (lit "temp")].
Definition path_description : list step :=
  [Key (lit "weather"); Index0; Key (lit "description")].
Definition path_humidity : list step :=
  [Key (lit "main"); Key (lit "humidity")].
Definition path_speed : list step := [Key (lit "wind"); Key (lit "speed")].

(** The four paths [parse_current_weather] needs. *)
Definition required_paths : list (list step) :=
  [path_temp; path_description; path_humidity; path_speed].

(** [v] is a temperature with the binary64 value [f]: a float, or an
    integer that [float] converts. *)
Definition as_float (v : pyval) (f : spec_float) : Prop :=
  v = PFloat f \/ exists z, v = PInt z /\ int_to_float z = Ok f.

Definition is_dict (v : pyval) : bool :=
  match v with PDict _ => true | _ => false end.

Definition is_list (v : pyval) : bool :=
  match v with PList _ => true | _ => false end.

Definition is_str (v : pyval) : bool :=
  match v with PStr _ => true | _ => false end.

(** [format(v, ".1f")] succeeds: [v] is a float, or an integer in the
    range of the floats. *)
Definition formattable (v : pyval) : bool :=
  match format_1f v with Ok _ => true | Raise _ => false end.

(** The value at [p], when there is one, passes [ok]. *)
Definition typed_at (data : pyval) (p : list step) (ok : pyval -> bool)
  : bool :=
  match lookup data p with
  | Some v => ok v
  | None => true
  end.

(** Whatever the document has on the way to the four fields has the type
    the API gives it: objects are dicts, [weather] is a list, the
    temperature is a number, the description is a string. *)
Definition schema_typed (data : pyval) : bool :=
  typed_at data [] is_dict &&
  typed_at data [Key (lit "main")] is_dict &&
  typed_at data path_temp formattable &&
  typed_at data [Key (lit "weather")] is_list &&
  typed_at data [Key (lit "weather"); Index0] is_dict &&
  typed_at data path_description is_str &&
  typed_at data [Key (lit "wind")] is_dict.

(** The document [{"main": {"temp": "hot", "humidity": 65},
    "wind": {"speed": 1}}]: no [weather], and a temperature that is a
    string. *)
Definition untyped_document : pyval :=
  PDict [ (lit "main", PDict [ (lit "temp", PStr (lit "hot"));
                               (lit "humidity", PInt 65) ]);
          (lit "wind", PDict [ (lit "speed", PInt 1) ]) ].

Definition not_nan (x : xnum) : Prop := x <> XNaN.

(** [a <= b] on the values that are numbers. *)
Definition num_leb (a b : pyval) : bool :=
  match number a, number b with
  | Some x, Some y => xnum_leb x y
  | _, _ => false
  end.

(** A number other than a NaN. *)
Definition ordered_number (v : pyval) : Prop :=
  exists x, number v = Some x /\ not_nan x.

Definition str_eq_dec : forall a b : pystr, {a = b} + {a <> b} :=
  list_eq_dec N.eq_dec.

Definition str_le (a b : pystr) : Prop := str_leb a b = true.

(** What the first loop reads of one item: the date of its timestamp,
    its temperature and its description. *)
Record sample : Type := {
  sample_date : pystr;
  sample_temp : pyval;
  sample_cond : pyval
}.

Definition item_sample (item : pyval) : result sample :=
  dt_txt <- getitem item (lit "dt_txt") ;;
  date_str <- py_split0 dt_txt ;;
  main <- getitem item (lit "main") ;;
  temp <- getitem main (lit "temp") ;;
  weather <- getitem item (lit "weather") ;;
  first <- getitem0 weather ;;
  description <- getitem first (lit "description") ;;
  Ok {| sample_date := date_str; sample_temp := temp;
        sample_cond := description |}.

Fixpoint samples_of (items : list pyval) : result (list sample) :=
  match items with
  | [] => Ok []
  | item :: items' =>
      s <- item_sample item ;;
      ss <- samples_of items' ;;
      Ok (s :: ss)
  end.

Definition add_sample (daily : daily_t) (s : sample) : daily_t :=
  daily_update
    (daily_update daily (sample_date s) (append_temp (sample_temp s)))
    (sample_date s) (append_condition (sample_cond s)).

(** The bucket of a date; the default one when the date has none. *)
Definition bucket_of (daily : daily_t) (k : pystr) : bucket :=
  match daily_get daily k with
  | Some b => b
  | None => empty_bucket
  end.

(** The temperatures and the descriptions of the samples of a date, in
    the order of the list. *)
Definition on_date (k : pystr) (ss : list sample) : list sample :=
  filter (fun s => str_eqb (sample_date s) k) ss.

Definition temps_on (k : pystr) (ss : list sample) : list pyval :=
  map sample_temp (on_date k ss).

Definition conds_on (k : pystr) (ss : list sample) : list pyval :=
  map sample_cond (on_date k ss).

(** The samples of a forecast document, in the order of its list. *)
Definition forecast_samples (data : pyval) : result (list sample) :=
  raw <- getitem data (lit "list") ;;
  items <- py_iter raw ;;
  samples_of items.

(** The date keys in the order of the second loop. *)
Definition day_keys (ss : list sample) : list pystr :=
  sorted (map fst (fold_left add_sample ss [])).

(** A well-formed sample: the temperature is a number other than a NaN
    that [".1f"] formats, the description is a string, the date of the
    timestamp is one [datetime] accepts. *)
Definition wf_sample (rt : runtime) (s : sample) : Prop :=
  (ordered_number (sample_temp s) /\ formattable (sample_temp s) = true) /\
  (exists c, sample_cond s = PStr c) /\
  (exists label, date_label rt (sample_date s) = Ok label).

(** The entry [e] summarises the temperatures [ts] and the descriptions
    [cs] of a day: its [max_temp] is the text of a greatest temperature,
    its [min_temp] the text of a least one, each formatted with [".1f"]
    and followed by [" °C"]; its condition is the title-cased form of a
    description that no other occurs more often than. *)
Definition summarises (rt : runtime) (ts cs : list pyval)
    (e : forecast_entry) : Prop :=
  (exists hi hi_text,
     In hi ts /\ (forall t, In t ts -> num_leb t hi = true) /\
     format_1f hi = Ok hi_text /\ max_temp e = hi_text ++ degrees_c) /\
  (exists lo lo_text,
     In lo ts /\ (forall t, In t ts -> num_leb lo t = true) /\
     format_1f lo = Ok lo_text /\ min_temp e = lo_text ++ degrees_c) /\
  (exists c,
     In (PStr c) cs /\
     (forall c', In (PStr c') cs ->
                 (count cs (PStr c') <= count cs (PStr c))%nat) /\
     fcondition e = title (unicode rt) c).

(** The values under the two temperatures of an entry: [lo] and [hi]
    are what [min] and [max] return on the bucket's temperatures [ts],
    and the entry shows their [".1f"] texts. *)
Definition extremes (ts : list pyval) (e : forecast_entry)
    (lo hi : pyval) : Prop :=
  py_min ts = Ok lo /\ py_max ts = Ok hi /\
  exists lo_text hi_text,
    format_1f lo = Ok lo_text /\ format_1f hi = Ok hi_text /\
    min_temp e = lo_text ++ degrees_c /\ max_temp e = hi_text ++ degrees_c.

(** A forecast of one interval whose temperature is a NaN (the token
    [NaN], which the JSON decoder of Python accepts). *)
Definition nan_forecast : pyval :=
  PDict [ (lit "list",
           PList [ PDict [ (lit "dt_txt", PStr (lit "2026-02-07 12:00:00"));
                           (lit "main",
                            PDict [ (lit "temp", PFloat S754_nan) ]);
                           (lit "weather",
                            PList [ PDict [ (lit "description",
                                             PStr (lit "clouds")) ] ]) ] ]) ].

Definition nan_samples : list sample :=
  [ {| sample_date := lit "2026-02-07";
       sample_temp := PFloat S754_nan;
       sample_cond := PStr (lit "clouds") |} ].

Definition nan_entry : forecast_entry :=
  {| date := lit "Sat, Feb 07";
     max_temp := lit "nan" ++ degrees_c;
     min_temp := lit "nan" ++ degrees_c;
     fcondition := lit "Clouds" |}.

Definition example_config : config :=
  {| API_KEY := Some (lit "test_key");
     CURRENT_WEATHER_URL := Some (lit "https://example.org/weather");
     FORECAST_URL := Some (lit "https://example.org/forecast") |}.

Definition keyless_config : config :=
  {| API_KEY := None; CURRENT_WEATHER_URL := None; FORECAST_URL := None |}.

(** A network that answers every request with the same status and body. *)
Definition answer (code : Z) (body : pyval) : network :=
  fun _ _ => Ok {| status_code := code; json := Ok body |}.

(** [{"main": {"temp": 20.5, "humidity": 65},
      "weather": [{"description": "clear sky"}], "wind": {"speed": 3.2}}] *)
Definition current_document : pyval :=
  PDict [ (lit "main", PDict [ (lit "temp", PFloat (float_of_decimal 205 (-1)));
                               (lit "humidity", PInt 65) ]);
          (lit "weather",
           PList [ PDict [ (lit "description", PStr (lit "clear sky")) ] ]);
          (lit "wind", PDict [ (lit "speed",
                                PFloat (float_of_decimal 32 (-1))) ]) ].

(** [{"main": {"temp": 20}}], the document of [test_parse_missing_key_raises]. *)
Definition partial_document : pyval :=
  PDict [ (lit "main", PDict [ (lit "temp", PInt 20) ]) ].

Definition interval (dt_txt : string) (tenths_of_degree : Z)
    (description : string) : pyval :=
  PDict [ (lit "dt_txt", PStr (lit dt_txt));
          (lit "main",
           PDict [ (lit "temp", PFloat (float_of_decimal tenths_of_degree (-1))) ]);
          (lit "weather",
           PList [ PDict [ (lit "description", PStr (lit description)) ] ]) ].

(** Two intervals of one day, as in [test_parse_single_day]. *)
Definition forecast_document : pyval :=
  PDict [ (lit "list",
           PList [ interval "2026-02-07 12:00:00" 100 "clouds";
                   interval "2026-02-07 15:00:00" 120 "clouds" ]) ].

Definition forecast_document_samples : list sample :=
  [ {| sample_date := lit "2026-02-07";
       sample_temp := PFloat (float_of_decimal 100 (-1));
       sample_cond := PStr (lit "clouds") |};
    {| sample_date := lit "2026-02-07";
       sample_temp := PFloat (float_of_decimal 120 (-1));
       sample_cond := PStr (lit "clouds") |} ].

(** An interpreter that iterates a set in the opposite order. *)
Definition reversed_runtime : runtime :=
  {| unicode := ascii_db;
     set_iter := fun l => rev (dedup l);
     date_label := gregorian_label |}.

Definition tied_forecast : pyval :=
  PDict [ (lit "list",
           PList [ interval "2026-02-07 12:00:00" 100 "rain";
                   interval "2026-02-07 15:00:00" 120 "clouds" ]) ].

(* ------------------------------------------------------------------ *)
(** ** The tables of [weather_app.py]

    [create_current_weather_table] and [create_forecast_table] empty the
    frame they are given ([clear_frame]) and fill it with labels placed
    on a grid.  A frame is the list of its labels in the order they are
    created.  The options every label shares (the font family, the
    border, the relief, [padx], [sticky]) are left out. *)

Record label : Type := {
  l_text      : pystr;
  l_font_size : Z;
  l_bold      : bool;
  l_pady      : Z;
  l_bg        : pystr;
  l_fg        : option pystr;     (* [None]: the colour of the toolkit *)
  l_row       : nat;
  l_column    : nat
}.

(** [clear_frame(frame)]: every widget of the frame is destroyed. *)
Definition clear_frame (frame : list label) : list label := [].

(** [enumerate(l, start)] *)
Fixpoint enumerate {A : Type} (start : nat) (l : list A) : list (nat * A) :=
  match l with
  | [] => []
  | x :: l' => (start, x) :: enumerate (S start) l'
  end.

(** A label of the header row. *)
Definition header_label (col : nat) (header : pystr) : label :=
  {| l_text := header; l_font_size := 11; l_bold := true; l_pady := 5;
     l_bg := lit "#4a90d9"; l_fg := Some (lit "white");
     l_row := 0; l_column := col |}.

(** ["#f0f4f8" if row_idx % 2 == 0 else "white"] *)
Definition stripe (row_idx : nat) : pystr :=
  if Nat.even row_idx then lit "#f0f4f8" else lit "white".

(** A label of a data row. *)
Definition data_label (row_idx col : nat) (value : pystr) : label :=
  {| l_text := value; l_font_size := 10; l_bold := false; l_pady := 4;
     l_bg := stripe row_idx; l_fg := None;
     l_row := row_idx; l_column := col |}.

Definition header_row (headers : list pystr) : list label :=
  map (fun ch => header_label (fst ch) (snd ch)) (enumerate 0 headers).

(** [create_current_weather_table(parent, weather_data)]: the labels of
    [parent] afterwards. *)
Definition create_current_weather_table (parent : list label)
    (weather_data : current_weather) : list label :=
  let cleared := clear_frame parent in
  let rows := [ (lit "Temperature", temperature weather_data);
                (lit "Condition", condition weather_data);
                (lit "Humidity", humidity weather_data);
                (lit "Wind Speed", wind_speed weather_data) ] in
  cleared ++
  header_row [lit "Parameter"; lit "Value"] ++
  flat_map (fun r => [ data_label (fst r) 0 (fst (snd r));
                       data_label (fst r) 1 (snd (snd r)) ])
           (enumerate 1 rows).

(** The four values of a row of the forecast table. *)
Definition row_values (day : forecast_entry) : list pystr :=
  [date day; max_temp day; min_temp day; fcondition day].

(** [create_forecast_table(parent, forecast_data)] *)
Definition create_forecast_table (parent : list label)
    (forecast_data : list forecast_entry) : list label :=
  let cleared := clear_frame parent in
  cleared ++
  header_row [lit "Date"; lit "Max Temp"; lit "Min Temp"; lit "Condition"] ++
  flat_map (fun r => map (fun cv => data_label (fst r) (fst cv) (snd cv))
                         (enumerate 0 (row_values (snd r))))
           (enumerate 1 forecast_data).

(** The grid cell of a label. *)
Definition position (l : label) : nat * nat := (l_row l, l_column l).

(* ------------------------------------------------------------------ *)
(** ** More vocabulary *)

(** Both frames are filled or both are empty. *)
Definition frames_agree (g : gui) : Prop :=
  current_frame g = None <-> forecast_frame g = None.

(** A network that serves [current] and [forecast] with status 200, the
    latter at the forecast endpoint of [example_config]. *)
Definition serve (current forecast : pyval) : network :=
  fun _ req =>
    Ok {| status_code := 200;
          json := Ok (match url req with
                      | Some u =>
                          if str_eqb u (lit "https://example.org/forecast")
                          then forecast else current
                      | None => current
                      end) |}.

(** A network that is down. *)
Definition unreachable : network :=
  fun _ _ => Raise (RequestException RConnectionError (lit "unreachable")).

(** A window that shows nothing yet. *)
Definition blank_window : gui :=
  {| status_text := []; status_fg := lit "red";
     current_frame := None; forecast_frame := None |}.

(** Two days, the later one first, and the same intervals in the other
    order. *)
Definition later_day_first : pyval :=
  PDict [ (lit "list",
           PList [ interval "2026-02-08 12:00:00" 150 "rain";
                   interval "2026-02-07 12:00:00" 100 "clouds" ]) ].

Definition earlier_day_first : pyval :=
  PDict [ (lit "list",
           PList [ interval "2026-02-07 12:00:00" 100 "clouds";
                   interval "2026-02-08 12:00:00" 150 "rain" ]) ].

(** Every description of the list is a string. *)
Definition all_strings (cs : list pyval) : Prop :=
  Forall (fun c => exists s, c = PStr s) cs.

(** No temperature of the list is a NaN. *)
Definition no_nan (ts : list pyval) : Prop :=
  Forall (fun t => number t <> Some XNaN) ts.

(** One description of the list occurs more often than every other. *)
Definition untied (cs : list pyval) : Prop :=
  exists m, In m cs /\
    forall x, In x cs -> x <> m -> (count cs x < count cs m)%nat.

(** Two outcomes of [parse_forecast] that differ at most in the
    conditions of their entries: the same exception, or as many entries
    with the same dates and temperatures. *)
Definition same_but_conditions (r1 r2 : result (list forecast_entry)) : Prop :=
  match r1, r2 with
  | Ok es1, Ok es2 =>
      Forall2 (fun e1 e2 => date e1 = date e2 /\
                            max_temp e1 = max_temp e2 /\
                            min_temp e1 = min_temp e2) es1 es2
  | Raise x1, Raise x2 => x1 = x2
  | _, _ => False
  end.

(** Two intervals of one day, the first with a NaN for its temperature
    (the token [NaN], which the JSON decoder of Python accepts), the
    second with 5.0. *)
Definition nan_first_forecast : pyval :=
  PDict [ (lit "list",
           PList [ PDict [ (lit "dt_txt", PStr (lit "2026-02-07 12:00:00"));
                           (lit "main",
                            PDict [ (lit "temp", PFloat S754_nan) ]);
                           (lit "weather",
                            PList [ PDict [ (lit "description",
                                             PStr (lit "clouds")) ] ]) ];
                   interval "2026-02-07 15:00:00" 50 "clouds" ]) ].

Definition nan_first_samples : list sample :=
  [ {| sample_date := lit "2026-02-07";
       sample_temp := PFloat S754_nan;
       sample_cond := PStr (lit "clouds") |};
    {| sample_date := lit "2026-02-07";
       sample_temp := PFloat (float_of_decimal 50 (-1));
       sample_cond := PStr (lit "clouds") |} ].

(** What the parser returns on [nan_first_forecast]. *)
Definition nan_first_entry : forecast_entry :=
  {| date := lit "Sat, Feb 07";
     max_temp := lit "nan" ++ degrees_c;
     min_temp := lit "nan" ++ degrees_c;
     fcondition := lit "Clouds" |}.

(** What the parser returns on [forecast_document]. *)
Definition forecast_document_entry : forecast_entry :=
  {| date := lit "Sat, Feb 07";
     max_temp := lit "12.0" ++ degrees_c;
     min_temp := lit "10.0" ++ degrees_c;
     fcondition := lit "Clouds" |}.

(* ================================================================== *)
(** * Part II.  Properties *)

(* ------------------------------------------------------------------ *)
(** ** Strings *)

Lemma str_eqb_spec (a b : pystr) : reflect (a = b) (str_eqb a b).
Proof.
  revert b; induction a as [|x a IH]; intros [|y b]; simpl;
    try (constructor; congruence).
  unfold char_eqb; destruct (N.eqb_spec x y) as [->|Hxy]; simpl.
  - destruct (IH b) as [->|Hab]; constructor; congruence.
  - constructor; congruence.
Qed.

Lemma str_eqb_refl (a : pystr) : str_eqb a a = true.
Proof. destruct (str_eqb_spec a a); congruence. Qed.

Lemma str_eqb_eq (a b : pystr) : str_eqb a b = true <-> a = b.
Proof. destruct (str_eqb_spec a b); split; congruence. Qed.

Lemma str_eqb_neq (a b : pystr) : str_eqb a b = false <-> a <> b.
Proof. destruct (str_eqb_spec a b); split; congruence. Qed.

Lemma str_eqb_nil (s : pystr) : str_eqb s [] = true <-> s = [].
Proof. apply str_eqb_eq. Qed.

Lemma starts_with_app (n s : pystr) : starts_with n (n ++ s) = true.
Proof.
  induction n as [|x n IH]; simpl; [reflexivity|].
  unfold char_eqb; rewrite N.eqb_refl; exact IH.
Qed.

Lemma contains_head (n s : pystr) :
  starts_with n s = true -> contains n s = true.
Proof. destruct s; simpl; intros ->; reflexivity. Qed.

Lemma contains_app (n a b : pystr) : contains n (a ++ n ++ b) = true.
Proof.
  induction a as [|x a IH]; simpl.
  - apply contains_head, starts_with_app.
  - rewrite IH; apply orb_true_r.
Qed.

Section StripFacts.

Variable db : unicode_db.

Lemma lstrip_split (s : pystr) :
  exists ws, s = ws ++ lstrip db s /\ forallb (isspace db) ws = true.
Proof.
  induction s as [|c s IH]; simpl.
  - exists []; split; reflexivity.
  - destruct (isspace db c) eqn:Hc.
    + destruct IH as (ws & Hs & Hws).
      exists (c :: ws); split; [simpl; congruence|].
      simpl; rewrite Hc, Hws; reflexivity.
    + exists []; split; reflexivity.
Qed.

Lemma lstrip_blank (s : pystr) :
  forallb (isspace db) s = true -> lstrip db s = [].
Proof.
  induction s as [|c s IH]; simpl; [reflexivity|].
  intros H; apply andb_true_iff in H as [Hc Hs]; rewrite Hc; auto.
Qed.

Lemma forallb_rev (f : char -> bool) (l : pystr) :
  forallb f (rev l) = forallb f l.
Proof.
  induction l as [|x l IH]; simpl; [reflexivity|].
  rewrite forallb_app, IH; simpl; rewrite andb_true_r; apply andb_comm.
Qed.

(** [strip] removes a run of whitespace at each end and nothing else. *)
Lemma strip_split (s : pystr) :
  exists a b, s = a ++ strip db s ++ b /\
              forallb (isspace db) a = true /\
              forallb (isspace db) b = true.
Proof.
  destruct (lstrip_split s) as (a & Hs & Ha).
  destruct (lstrip_split (rev (lstrip db s))) as (w & Hr & Hw).
  exists a, (rev w); repeat split; [|exact Ha|rewrite forallb_rev; exact Hw].
  unfold strip, rstrip.
  rewrite <- rev_app_distr, <- Hr, rev_involutive; exact Hs.
Qed.

Lemma strip_blank (s : pystr) :
  strip db s = [] <-> forallb (isspace db) s = true.
Proof.
  split; intros H.
  - destruct (strip_split s) as (a & b & Hs & Ha & Hb).
    rewrite H in Hs; rewrite Hs; simpl.
    rewrite forallb_app, Ha, Hb; reflexivity.
  - unfold strip, rstrip; rewrite (lstrip_blank s H); reflexivity.
Qed.

(** A test that whitespace passes gives the same verdict on [s] and on
    [s.strip()]. *)
Lemma forallb_strip (f : char -> bool) (s : pystr) :
  (forall c, isspace db c = true -> f c = true) ->
  forallb f (strip db s) = forallb f s.
Proof.
  intros Hf.
  assert (Hws : forall l, forallb (isspace db) l = true -> forallb f l = true).
  { intros l Hl; apply forallb_forall; intros c Hc.
    apply Hf; revert c Hc; apply forallb_forall; exact Hl. }
  destruct (strip_split s) as (a & b & Hs & Ha & Hb).
  rewrite Hs at 2.
  rewrite !forallb_app, (Hws a Ha), (Hws b Hb), andb_true_r; reflexivity.
Qed.

End StripFacts.

(* ------------------------------------------------------------------ *)
(** ** The validator *)

Lemma allowed_city_char (rt : runtime) (c : char) :
  allowed rt c = true <-> city_char rt c.
Proof.
  unfold allowed, city_char, punctuation, char_in, char_eqb; simpl.
  rewrite !orb_true_iff, !N.eqb_eq; intuition congruence.
Qed.

Lemma forallb_allowed (rt : runtime) (s : pystr) :
  forallb (allowed rt) s = true <-> Forall (city_char rt) s.
Proof.
  rewrite forallb_forall, Forall_forall.
  split; intros H c Hc; apply allowed_city_char, H, Hc.
Qed.

(** C4.  [validate_input] on every input: an absent, empty or
    whitespace-only name is rejected with the request to enter a city
    name; a name with a character outside the letters, whitespace and
    [-'.,] is rejected for its invalid characters; every other name is
    accepted with an empty message. *)
Theorem validate_input_classifies (rt : runtime) (city_name : option pystr) :
  ((city_name = None \/
    exists s, city_name = Some s /\
              Forall (fun c => isspace (unicode rt) c = true) s) ->
   validate_input rt city_name = (false, lit "Please enter a city name.")) /\
  (forall s, city_name = Some s ->
     Exists (fun c => ~ city_char rt c) s ->
     validate_input rt city_name =
       (false, lit "City name contains invalid characters.")) /\
  (forall s, city_name = Some s ->
     Exists (fun c => isspace (unicode rt) c = false) s ->
     Forall (city_char rt) s ->
     validate_input rt city_name = (true, [])).
Proof.
  assert (Hblank : forall s, (str_eqb s [] || str_eqb (strip (unicode rt) s) [])
                             = forallb (isspace (unicode rt)) s).
  { intros s. destruct (forallb (isspace (unicode rt)) s) eqn:E.
    - apply (strip_blank (unicode rt)) in E; rewrite E; apply orb_true_r.
    - apply orb_false_iff; split; apply str_eqb_neq; intros H.
      + subst s; discriminate.
      + apply (strip_blank (unicode rt)) in H; congruence. }
  assert (Hall : forall s, forallb (allowed rt) (strip (unicode rt) s)
                           = forallb (allowed rt) s).
  { intros s; apply forallb_strip; intros c Hc.
    unfold allowed; rewrite Hc, orb_true_r; reflexivity. }
  repeat split.
  - intros [->|(s & -> & Hs)]; [reflexivity|].
    unfold validate_input; rewrite Hblank.
    rewrite (proj2 (forallb_forall _ _) (proj1 (Forall_forall _ _) Hs)).
    reflexivity.
  - intros s -> Hbad.
    assert (Hf : forallb (allowed rt) s = false).
    { apply not_true_is_false; intros H; apply forallb_allowed in H.
      apply Exists_exists in Hbad as (c & Hc & Hn).
      apply Hn; exact (proj1 (Forall_forall _ _) H c Hc). }
    assert (Hb : forallb (isspace (unicode rt)) s = false).
    { apply not_true_is_false; intros H.
      enough (forallb (allowed rt) s = true) by congruence.
      apply forallb_forall; intros c Hc; unfold allowed.
      rewrite (proj1 (forallb_forall _ _) H c Hc), orb_true_r.
      reflexivity. }
    unfold validate_input; rewrite Hblank, Hb, Hall, Hf; reflexivity.
  - intros s -> Hns Hok.
    assert (Hb : forallb (isspace (unicode rt)) s = false).
    { apply not_true_is_false; intros H.
      apply Exists_exists in Hns as (c & Hc & Hn).
      rewrite (proj1 (forallb_forall _ _) H c Hc) in Hn; discriminate. }
    apply forallb_allowed in Hok.
    unfold validate_input; rewrite Hblank, Hb, Hall, Hok; reflexivity.
Qed.

Lemma validate_input_classifies_witness :
  validate_input example_runtime None
    = (false, lit "Please enter a city name.") /\
  validate_input example_runtime (Some (lit "London123"))
    = (false, lit "City name contains invalid characters.") /\
  validate_input example_runtime (Some (lit "Stratford-upon-Avon"))
    = (true, []).
Proof.
  split; [|split].
  - apply (proj1 (validate_input_classifies example_runtime None)).
    left; reflexivity.
  - apply (proj1 (proj2 (validate_input_classifies example_runtime
                           (Some (lit "London123")))) _ eq_refl).
    apply Exists_exists; exists 49%N; split; [simpl; tauto|].
    unfold city_char; simpl; intuition discriminate.
  - apply (proj2 (proj2 (validate_input_classifies example_runtime
                           (Some (lit "Stratford-upon-Avon")))) _ eq_refl).
    + apply Exists_exists; exists 83%N; split; [simpl; tauto|reflexivity].
    + apply forallb_allowed; reflexivity.
Defined.

(* ------------------------------------------------------------------ *)
(** ** The weather client *)

Lemma classify_status (city_name : pystr) (resp : response) :
  status_classified city_name resp
    (if status_code resp =? 404 then
       Raise (ValueError (msg_not_found city_name))
     else if status_code resp =? 401 then Raise (ValueError msg_invalid_key)
     else if negb (status_code resp =? 200) then
       Raise (ConnectionError (msg_api_error (status_code resp)))
     else json resp).
Proof.
  unfold status_classified.
  destruct (Z.eqb_spec (status_code resp) 404) as [E4|N4];
  destruct (Z.eqb_spec (status_code resp) 401) as [E1|N1];
  destruct (Z.eqb_spec (status_code resp) 200) as [E2|N2]; cbn [negb];
    repeat split; intros; try congruence;
    first [ apply (contains_app city_name (lit "City '"))
          | apply (contains_app _ (lit "API error (status ")) ].
Qed.

Lemma fetch_current_weather_sends (rt : runtime) (cfg : config)
    (net : network) (city_name : pystr) (log : list request) :
  truthy (API_KEY cfg) = true ->
  fetch_current_weather rt cfg net city_name log =
    let req := query_for rt cfg (CURRENT_WEATHER_URL cfg) city_name in
    (log ++ [req],
     match net log req with
     | Raise e => Raise e
     | Ok resp =>
         if status_code resp =? 404 then
           Raise (ValueError (msg_not_found city_name))
         else if status_code resp =? 401 then
           Raise (ValueError msg_invalid_key)
         else if negb (status_code resp =? 200) then
           Raise (ConnectionError (msg_api_error (status_code resp)))
         else json resp
     end).
Proof.
  intros Hkey.
  unfold fetch_current_weather, io_bind, requests_get, io_raise, io_lift,
    query_for.
  rewrite Hkey; simpl.
  destruct (net log _) as [resp|e]; [|reflexivity].
  destruct (status_code resp =? 404); [reflexivity|].
  destruct (status_code resp =? 401); [reflexivity|].
  destruct (status_code resp =? 200); reflexivity.
Qed.

Lemma fetch_forecast_sends (rt : runtime) (cfg : config)
    (net : network) (city_name : pystr) (log : list request) :
  truthy (API_KEY cfg) = true ->
  fetch_forecast rt cfg net city_name log =
    let req := query_for rt cfg (FORECAST_URL cfg) city_name in
    (log ++ [req],
     match net log req with
     | Raise e => Raise e
     | Ok resp =>
         if status_code resp =? 404 then
           Raise (ValueError (msg_not_found city_name))
         else if status_code resp =? 401 then
           Raise (ValueError msg_invalid_key)
         else if negb (status_code resp =? 200) then
           Raise (ConnectionError (msg_api_error (status_code resp)))
         else json resp
     end).
Proof.
  intros Hkey.
  unfold fetch_forecast, io_bind, requests_get, io_raise, io_lift, query_for.
  rewrite Hkey; simpl.
  destruct (net log _) as [resp|e]; [|reflexivity].
  destruct (status_code resp =? 404); [reflexivity|].
  destruct (status_code resp =? 401); [reflexivity|].
  destruct (status_code resp =? 200); reflexivity.
Qed.

Lemma fetch_without_key (rt : runtime) (cfg : config) (net : network)
    (city_name : pystr) (log : list request) :
  truthy (API_KEY cfg) = false ->
  fetch_current_weather rt cfg net city_name log
    = (log, Raise (ValueError msg_key_missing)) /\
  fetch_forecast rt cfg net city_name log
    = (log, Raise (ValueError msg_key_missing)).
Proof.
  intros Hkey; unfold fetch_current_weather, fetch_forecast, io_raise.
  rewrite Hkey; split; reflexivity.
Qed.

(** C3.  With an API key configured, each fetch function classifies the
    status of the response it receives: 200 returns the decoded body,
    404 raises the "not found" error that names the requested city, 401
    raises the "invalid API key" error, every other status raises the
    "API error" that carries the status code. *)
Theorem fetch_classifies_status (rt : runtime) (cfg : config) (net : network)
    (city_name : pystr) (log : list request) (resp : response) :
  truthy (API_KEY cfg) = true ->
  (net log (query_for rt cfg (CURRENT_WEATHER_URL cfg) city_name) = Ok resp ->
   status_classified city_name resp
     (snd (fetch_current_weather rt cfg net city_name log))) /\
  (net log (query_for rt cfg (FORECAST_URL cfg) city_name) = Ok resp ->
   status_classified city_name resp
     (snd (fetch_forecast rt cfg net city_name log))).
Proof.
  intros Hkey; split; intros Hnet.
  - rewrite fetch_current_weather_sends by exact Hkey.
    cbv zeta; rewrite Hnet; apply classify_status.
  - rewrite fetch_forecast_sends by exact Hkey.
    cbv zeta; rewrite Hnet; apply classify_status.
Qed.

(** C7.  Without an API key ([None] or empty), both fetch functions
    raise the missing-key error at once: the list of requests sent is
    the one they started from, whatever the city and the network. *)
Theorem fetch_requires_key (rt : runtime) (cfg : config) (net : network)
    (city_name : pystr) (log : list request) :
  truthy (API_KEY cfg) = false ->
  fetch_current_weather rt cfg net city_name log
    = (log, Raise (ValueError msg_key_missing)) /\
  fetch_forecast rt cfg net city_name log
    = (log, Raise (ValueError msg_key_missing)) /\
  contains (lit "API key is missing") msg_key_missing = true.
Proof.
  intros Hkey.
  destruct (fetch_without_key rt cfg net city_name log Hkey) as [Hc Hf].
  split; [exact Hc|split; [exact Hf|reflexivity]].
Qed.

(** C9.  The two fetch functions differ in the endpoint only.  For every
    city, configuration and pair of networks that answer the two
    requests alike, they end alike: the same missing-key error without
    a key (and no request), otherwise one request each, with the same
    parameters and timeout, and the same classification of the
    response. *)
Theorem fetch_functions_agree (rt : runtime) (cfg : config)
    (net_c net_f : network) (city_name : pystr) (log : list request) :
  net_c log (query_for rt cfg (CURRENT_WEATHER_URL cfg) city_name)
    = net_f log (query_for rt cfg (FORECAST_URL cfg) city_name) ->
  snd (fetch_current_weather rt cfg net_c city_name log)
    = snd (fetch_forecast rt cfg net_f city_name log) /\
  (truthy (API_KEY cfg) = false ->
     fst (fetch_current_weather rt cfg net_c city_name log) = log /\
     fst (fetch_forecast rt cfg net_f city_name log) = log) /\
  (truthy (API_KEY cfg) = true ->
     fst (fetch_current_weather rt cfg net_c city_name log)
       = log ++ [query_for rt cfg (CURRENT_WEATHER_URL cfg) city_name] /\
     fst (fetch_forecast rt cfg net_f city_name log)
       = log ++ [query_for rt cfg (FORECAST_URL cfg) city_name]).
Proof.
  intros Hnet.
  destruct (truthy (API_KEY cfg)) eqn:Hkey.
  - rewrite fetch_current_weather_sends, fetch_forecast_sends by exact Hkey.
    cbv zeta; simpl; rewrite Hnet.
    repeat split; try reflexivity; discriminate.
  - destruct (fetch_without_key rt cfg net_c city_name log Hkey) as [Hc _].
    destruct (fetch_without_key rt cfg net_f city_name log Hkey) as [_ Hf].
    rewrite Hc, Hf; simpl; repeat split; try reflexivity; discriminate.
Qed.

(* ------------------------------------------------------------------ *)
(** ** The parser of the current weather *)

Lemma format_1f_as_float (v : pyval) (f : spec_float) :
  as_float v f -> format_1f v = Ok (float_format_1f f).
Proof.
  intros [->|(z & -> & Hz)]; simpl; [reflexivity|].
  rewrite Hz; reflexivity.
Qed.

Lemma lookup_key (v : pyval) (k : pystr) (p : list step) (x : pyval) :
  lookup v (Key k :: p) = Some x ->
  exists y, getitem v k = Ok y /\ lookup y p = Some x.
Proof.
  simpl; destruct v; try discriminate.
  unfold getitem; destruct (dict_get d k) as [y|]; [|discriminate].
  intros H; exists y; split; [reflexivity|exact H].
Qed.

Lemma lookup_index0 (v : pyval) (p : list step) (x : pyval) :
  lookup v (Index0 :: p) = Some x ->
  exists y, getitem0 v = Ok y /\ lookup y p = Some x.
Proof.
  simpl; destruct v as [| | | | |[|y l]|]; try discriminate.
  intros H; exists y; split; [reflexivity|exact H].
Qed.

Lemma getitem_lookup (v : pyval) (k : pystr) (y : pyval) :
  getitem v k = Ok y -> lookup v [Key k] = Some y.
Proof.
  unfold getitem; destruct v; try discriminate; simpl.
  destruct (dict_get d k); [|discriminate].
  intros H; injection H as ->; reflexivity.
Qed.

Lemma lookup_app (v : pyval) (p q : list step) :
  lookup v (p ++ q) =
  match lookup v p with
  | Some x => lookup x q
  | None => None
  end.
Proof.
  revert v; induction p as [|[k|] p IH]; intros v; simpl; [reflexivity| |].
  - destruct v; try reflexivity.
    destruct (dict_get d k); [apply IH|reflexivity].
  - destruct v as [| | | | |[|y l]|]; try reflexivity; apply IH.
Qed.

(** The parser in terms of the values at the four paths. *)
Lemma parse_current_weather_present (rt : runtime) (data : pyval)
    (temp desc hum speed : pyval) :
  lookup data path_temp = Some temp ->
  lookup data path_description = Some desc ->
  lookup data path_humidity = Some hum ->
  lookup data path_speed = Some speed ->
  parse_current_weather rt data =
    (temperature <- format_1f temp ;;
     condition <- py_title (unicode rt) desc ;;
     Ok {| temperature := temperature ++ degrees_c;
           condition   := condition;
           humidity    := py_str (unicode rt) hum ++ lit "%";
           wind_speed  := py_str (unicode rt) speed ++ lit " m/s" |})%py.
Proof.
  intros Ht Hd Hh Hs.
  apply lookup_key in Ht as (main & Hmain & Ht).
  apply lookup_key in Ht as (t & Htemp & Ht); injection Ht as ->.
  apply lookup_key in Hd as (weather & Hweather & Hd).
  apply lookup_index0 in Hd as (first & Hfirst & Hd).
  apply lookup_key in Hd as (d & Hdesc & Hd); injection Hd as ->.
  apply lookup_key in Hh as (main' & Hmain' & Hh).
  assert (main' = main) by congruence; subst main'.
  apply lookup_key in Hh as (h & Hhum & Hh); injection Hh as ->.
  apply lookup_key in Hs as (wind & Hwind & Hs).
  apply lookup_key in Hs as (s & Hspeed & Hs); injection Hs as ->.
  unfold parse_current_weather.
  rewrite Hmain; cbn [bind]; rewrite Htemp; cbn [bind].
  destruct (format_1f temp) as [ts|e]; [|reflexivity]; cbn [bind].
  rewrite Hweather; cbn [bind]; rewrite Hfirst; cbn [bind].
  rewrite Hdesc; cbn [bind].
  destruct (py_title (unicode rt) desc) as [c|e]; [|reflexivity]; cbn [bind].
  rewrite Hhum; cbn [bind].
  rewrite Hwind; cbn [bind]; rewrite Hspeed; reflexivity.
Qed.

(** C5.  On a well-formed document ([main.temp] a number,
    [weather[0].description] a string, [main.humidity] an integer,
    [wind.speed] present), the record holds the temperature formatted
    with [".1f"] and the suffix [" °C"], the description title-cased,
    the humidity as the integer followed by [%], and the speed as
    [str] prints it followed by [" m/s"]. *)
Theorem parse_current_weather_formats (rt : runtime) (data : pyval)
    (temp speed : pyval) (f : spec_float) (desc : pystr) (h : Z) :
  lookup data path_temp = Some temp ->
  as_float temp f ->
  lookup data path_description = Some (PStr desc) ->
  lookup data path_humidity = Some (PInt h) ->
  lookup data path_speed = Some speed ->
  parse_current_weather rt data =
    Ok {| temperature := float_format_1f f ++ degrees_c;
          condition   := title (unicode rt) desc;
          humidity    := int_str h ++ lit "%";
          wind_speed  := py_str (unicode rt) speed ++ lit " m/s" |}.
Proof.
  intros Ht Hf Hd Hh Hs.
  rewrite (parse_current_weather_present rt data _ _ _ _ Ht Hd Hh Hs).
  rewrite (format_1f_as_float temp f Hf); reflexivity.
Qed.

Lemma format_1f_raises (v : pyval) (e : exn) :
  format_1f v = Raise e -> is_lookup_error e = false.
Proof.
  destruct v as [|b|z|f|s|l|d]; simpl; try (intros H; injection H as <-);
    try reflexivity; try discriminate.
  - destruct (int_to_float _) as [f|e'] eqn:E; simpl; [discriminate|].
    intros H; injection H as <-.
    unfold int_to_float in E; destruct (float_of_Z _); try discriminate;
      injection E as <-; reflexivity.
  - destruct (int_to_float _) as [f|e'] eqn:E; simpl; [discriminate|].
    intros H; injection H as <-.
    unfold int_to_float in E; destruct (float_of_Z _); try discriminate;
      injection E as <-; reflexivity.
Qed.

Lemma py_title_raises (db : unicode_db) (v : pyval) (e : exn) :
  py_title db v = Raise e -> is_lookup_error e = false.
Proof.
  destruct v; simpl; try discriminate; intros H; injection H as <-;
    reflexivity.
Qed.

Lemma getitem_raises (v : pyval) (k : pystr) (e : exn) :
  getitem v k = Raise e ->
  lookup v [Key k] = None /\ (is_dict v = true -> is_lookup_error e = true).
Proof.
  unfold getitem; destruct v; simpl; try (intros _; split; [reflexivity|discriminate]).
  destruct (dict_get d k); [discriminate|].
  intros H; injection H as <-; split; reflexivity.
Qed.

Lemma getitem0_raises (v : pyval) (e : exn) :
  getitem0 v = Raise e ->
  lookup v [Index0] = None /\ (is_list v = true -> is_lookup_error e = true).
Proof.
  destruct v as [| | | |[|c s]|[|x l]|]; simpl;
    try (intros _; split; [reflexivity|discriminate]);
    try discriminate.
  intros H; injection H as <-; split; reflexivity.
Qed.

Lemma lookup_cons_key (v y : pyval) (k : pystr) (p : list step) :
  getitem v k = Ok y -> lookup v (Key k :: p) = lookup y p.
Proof.
  unfold getitem; destruct v; try discriminate; simpl.
  destruct (dict_get d k); [|discriminate].
  intros H; injection H as ->; reflexivity.
Qed.

Lemma lookup_key_none (v : pyval) (k : pystr) (p : list step) :
  lookup v [Key k] = None -> lookup v (Key k :: p) = None.
Proof.
  simpl; destruct v; try reflexivity.
  destruct (dict_get d k); [discriminate|reflexivity].
Qed.

(** A success of the parser shows the four paths. *)
Lemma parse_current_weather_ok_present (rt : runtime) (data : pyval)
    (r : current_weather) :
  parse_current_weather rt data = Ok r ->
  forall p, In p required_paths -> lookup data p <> None.
Proof.
  unfold parse_current_weather; intros H.
  destruct (getitem data (lit "main")) as [main|] eqn:Em;
    cbn [bind] in H; [|discriminate].
  destruct (getitem main (lit "temp")) as [temp|] eqn:Et;
    cbn [bind] in H; [|discriminate].
  destruct (format_1f temp) as [ts|]; cbn [bind] in H; [|discriminate].
  destruct (getitem data (lit "weather")) as [weather|] eqn:Ew;
    cbn [bind] in H; [|discriminate].
  destruct (getitem0 weather) as [first|] eqn:Ef;
    cbn [bind] in H; [|discriminate].
  destruct (getitem first (lit "description")) as [desc|] eqn:Ed;
    cbn [bind] in H; [|discriminate].
  destruct (py_title (unicode rt) desc) as [c|];
    cbn [bind] in H; [|discriminate].
  destruct (getitem main (lit "humidity")) as [hum|] eqn:Eh;
    cbn [bind] in H; [|discriminate].
  destruct (getitem data (lit "wind")) as [wind|] eqn:Ewi;
    cbn [bind] in H; [|discriminate].
  destruct (getitem wind (lit "speed")) as [speed|] eqn:Es;
    cbn [bind] in H; [|discriminate].
  assert (Hfirst : lookup weather [Index0; Key (lit "description")]
                   = Some desc).
  { destruct weather as [| | | |[|c0 s0]|[|x l]|]; try discriminate.
    - injection Ef as <-; discriminate.
    - injection Ef as <-; exact (getitem_lookup _ _ _ Ed). }
  intros p [<-|[<-|[<-|[<-|[]]]]]; unfold path_temp, path_description,
    path_humidity, path_speed.
  - rewrite (lookup_cons_key _ _ _ _ Em), (lookup_cons_key _ _ _ _ Et).
    discriminate.
  - rewrite (lookup_cons_key _ _ _ _ Ew), Hfirst; discriminate.
  - rewrite (lookup_cons_key _ _ _ _ Em), (lookup_cons_key _ _ _ _ Eh).
    discriminate.
  - rewrite (lookup_cons_key _ _ _ _ Ewi), (lookup_cons_key _ _ _ _ Es).
    discriminate.
Qed.

Lemma typed_at_some (data : pyval) (p : list step) (ok : pyval -> bool)
    (v : pyval) :
  typed_at data p ok = true -> lookup data p = Some v -> ok v = true.
Proof. unfold typed_at; intros H E; rewrite E in H; exact H. Qed.

Lemma getitem0_list (v y : pyval) (p : list step) :
  is_list v = true -> getitem0 v = Ok y -> lookup v (Index0 :: p) = lookup y p.
Proof.
  destruct v as [| | | | |[|x l]|]; try discriminate.
  intros _ H; injection H as ->; reflexivity.
Qed.

(** On a document typed as the API types it, the parser fails with a
    lookup error or not at all. *)
Lemma parse_current_weather_typed (rt : runtime) (data : pyval) (e : exn) :
  schema_typed data = true ->
  parse_current_weather rt data = Raise e -> is_lookup_error e = true.
Proof.
  unfold schema_typed; rewrite !andb_true_iff.
  intros ((((((Tdata & Tmain) & Ttemp) & Tweather) & Tfirst) & Tdesc) & Twind).
  assert (Hdata : is_dict data = true) by exact (typed_at_some _ _ _ _ Tdata eq_refl).
  unfold parse_current_weather.
  destruct (getitem data (lit "main")) as [main|e1] eqn:Em; cbn [bind].
  2:{ intros H; injection H as <-; exact (proj2 (getitem_raises _ _ _ Em) Hdata). }
  assert (Hmain : is_dict main = true)
    by exact (typed_at_some _ _ _ _ Tmain (getitem_lookup _ _ _ Em)).
  destruct (getitem main (lit "temp")) as [temp|e1] eqn:Et; cbn [bind].
  2:{ intros H; injection H as <-; exact (proj2 (getitem_raises _ _ _ Et) Hmain). }
  assert (Htemp : formattable temp = true).
  { apply (typed_at_some _ _ _ _ Ttemp); unfold path_temp.
    rewrite (lookup_cons_key _ _ _ _ Em); exact (getitem_lookup _ _ _ Et). }
  unfold formattable in Htemp.
  destruct (format_1f temp) as [ts|]; [|discriminate]; cbn [bind].
  destruct (getitem data (lit "weather")) as [weather|e1] eqn:Ew; cbn [bind].
  2:{ intros H; injection H as <-; exact (proj2 (getitem_raises _ _ _ Ew) Hdata). }
  assert (Hweather : is_list weather = true)
    by exact (typed_at_some _ _ _ _ Tweather (getitem_lookup _ _ _ Ew)).
  destruct (getitem0 weather) as [first|e1] eqn:Ef; cbn [bind].
  2:{ intros H; injection H as <-;
      exact (proj2 (getitem0_raises _ _ Ef) Hweather). }
  assert (Hfirst : is_dict first = true).
  { apply (typed_at_some _ _ _ _ Tfirst).
    rewrite (lookup_cons_key _ _ _ _ Ew).
    rewrite (getitem0_list _ _ [] Hweather Ef); reflexivity. }
  destruct (getitem first (lit "description")) as [desc|e1] eqn:Ed;
    cbn [bind].
  2:{ intros H; injection H as <-; exact (proj2 (getitem_raises _ _ _ Ed) Hfirst). }
  assert (Hdesc : is_str desc = true).
  { apply (typed_at_some _ _ _ _ Tdesc); unfold path_description.
    rewrite (lookup_cons_key _ _ _ _ Ew).
    rewrite (getitem0_list _ _ _ Hweather Ef).
    exact (getitem_lookup _ _ _ Ed). }
  destruct desc; try discriminate; cbn [py_title bind].
  destruct (getitem main (lit "humidity")) as [hum|e1] eqn:Eh; cbn [bind].
  2:{ intros H; injection H as <-; exact (proj2 (getitem_raises _ _ _ Eh) Hmain). }
  destruct (getitem data (lit "wind")) as [wind|e1] eqn:Ewi; cbn [bind].
  2:{ intros H; injection H as <-; exact (proj2 (getitem_raises _ _ _ Ewi) Hdata). }
  assert (Hwind : is_dict wind = true)
    by exact (typed_at_some _ _ _ _ Twind (getitem_lookup _ _ _ Ewi)).
  destruct (getitem wind (lit "speed")) as [speed|e1] eqn:Es; cbn [bind].
  2:{ intros H; injection H as <-; exact (proj2 (getitem_raises _ _ _ Es) Hwind). }
  discriminate.
Qed.

(** With the four paths present, a failure is not a lookup error. *)
Lemma parse_current_weather_present_raises (rt : runtime) (data : pyval)
    (e : exn) :
  (forall p, In p required_paths -> lookup data p <> None) ->
  parse_current_weather rt data = Raise e -> is_lookup_error e = false.
Proof.
  intros Hp.
  destruct (lookup data path_temp) as [temp|] eqn:Et;
    [|exfalso; apply (Hp path_temp); simpl; tauto].
  destruct (lookup data path_description) as [desc|] eqn:Ed;
    [|exfalso; apply (Hp path_description); simpl; tauto].
  destruct (lookup data path_humidity) as [hum|] eqn:Eh;
    [|exfalso; apply (Hp path_humidity); simpl; tauto].
  destruct (lookup data path_speed) as [speed|] eqn:Es;
    [|exfalso; apply (Hp path_speed); simpl; tauto].
  rewrite (parse_current_weather_present rt data _ _ _ _ Et Ed Eh Es).
  destruct (format_1f temp) as [ts|e1] eqn:Ef; cbn [bind].
  2:{ intros H; injection H as <-; exact (format_1f_raises _ _ Ef). }
  destruct (py_title (unicode rt) desc) as [c|e1] eqn:Ec; cbn [bind].
  2:{ intros H; injection H as <-; exact (py_title_raises _ _ _ Ec). }
  discriminate.
Qed.

Lemma some_path_absent (data : pyval) :
  {exists p, In p required_paths /\ lookup data p = None} +
  {forall p, In p required_paths -> lookup data p <> None}.
Proof.
  destruct (lookup data path_temp) as [v0|] eqn:Et;
    [|left; exists path_temp; simpl; tauto].
  destruct (lookup data path_description) as [v1|] eqn:Ed;
    [|left; exists path_description; simpl; tauto].
  destruct (lookup data path_humidity) as [v2|] eqn:Eh;
    [|left; exists path_humidity; simpl; tauto].
  destruct (lookup data path_speed) as [v3|] eqn:Es;
    [|left; exists path_speed; simpl; tauto].
  right; intros p [<-|[<-|[<-|[<-|[]]]]]; congruence.
Qed.

(** A lookup error of a parser reaches [search_weather]'s last handler:
    the status shows the generic message, both frames are cleared. *)
Lemma search_weather_reports_parsing (rt : runtime) (cfg : config)
    (net : network) (city : pystr) (g : gui) (log log1 : list request)
    (data : pyval) (e : exn) :
  fst (validate_input rt (Some city)) = true ->
  truthy (API_KEY cfg) = true ->
  fetch_current_weather rt cfg net city log = (log1, Ok data) ->
  parse_current_weather rt data = Raise e ->
  is_lookup_error e = true ->
  search_weather rt cfg net city g log = (log1, report g msg_parsing, None).
Proof.
  intros Hvalid Hkey Hfetch Hparse He.
  unfold search_weather.
  destruct (validate_input rt (Some city)) as [valid msg].
  simpl in Hvalid; subst valid; cbn [negb].
  rewrite Hkey; cbn [negb].
  unfold try_block; rewrite Hfetch, Hparse.
  unfold handle; rewrite He.
  destruct e; try discriminate; reflexivity.
Qed.

(** C6 as stated does not hold: on [untyped_document] a required path is
    absent, yet the parser raises the [ValueError] of the format, which
    is evaluated first. *)
Lemma parse_current_weather_absent_not_lookup :
  ~ (forall (rt : runtime) (data : pyval),
       (exists e, parse_current_weather rt data = Raise e /\
                  is_lookup_error e = true) <->
       (exists p, In p required_paths /\ lookup data p = None)).
Proof.
  intros H.
  destruct (proj2 (H example_runtime untyped_document)) as (e & He & Hl).
  - exists path_description; split; [simpl; tauto|reflexivity].
  - vm_compute in He; injection He as <-; discriminate.
Qed.

(** C6, amended.  A lookup error ([KeyError], [IndexError]) of
    [parse_current_weather] always shows that a required path is absent.
    An absent path always makes the parser fail, and with a lookup
    error when what the document does hold has the types of the API.
    The parser does not catch the error: [search_weather] reports it with
    the generic parsing message, which is the same for every field. *)
Theorem parse_current_weather_missing_field (rt : runtime) (data : pyval) :
  (forall e, parse_current_weather rt data = Raise e ->
             is_lookup_error e = true ->
             exists p, In p required_paths /\ lookup data p = None) /\
  ((exists p, In p required_paths /\ lookup data p = None) ->
   exists e, parse_current_weather rt data = Raise e /\
             (schema_typed data = true -> is_lookup_error e = true)) /\
  (forall e cfg net city g log log1,
     parse_current_weather rt data = Raise e ->
     is_lookup_error e = true ->
     fst (validate_input rt (Some city)) = true ->
     truthy (API_KEY cfg) = true ->
     fetch_current_weather rt cfg net city log = (log1, Ok data) ->
     search_weather rt cfg net city g log
       = (log1, report g msg_parsing, None)).
Proof.
  split; [|split].
  - intros e He Hl.
    destruct (some_path_absent data) as [Habs|Hpres]; [exact Habs|].
    rewrite (parse_current_weather_present_raises rt data e Hpres He) in Hl.
    discriminate.
  - intros (p & Hp & Hnone).
    destruct (parse_current_weather rt data) as [r|e] eqn:E.
    + exfalso.
      exact (parse_current_weather_ok_present rt data r E p Hp Hnone).
    + exists e; split; [reflexivity|].
      intros Ht; exact (parse_current_weather_typed rt data e Ht E).
  - intros e cfg net city g log log1 He Hl Hv Hk Hf.
    exact (search_weather_reports_parsing rt cfg net city g log log1 data e
             Hv Hk Hf He Hl).
Qed.

(* ------------------------------------------------------------------ *)
(** ** The order of the numbers *)

Lemma mul_compare_pos (a b p : Z) :
  0 < p -> (a * p ?= b * p) = (a ?= b).
Proof.
  intros Hp; destruct (Z.compare_spec a b) as [->|H|H].
  - apply Z.compare_refl.
  - apply Z.compare_lt_iff; nia.
  - apply Z.compare_gt_iff; nia.
Qed.

Lemma dy_compare_scale (m1 e1 m2 e2 E : Z) :
  E <= e1 -> E <= e2 ->
  dy_compare m1 e1 m2 e2 = (m1 * 2 ^ (e1 - E) ?= m2 * 2 ^ (e2 - E)).
Proof.
  intros H1 H2; unfold dy_compare.
  set (e := Z.min e1 e2).
  assert (He : E <= e) by (unfold e; lia).
  assert (He1 : e <= e1) by (unfold e; lia).
  assert (He2 : e <= e2) by (unfold e; lia).
  replace (e1 - E) with ((e1 - e) + (e - E)) by lia.
  replace (e2 - E) with ((e2 - e) + (e - E)) by lia.
  rewrite !Z.pow_add_r, !Z.mul_assoc by lia.
  symmetry; apply mul_compare_pos.
  apply Z.pow_pos_nonneg; lia.
Qed.

Lemma xnum_leb_refl (x : xnum) : not_nan x -> xnum_leb x x = true.
Proof.
  destruct x; unfold not_nan, xnum_leb; simpl; try congruence.
  intros _; unfold dy_compare; rewrite Z.compare_refl; reflexivity.
Qed.

Lemma xnum_ltb_not_nan (x y : xnum) :
  xnum_ltb x y = true -> not_nan x /\ not_nan y.
Proof.
  destruct x, y; unfold xnum_ltb, not_nan; simpl; try discriminate;
    split; congruence.
Qed.

Lemma xnum_ltb_leb (x y : xnum) : xnum_ltb x y = true -> xnum_leb x y = true.
Proof.
  unfold xnum_ltb, xnum_leb; destruct (xnum_compare x y) as [[]|];
    congruence.
Qed.

Lemma xnum_total (x y : xnum) :
  not_nan x -> not_nan y -> xnum_ltb x y = false -> xnum_leb y x = true.
Proof.
  destruct x as [| |m1 e1|], y as [| |m2 e2|]; unfold not_nan, xnum_ltb,
    xnum_leb; simpl; try congruence.
  intros _ _.
  rewrite (dy_compare_scale m1 e1 m2 e2 (Z.min e1 e2)) by lia.
  rewrite (dy_compare_scale m2 e2 m1 e1 (Z.min e1 e2)) by lia.
  rewrite (Z.compare_antisym (m1 * _) (m2 * _)).
  destruct (m1 * _ ?= m2 * _); simpl; congruence.
Qed.

Lemma xnum_leb_trans (x y z : xnum) :
  xnum_leb x y = true -> xnum_leb y z = true -> xnum_leb x z = true.
Proof.
  destruct x as [| |m1 e1|], y as [| |m2 e2|], z as [| |m3 e3|];
    unfold xnum_leb; simpl; try congruence.
  set (E := Z.min e1 (Z.min e2 e3)).
  rewrite (dy_compare_scale m1 e1 m2 e2 E) by (unfold E; lia).
  rewrite (dy_compare_scale m2 e2 m3 e3 E) by (unfold E; lia).
  rewrite (dy_compare_scale m1 e1 m3 e3 E) by (unfold E; lia).
  intros H12 H23.
  assert (L12 : m1 * 2 ^ (e1 - E) <= m2 * 2 ^ (e2 - E)).
  { apply Z.compare_le_iff; intros G; rewrite G in H12; discriminate. }
  assert (L23 : m2 * 2 ^ (e2 - E) <= m3 * 2 ^ (e3 - E)).
  { apply Z.compare_le_iff; intros G; rewrite G in H23; discriminate. }
  assert (L13 : m1 * 2 ^ (e1 - E) <= m3 * 2 ^ (e3 - E)) by lia.
  apply Z.compare_le_iff in L13.
  destruct (m1 * 2 ^ (e1 - E) ?= m3 * 2 ^ (e3 - E)); congruence.
Qed.

Lemma num_leb_refl (a : pyval) : ordered_number a -> num_leb a a = true.
Proof.
  intros (x & Hx & Hn); unfold num_leb; rewrite Hx.
  apply xnum_leb_refl, Hn.
Qed.

Lemma num_leb_trans (a b c : pyval) :
  num_leb a b = true -> num_leb b c = true -> num_leb a c = true.
Proof.
  unfold num_leb.
  destruct (number a), (number b), (number c); try discriminate.
  apply xnum_leb_trans.
Qed.

Lemma num_leb_ordered (a b : pyval) :
  num_leb a b = true -> ordered_number a /\ ordered_number b.
Proof.
  unfold num_leb, ordered_number.
  destruct (number a) as [x|], (number b) as [y|]; try discriminate.
  intros H; split; eexists; (split; [reflexivity|]);
    destruct x, y; unfold not_nan; try discriminate; congruence.
Qed.

(* ------------------------------------------------------------------ *)
(** ** [max] and [min] *)

Lemma py_lt_number_l (a b : pyval) (x : xnum) (g : bool) :
  number a = Some x -> py_lt a b = Ok g ->
  exists y, number b = Some y /\ g = xnum_ltb x y.
Proof.
  unfold py_lt; intros Ha; rewrite Ha.
  destruct (number b) as [y|] eqn:Hb.
  - intros H; injection H as <-; exists y; split; reflexivity.
  - intros H; destruct a; simpl in Ha; try discriminate Ha; discriminate H.
Qed.

Lemma py_lt_number_r (a b : pyval) (y : xnum) (g : bool) :
  number b = Some y -> py_lt a b = Ok g ->
  exists x, number a = Some x /\ g = xnum_ltb x y.
Proof.
  unfold py_lt; intros Hb; rewrite Hb.
  destruct (number a) as [x|] eqn:Ha.
  - intros H; injection H as <-; exists x; split; reflexivity.
  - intros H; destruct a; try discriminate H;
      destruct b; simpl in Hb; try discriminate Hb; discriminate H.
Qed.

Lemma py_lt_numbers (a b : pyval) (x y : xnum) :
  number a = Some x -> number b = Some y -> py_lt a b = Ok (xnum_ltb x y).
Proof. unfold py_lt; intros -> ->; reflexivity. Qed.

Lemma max_from_in (l : list pyval) (cur hi : pyval) :
  max_from cur l = Ok hi -> In hi (cur :: l).
Proof.
  revert cur; induction l as [|x l IH]; intros cur; simpl.
  - intros H; injection H as ->; left; reflexivity.
  - destruct (py_gt x cur) as [g|]; cbn [bind]; [|discriminate].
    intros H; apply IH in H; destruct g; simpl in H; tauto.
Qed.

Lemma min_from_in (l : list pyval) (cur lo : pyval) :
  min_from cur l = Ok lo -> In lo (cur :: l).
Proof.
  revert cur; induction l as [|x l IH]; intros cur; simpl.
  - intros H; injection H as ->; left; reflexivity.
  - destruct (py_lt x cur) as [g|]; cbn [bind]; [|discriminate].
    intros H; apply IH in H; destruct g; simpl in H; tauto.
Qed.

(** A scan that starts from a value that is not a number does not end
    on a number. *)
Lemma max_from_not_number (l : list pyval) (cur hi : pyval) :
  number cur = None -> max_from cur l = Ok hi -> number hi = None.
Proof.
  revert cur; induction l as [|x l IH]; intros cur Hc; simpl.
  - intros H; injection H as <-; exact Hc.
  - destruct (py_gt x cur) as [g|] eqn:E; cbn [bind]; [|discriminate].
    apply IH; destruct g; [|exact Hc].
    destruct (number x) as [y|] eqn:Hx; [|reflexivity].
    unfold py_gt in E.
    destruct (py_lt_number_r cur x y true Hx E) as (c & Hcur & _); congruence.
Qed.

Lemma min_from_not_number (l : list pyval) (cur lo : pyval) :
  number cur = None -> min_from cur l = Ok lo -> number lo = None.
Proof.
  revert cur; induction l as [|x l IH]; intros cur Hc; simpl.
  - intros H; injection H as <-; exact Hc.
  - destruct (py_lt x cur) as [g|] eqn:E; cbn [bind]; [|discriminate].
    apply IH; destruct g; [|exact Hc].
    destruct (number x) as [y|] eqn:Hx; [|reflexivity].
    destruct (py_lt_number_l x cur y true Hx E) as (c & Hcur & _); congruence.
Qed.

(** The maximum is at least the first item, when that is a number other
    than a NaN. *)
Lemma max_from_ge_first (l : list pyval) (cur hi : pyval) :
  ordered_number cur -> max_from cur l = Ok hi -> num_leb cur hi = true.
Proof.
  revert cur; induction l as [|x l IH]; intros cur Hc; simpl.
  - intros H; injection H as <-; apply num_leb_refl, Hc.
  - destruct (py_gt x cur) as [g|] eqn:E; cbn [bind]; [|discriminate].
    destruct Hc as (c & Hcur & Hn).
    unfold py_gt in E.
    destruct (py_lt_number_l cur x c g Hcur E) as (y & Hx & Hg).
    destruct g; intros H.
    + symmetry in Hg.
      apply num_leb_trans with (b := x).
      * unfold num_leb; rewrite Hcur, Hx; apply xnum_ltb_leb, Hg.
      * apply IH; [|exact H].
        exists y; split; [exact Hx|apply (xnum_ltb_not_nan c y Hg)].
    + apply IH; [|exact H]. exists c; split; assumption.
Qed.

Lemma min_from_le_first (l : list pyval) (cur lo : pyval) :
  ordered_number cur -> min_from cur l = Ok lo -> num_leb lo cur = true.
Proof.
  revert cur; induction l as [|x l IH]; intros cur Hc; simpl.
  - intros H; injection H as <-; apply num_leb_refl, Hc.
  - destruct (py_lt x cur) as [g|] eqn:E; cbn [bind]; [|discriminate].
    destruct Hc as (c & Hcur & Hn).
    destruct (py_lt_number_r x cur c g Hcur E) as (y & Hx & Hg).
    destruct g; intros H.
    + symmetry in Hg.
      apply num_leb_trans with (b := x).
      * apply IH; [|exact H].
        exists y; split; [exact Hx|apply (xnum_ltb_not_nan y c Hg)].
      * unfold num_leb; rewrite Hcur, Hx; apply xnum_ltb_leb, Hg.
    + apply IH; [|exact H]. exists c; split; assumption.
Qed.

(** On numbers other than NaN the scans succeed and return a bound of
    every item. *)
Lemma max_from_greatest (l : list pyval) (cur : pyval) :
  Forall ordered_number (cur :: l) ->
  exists hi, max_from cur l = Ok hi /\
             forall t, In t (cur :: l) -> num_leb t hi = true.
Proof.
  revert cur; induction l as [|x l IH]; intros cur Hall; simpl.
  - exists cur; split; [reflexivity|].
    intros t [<-|[]]; apply num_leb_refl; inversion Hall; assumption.
  - inversion Hall as [|? ? Hc Hrest]; subst.
    inversion Hrest as [|? ? Hx Hl]; subst.
    destruct Hc as (c & Hcur & Hcn); destruct Hx as (y & Hx & Hyn).
    unfold py_gt; rewrite (py_lt_numbers cur x c y Hcur Hx); cbn [bind].
    destruct (xnum_ltb c y) eqn:Hg.
    + destruct (IH x) as (hi & Hhi & Hb).
      { constructor; [exists y; split; assumption|exact Hl]. }
      exists hi; split; [exact Hhi|].
      intros t [<-|Ht]; [|apply Hb, Ht].
      apply num_leb_trans with (b := x); [|apply Hb; left; reflexivity].
      unfold num_leb; rewrite Hcur, Hx; apply xnum_ltb_leb, Hg.
    + destruct (IH cur) as (hi & Hhi & Hb).
      { constructor; [exists c; split; assumption|exact Hl]. }
      exists hi; split; [exact Hhi|].
      intros t [<-|[<-|Ht]]; [apply Hb; left; reflexivity| |apply Hb; right; exact Ht].
      apply num_leb_trans with (b := cur); [|apply Hb; left; reflexivity].
      unfold num_leb; rewrite Hcur, Hx; apply xnum_total; assumption.
Qed.

Lemma min_from_least (l : list pyval) (cur : pyval) :
  Forall ordered_number (cur :: l) ->
  exists lo, min_from cur l = Ok lo /\
             forall t, In t (cur :: l) -> num_leb lo t = true.
Proof.
  revert cur; induction l as [|x l IH]; intros cur Hall; simpl.
  - exists cur; split; [reflexivity|].
    intros t [<-|[]]; apply num_leb_refl; inversion Hall; assumption.
  - inversion Hall as [|? ? Hc Hrest]; subst.
    inversion Hrest as [|? ? Hx Hl]; subst.
    destruct Hc as (c & Hcur & Hcn); destruct Hx as (y & Hx & Hyn).
    rewrite (py_lt_numbers x cur y c Hx Hcur); cbn [bind].
    destruct (xnum_ltb y c) eqn:Hg.
    + destruct (IH x) as (lo & Hlo & Hb).
      { constructor; [exists y; split; assumption|exact Hl]. }
      exists lo; split; [exact Hlo|].
      intros t [<-|Ht]; [|apply Hb, Ht].
      apply num_leb_trans with (b := x); [apply Hb; left; reflexivity|].
      unfold num_leb; rewrite Hcur, Hx; apply xnum_ltb_leb, Hg.
    + destruct (IH cur) as (lo & Hlo & Hb).
      { constructor; [exists c; split; assumption|exact Hl]. }
      exists lo; split; [exact Hlo|].
      intros t [<-|[<-|Ht]]; [apply Hb; left; reflexivity| |apply Hb; right; exact Ht].
      apply num_leb_trans with (b := cur); [apply Hb; left; reflexivity|].
      unfold num_leb; rewrite Hcur, Hx; apply xnum_total; assumption.
Qed.

(* ------------------------------------------------------------------ *)
(** ** The most frequent condition *)

Lemma py_eqb_str (a b : pystr) : py_eqb (PStr a) (PStr b) = str_eqb a b.
Proof. reflexivity. Qed.

(** [count] on strings is the number of occurrences. *)
Lemma count_strings (cs : list pystr) (c : pystr) :
  count (map PStr cs) (PStr c) = count_occ str_eq_dec cs c.
Proof.
  unfold count; induction cs as [|y cs IH]; simpl; [reflexivity|].
  rewrite py_eqb_str.
  destruct (str_eq_dec y c) as [->|Hn].
  - rewrite str_eqb_refl; simpl; rewrite IH; reflexivity.
  - rewrite (proj2 (str_eqb_neq y c) Hn); exact IH.
Qed.

Lemma max_key_from_spec (key : pyval -> nat) (l : list pyval) (cur : pyval) :
  In (max_key_from key cur l) (cur :: l) /\
  forall x, In x (cur :: l) -> (key x <= key (max_key_from key cur l))%nat.
Proof.
  revert cur; induction l as [|y l IH]; intros cur; simpl.
  - split; [left; reflexivity|]. intros x [<-|[]]; lia.
  - destruct (IH (if (key cur <? key y)%nat then y else cur)) as [Hin Hle].
    split.
    + destruct (key cur <? key y)%nat; simpl in Hin; tauto.
    + intros x Hx.
      destruct (Nat.ltb_spec (key cur) (key y)) as [Hlt|Hge].
      * destruct Hx as [<-|Hx]; [|apply Hle; exact Hx].
        specialize (Hle y (or_introl eq_refl)); lia.
      * destruct Hx as [<-|[<-|Hx]].
        -- apply Hle; left; reflexivity.
        -- specialize (Hle cur (or_introl eq_refl)); lia.
        -- apply Hle; right; exact Hx.
Qed.

Lemma hashable_strings (cs : list pystr) :
  forallb hashable (map PStr cs) = true.
Proof. induction cs; simpl; auto. Qed.

(** Among strings, [most_common] returns one of them that occurs at
    least as often as every other. *)
Lemma most_common_strings (rt : runtime) (cs : list pystr) :
  set_iter_ok rt -> cs <> [] ->
  exists c, most_common rt (map PStr cs) = Ok (PStr c) /\
            In c cs /\
            forall c', In c' cs ->
              (count_occ str_eq_dec cs c' <= count_occ str_eq_dec cs c)%nat.
Proof.
  intros Hset Hne.
  destruct (Hset cs) as [_ Hmem].
  unfold most_common; rewrite hashable_strings; cbn [negb].
  destruct (set_iter rt (map PStr cs)) as [|x l] eqn:E.
  - exfalso; destruct cs as [|c0 cs]; [congruence|].
    apply (proj2 (Hmem (PStr c0))); left; reflexivity.
  - destruct (max_key_from_spec (count (map PStr cs)) l x) as [Hin Hle].
    apply (proj1 (Hmem _)) in Hin.
    apply in_map_iff in Hin as (c & Hc & Hcin).
    exists c; rewrite <- Hc; split; [reflexivity|]; split; [exact Hcin|].
    intros c' Hc'.
    rewrite <- !count_strings, Hc.
    apply Hle, (proj2 (Hmem (PStr c'))), in_map, Hc'.
Qed.

(* ------------------------------------------------------------------ *)
(** ** The order of the strings and [sorted] *)

Lemma str_compare_eq (a b : pystr) : str_compare a b = Eq <-> a = b.
Proof.
  revert b; induction a as [|x a IH]; intros [|y b]; simpl;
    try (split; congruence).
  destruct (N.compare_spec x y) as [->|H|H].
  - rewrite IH; split; congruence.
  - split; [discriminate|]. intros E; injection E as -> _.
    exfalso; exact (N.lt_irrefl _ H).
  - split; [discriminate|]. intros E; injection E as -> _.
    exfalso; exact (N.lt_irrefl _ H).
Qed.

Lemma str_compare_antisym (a b : pystr) :
  str_compare b a = CompOpp (str_compare a b).
Proof.
  revert b; induction a as [|x a IH]; intros [|y b]; simpl; try reflexivity.
  rewrite (N.compare_antisym x y).
  destruct (x ?= y)%N; simpl; [apply IH|reflexivity|reflexivity].
Qed.

Lemma str_lt_trans (a b c : pystr) :
  str_lt a b -> str_lt b c -> str_lt a c.
Proof.
  unfold str_lt; revert b c; induction a as [|x a IH]; intros [|y b] [|z c];
    simpl; try congruence.
  destruct (N.compare_spec x y) as [->|Hxy|Hxy]; try discriminate.
  - destruct (N.compare_spec y z) as [->|Hyz|Hyz]; try discriminate.
    + apply IH.
    + reflexivity.
  - intros _.
    destruct (N.compare_spec y z) as [->|Hyz|Hyz]; try discriminate;
      intros _; apply N.compare_lt_iff in Hxy.
    + rewrite (proj2 (N.compare_lt_iff x z) Hxy); reflexivity.
    + rewrite (proj2 (N.compare_lt_iff x z) (N.lt_trans _ _ _ Hxy Hyz)).
      reflexivity.
Qed.

Lemma str_leb_total (a b : pystr) : str_leb a b = false -> str_leb b a = true.
Proof.
  unfold str_leb; rewrite (str_compare_antisym a b).
  destruct (str_compare a b); simpl; congruence.
Qed.

Lemma str_leb_lt (a b : pystr) : str_leb a b = true -> a <> b -> str_lt a b.
Proof.
  unfold str_leb, str_lt; intros H Hn.
  destruct (str_compare a b) eqn:E; try congruence.
  apply str_compare_eq in E; contradiction.
Qed.

Lemma insert_sorted_perm (k : pystr) (l : list pystr) :
  Permutation (insert_sorted k l) (k :: l).
Proof.
  induction l as [|x l IH]; simpl; [apply Permutation_refl|].
  destruct (str_leb k x); [apply Permutation_refl|].
  apply Permutation_trans with (x :: k :: l);
    [apply perm_skip, IH|apply perm_swap].
Qed.

Lemma sorted_perm (l : list pystr) : Permutation (sorted l) l.
Proof.
  induction l as [|k l IH]; simpl; [apply Permutation_refl|].
  apply Permutation_trans with (k :: sorted l);
    [apply insert_sorted_perm|apply perm_skip, IH].
Qed.

Lemma insert_sorted_sorted (k : pystr) (l : list pystr) :
  Sorted str_le l -> Sorted str_le (insert_sorted k l).
Proof.
  induction l as [|x l IH]; simpl; intros Hs.
  - constructor; constructor.
  - destruct (str_leb k x) eqn:E.
    + constructor; [exact Hs|constructor; exact E].
    + inversion Hs as [|? ? Hl Hhd]; subst.
      constructor; [apply IH, Hl|].
      destruct l as [|y l]; simpl.
      * constructor; apply str_leb_total, E.
      * destruct (str_leb k y); constructor;
          [apply str_leb_total, E|inversion Hhd; assumption].
Qed.

Lemma sorted_sorted (l : list pystr) : Sorted str_le (sorted l).
Proof.
  induction l as [|k l IH]; simpl; [constructor|].
  apply insert_sorted_sorted, IH.
Qed.

(** Distinct keys come out in strictly ascending order. *)
Lemma sorted_ascending (l : list pystr) :
  NoDup l -> StronglySorted str_lt (sorted l).
Proof.
  intros Hnd.
  assert (Hnd' : NoDup (sorted l)).
  { apply (Permutation_NoDup (Permutation_sym (sorted_perm l))), Hnd. }
  assert (Hs := sorted_sorted l).
  apply Sorted_StronglySorted; [intros a b c; apply str_lt_trans|].
  induction Hs as [|x s Hs IH Hhd]; constructor.
  - apply IH; inversion Hnd'; assumption.
  - destruct Hhd as [|y s Hxy]; constructor.
    apply str_leb_lt; [exact Hxy|].
    intros ->; inversion Hnd' as [|? ? Hnin _]; apply Hnin; left; reflexivity.
Qed.

(* ------------------------------------------------------------------ *)
(** ** Grouping the intervals by date *)

Lemma add_item_sample (daily : daily_t) (item : pyval) :
  add_item daily item = (s <- item_sample item ;; Ok (add_sample daily s))%py.
Proof.
  unfold add_item, item_sample, add_sample.
  destruct (getitem item (lit "dt_txt")) as [dt|]; cbn [bind]; [|reflexivity].
  destruct (py_split0 dt) as [d|]; cbn [bind]; [|reflexivity].
  destruct (getitem item (lit "main")) as [m|]; cbn [bind]; [|reflexivity].
  destruct (getitem m (lit "temp")) as [t|]; cbn [bind]; [|reflexivity].
  destruct (getitem item (lit "weather")) as [w|]; cbn [bind]; [|reflexivity].
  destruct (getitem0 w) as [f|]; cbn [bind]; [|reflexivity].
  destruct (getitem f (lit "description")) as [c|]; cbn [bind]; reflexivity.
Qed.

Lemma add_items_samples (items : list pyval) (daily : daily_t) :
  add_items daily items =
    (ss <- samples_of items ;; Ok (fold_left add_sample ss daily))%py.
Proof.
  revert daily; induction items as [|item items IH]; intros daily; simpl;
    [reflexivity|].
  rewrite add_item_sample.
  destruct (item_sample item) as [s|]; cbn [bind]; [|reflexivity].
  rewrite IH.
  destruct (samples_of items) as [ss|]; cbn [bind]; reflexivity.
Qed.

Lemma daily_get_update (daily : daily_t) (k k' : pystr)
    (f : bucket -> bucket) :
  daily_get (daily_update daily k f) k' =
    if str_eqb k k' then Some (f (bucket_of daily k)) else daily_get daily k'.
Proof.
  unfold bucket_of.
  induction daily as [|[k0 b] daily IH]; simpl.
  - destruct (str_eqb k k'); reflexivity.
  - destruct (str_eqb_spec k0 k) as [->|Hk0]; simpl.
    + destruct (str_eqb k k'); reflexivity.
    + rewrite IH.
      destruct (str_eqb_spec k k') as [->|Hk]; [|reflexivity].
      rewrite (proj2 (str_eqb_neq k0 k') Hk0); reflexivity.
Qed.

Lemma bucket_of_update (daily : daily_t) (k k' : pystr)
    (f : bucket -> bucket) :
  bucket_of (daily_update daily k f) k' =
    if str_eqb k k' then f (bucket_of daily k) else bucket_of daily k'.
Proof.
  unfold bucket_of at 1; rewrite daily_get_update.
  destruct (str_eqb k k'); reflexivity.
Qed.

Lemma keys_update (daily : daily_t) (k : pystr) (f : bucket -> bucket) :
  map fst (daily_update daily k f) =
    if existsb (fun x => str_eqb x k) (map fst daily)
    then map fst daily else map fst daily ++ [k].
Proof.
  induction daily as [|[k0 b] daily IH]; simpl; [reflexivity|].
  destruct (str_eqb k0 k); simpl; [reflexivity|].
  rewrite IH; destruct (existsb _ _); reflexivity.
Qed.

Lemma keys_update_in (daily : daily_t) (k k' : pystr)
    (f : bucket -> bucket) :
  In k' (map fst (daily_update daily k f)) <->
  k' = k \/ In k' (map fst daily).
Proof.
  rewrite keys_update.
  destruct (existsb _ _) eqn:E.
  - apply existsb_exists in E as (x & Hx & Hxk).
    apply str_eqb_eq in Hxk; subst x.
    split; [tauto|]. intros [->|H]; assumption.
  - rewrite in_app_iff; simpl; intuition.
Qed.

Lemma keys_update_nodup (daily : daily_t) (k : pystr)
    (f : bucket -> bucket) :
  NoDup (map fst daily) -> NoDup (map fst (daily_update daily k f)).
Proof.
  intros Hnd; rewrite keys_update.
  destruct (existsb _ _) eqn:E; [exact Hnd|].
  apply (Permutation_NoDup (Permutation_cons_append (map fst daily) k)).
  constructor; [|exact Hnd].
  intros Hin.
  assert (existsb (fun x => str_eqb x k) (map fst daily) = true).
  { apply existsb_exists; exists k; split; [exact Hin|apply str_eqb_refl]. }
  congruence.
Qed.

Lemma bucket_of_add_sample (daily : daily_t) (s : sample) (k : pystr) :
  bucket_of (add_sample daily s) k =
    if str_eqb (sample_date s) k
    then {| temps := temps (bucket_of daily k) ++ [sample_temp s];
            conditions := conditions (bucket_of daily k) ++ [sample_cond s] |}
    else bucket_of daily k.
Proof.
  unfold add_sample; rewrite !bucket_of_update.
  destruct (str_eqb_spec (sample_date s) k) as [->|Hn]; [|reflexivity].
  rewrite str_eqb_refl; reflexivity.
Qed.

(** After the first loop, the bucket of a date holds what it held
    before, followed by the samples of that date. *)
Lemma bucket_of_samples (ss : list sample) (daily : daily_t) (k : pystr) :
  bucket_of (fold_left add_sample ss daily) k =
    {| temps := temps (bucket_of daily k) ++ temps_on k ss;
       conditions := conditions (bucket_of daily k) ++ conds_on k ss |}.
Proof.
  revert daily; induction ss as [|s ss IH]; intros daily; simpl.
  - unfold temps_on, conds_on; simpl; rewrite !app_nil_r.
    destruct (bucket_of daily k); reflexivity.
  - rewrite IH, bucket_of_add_sample.
    unfold temps_on, conds_on, on_date; simpl.
    destruct (str_eqb (sample_date s) k); simpl;
      [rewrite <- !app_assoc|]; reflexivity.
Qed.

Lemma keys_samples (ss : list sample) (daily : daily_t) (k : pystr) :
  In k (map fst (fold_left add_sample ss daily)) <->
  In k (map fst daily) \/ In k (map sample_date ss).
Proof.
  revert daily; induction ss as [|s ss IH]; intros daily; simpl; [tauto|].
  rewrite IH; unfold add_sample; rewrite !keys_update_in.
  intuition.
Qed.

Lemma keys_samples_nodup (ss : list sample) (daily : daily_t) :
  NoDup (map fst daily) -> NoDup (map fst (fold_left add_sample ss daily)).
Proof.
  revert daily; induction ss as [|s ss IH]; intros daily Hnd; simpl;
    [exact Hnd|].
  apply IH; unfold add_sample; apply keys_update_nodup, keys_update_nodup, Hnd.
Qed.

(* ------------------------------------------------------------------ *)
(** ** The forecast parser *)

Lemma parse_forecast_samples (rt : runtime) (data : pyval) :
  parse_forecast rt data =
    (ss <- forecast_samples data ;;
     make_entries rt (fold_left add_sample ss []) (day_keys ss))%py.
Proof.
  unfold parse_forecast, forecast_samples, day_keys.
  destruct (getitem data (lit "list")) as [raw|]; cbn [bind]; [|reflexivity].
  destruct (py_iter raw) as [items|]; cbn [bind]; [|reflexivity].
  rewrite add_items_samples.
  destruct (samples_of items) as [ss|]; cbn [bind]; reflexivity.
Qed.

(** The keys are the dates of the samples, each once, ascending. *)
Lemma day_keys_spec (ss : list sample) :
  StronglySorted str_lt (day_keys ss) /\
  forall k, In k (day_keys ss) <-> In k (map sample_date ss).
Proof.
  unfold day_keys; split.
  - apply sorted_ascending, keys_samples_nodup; constructor.
  - intros k; split; intros H.
    + apply (Permutation_in _ (sorted_perm _)) in H.
      apply keys_samples in H as [[]|H]; exact H.
    + apply (Permutation_in _ (Permutation_sym (sorted_perm _))).
      apply keys_samples; right; exact H.
Qed.

Lemma make_entries_ok (rt : runtime) (daily : daily_t) (keys : list pystr)
    (es : list forecast_entry) :
  make_entries rt daily keys = Ok es <->
  Forall2 (fun k e => make_entry rt k (bucket_of daily k) = Ok e) keys es.
Proof.
  revert es; induction keys as [|k keys IH]; intros es; simpl.
  - split; intros H.
    + injection H as <-; constructor.
    + inversion H; reflexivity.
  - fold (bucket_of daily k).
    destruct (make_entry rt k (bucket_of daily k)) as [e|x] eqn:E; cbn [bind].
    + destruct (make_entries rt daily keys) as [rest|x]; cbn [bind].
      * split; intros H.
        -- injection H as <-; constructor; [exact E|apply IH; reflexivity].
        -- inversion H as [|? e' ? rest' He Hr]; subst.
           apply IH in Hr; congruence.
      * split; [discriminate|].
        intros H; inversion H as [|? e' ? rest' He Hr]; subst.
        apply IH in Hr; discriminate.
    + split; [discriminate|].
      intros H; inversion H as [|? e' ? rest' He Hr]; subst; congruence.
Qed.

(** What a success of the parser consists of. *)
Lemma parse_forecast_ok (rt : runtime) (data : pyval)
    (es : list forecast_entry) :
  parse_forecast rt data = Ok es <->
  exists ss, forecast_samples data = Ok ss /\
    Forall2 (fun k e =>
               make_entry rt k {| temps := temps_on k ss;
                                  conditions := conds_on k ss |} = Ok e)
            (day_keys ss) es.
Proof.
  rewrite parse_forecast_samples.
  assert (Hb : forall ss k, bucket_of (fold_left add_sample ss []) k =
                            {| temps := temps_on k ss;
                               conditions := conds_on k ss |}).
  { intros ss k; rewrite bucket_of_samples; reflexivity. }
  destruct (forecast_samples data) as [ss|x]; cbn [bind].
  - rewrite make_entries_ok; split.
    + intros H; exists ss; split; [reflexivity|].
      eapply Forall2_impl; [|exact H].
      intros k e; cbv beta; rewrite Hb; trivial.
    + intros (ss' & Hss & H); injection Hss as <-.
      eapply Forall2_impl; [|exact H].
      intros k e; cbv beta; rewrite Hb; trivial.
  - split; [discriminate|]. intros (ss' & Hss & _); discriminate.
Qed.

Lemma strings_of (l : list pyval) :
  Forall (fun v => exists c, v = PStr c) l -> exists cs, l = map PStr cs.
Proof.
  induction 1 as [|v l (c & ->) _ (cs & ->)].
  - exists []; reflexivity.
  - exists (c :: cs); reflexivity.
Qed.

Lemma on_date_in (k : pystr) (ss : list sample) (s : sample) :
  In s (on_date k ss) <-> In s ss /\ sample_date s = k.
Proof.
  unfold on_date; rewrite filter_In, str_eqb_eq; reflexivity.
Qed.

Lemma on_date_nonempty (k : pystr) (ss : list sample) :
  In k (map sample_date ss) -> on_date k ss <> [].
Proof.
  intros H; apply in_map_iff in H as (s & Hk & Hs).
  intros E.
  assert (Hin : In s (on_date k ss)) by (apply on_date_in; split; assumption).
  rewrite E in Hin; exact Hin.
Qed.

Lemma formattable_ok (v : pyval) :
  formattable v = true -> exists text, format_1f v = Ok text.
Proof.
  unfold formattable; destruct (format_1f v) as [text|]; [|discriminate].
  intros _; exists text; reflexivity.
Qed.

(** The second loop succeeds on the bucket of a date of well-formed
    samples, and its entry summarises the bucket. *)
Lemma make_entry_wf (rt : runtime) (ss : list sample) (k : pystr) :
  set_iter_ok rt ->
  Forall (wf_sample rt) ss ->
  In k (map sample_date ss) ->
  exists e, make_entry rt k {| temps := temps_on k ss;
                               conditions := conds_on k ss |} = Ok e /\
            date_label rt k = Ok (date e) /\
            summarises rt (temps_on k ss) (conds_on k ss) e.
Proof.
  intros Hset Hwf Hk.
  assert (Hday : Forall (wf_sample rt) (on_date k ss)).
  { apply Forall_forall; intros s Hs; apply on_date_in in Hs as [Hs _].
    exact (proj1 (Forall_forall _ _) Hwf s Hs). }
  assert (Hne := on_date_nonempty k ss Hk).
  (* the descriptions *)
  destruct (strings_of (conds_on k ss)) as (cs & Hcs).
  { unfold conds_on; apply Forall_forall; intros v Hv.
    apply in_map_iff in Hv as (s & <- & Hs).
    exact (proj1 (proj2 (proj1 (Forall_forall _ _) Hday s Hs))). }
  assert (Hcne : cs <> []).
  { intros ->; unfold conds_on in Hcs.
    destruct (on_date k ss); [congruence|discriminate]. }
  destruct (most_common_strings rt cs Hset Hcne) as (c & Hmc & Hc & Hcmax).
  (* the label *)
  destruct (on_date k ss) as [|s0 day] eqn:Eday; [congruence|].
  assert (Hs0 : In s0 (on_date k ss)) by (rewrite Eday; left; reflexivity).
  pose proof (proj2 (proj1 (on_date_in k ss s0) Hs0)) as Hdate.
  destruct (proj2 (proj2 (proj1 (Forall_forall _ _) Hday s0
                            (or_introl eq_refl)))) as (label & Hlabel).
  rewrite Hdate in Hlabel.
  (* the temperatures *)
  assert (Hts : Forall ordered_number (temps_on k ss)).
  { unfold temps_on; rewrite Eday; apply Forall_forall; intros v Hv.
    apply in_map_iff in Hv as (s & <- & Hs).
    exact (proj1 (proj1 (proj1 (Forall_forall _ _) Hday s Hs))). }
  assert (Hfmt : forall v, In v (temps_on k ss) ->
                           exists text, format_1f v = Ok text).
  { unfold temps_on; rewrite Eday; intros v Hv.
    apply in_map_iff in Hv as (s & <- & Hs).
    apply formattable_ok.
    exact (proj2 (proj1 (proj1 (Forall_forall _ _) Hday s Hs))). }
  assert (Etemps : temps_on k ss = sample_temp s0 :: map sample_temp day).
  { unfold temps_on; rewrite Eday; reflexivity. }
  rewrite Etemps in Hts.
  destruct (max_from_greatest _ _ Hts) as (hi & Hhi & Hhib).
  destruct (min_from_least _ _ Hts) as (lo & Hlo & Hlob).
  rewrite <- Etemps in Hhib, Hlob.
  assert (Hhi_in : In hi (temps_on k ss))
    by (rewrite Etemps; exact (max_from_in _ _ _ Hhi)).
  assert (Hlo_in : In lo (temps_on k ss))
    by (rewrite Etemps; exact (min_from_in _ _ _ Hlo)).
  destruct (Hfmt hi Hhi_in) as (hi_text & Hhi_text).
  destruct (Hfmt lo Hlo_in) as (lo_text & Hlo_text).
  exists {| date := label; max_temp := hi_text ++ degrees_c;
            min_temp := lo_text ++ degrees_c;
            fcondition := title (unicode rt) c |}.
  split; [|split; [exact Hlabel|]].
  - unfold make_entry; cbn [temps conditions].
    rewrite Hcs, Hmc; cbn [bind]; rewrite Hlabel; cbn [bind].
    rewrite Etemps; cbn [py_max py_min].
    rewrite Hhi; cbn [bind]; rewrite Hhi_text; cbn [bind].
    rewrite Hlo; cbn [bind]; rewrite Hlo_text; reflexivity.
  - repeat split.
    + exists hi, hi_text; repeat split; assumption.
    + exists lo, lo_text; repeat split; assumption.
    + exists c; rewrite Hcs; split; [apply in_map, Hc|]; split; [|reflexivity].
      intros c' Hc'; rewrite !count_strings; apply Hcmax.
      apply in_map_iff in Hc' as (c'' & E & Hin); injection E as ->.
      exact Hin.
Qed.

Lemma forall2_of_keys (rt : runtime) (ss : list sample) (keys : list pystr) :
  set_iter_ok rt ->
  Forall (wf_sample rt) ss ->
  (forall k, In k keys -> In k (map sample_date ss)) ->
  exists es,
    Forall2 (fun k e =>
               make_entry rt k {| temps := temps_on k ss;
                                  conditions := conds_on k ss |} = Ok e /\
               date_label rt k = Ok (date e) /\
               summarises rt (temps_on k ss) (conds_on k ss) e) keys es.
Proof.
  intros Hset Hwf; induction keys as [|k keys IH]; intros Hk.
  - exists []; constructor.
  - destruct (make_entry_wf rt ss k Hset Hwf) as (e & He).
    { apply Hk; left; reflexivity. }
    destruct IH as (es & Hes); [intros k' Hk'; apply Hk; right; exact Hk'|].
    exists (e :: es); constructor; assumption.
Qed.

(** On well-formed samples the parser succeeds, with one entry for each
    key, labelled with the key's date and summarising its bucket. *)
Lemma parse_forecast_wf (rt : runtime) (data : pyval) (ss : list sample) :
  set_iter_ok rt ->
  forecast_samples data = Ok ss ->
  Forall (wf_sample rt) ss ->
  exists es,
    parse_forecast rt data = Ok es /\
    Forall2 (fun k e =>
               date_label rt k = Ok (date e) /\
               summarises rt (temps_on k ss) (conds_on k ss) e)
            (day_keys ss) es.
Proof.
  intros Hset Hss Hwf.
  destruct (forall2_of_keys rt ss (day_keys ss) Hset Hwf) as (es & Hes).
  { intros k; apply (proj2 (day_keys_spec ss)). }
  exists es; split.
  - apply parse_forecast_ok; exists ss; split; [exact Hss|].
    eapply Forall2_impl; [|exact Hes]. intros k e H; exact (proj1 H).
  - eapply Forall2_impl; [|exact Hes]. intros k e H; exact (proj2 H).
Qed.

Lemma Forall2_impl_in {A B : Type} (P Q : A -> B -> Prop)
    (l : list A) (l' : list B) :
  (forall a b, In a l -> P a b -> Q a b) -> Forall2 P l l' -> Forall2 Q l l'.
Proof.
  intros H F; induction F as [|a b l l' Hab F IH]; constructor.
  - apply H; [left; reflexivity|exact Hab].
  - apply IH; intros a' b' Ha'; apply H; right; exact Ha'.
Qed.

(** C2.  For well-formed input the parser returns one entry for each
    distinct date of the list (the text of a timestamp before its first
    space), in ascending order of the date keys; an empty list gives an
    empty result. *)
Theorem parse_forecast_one_entry_per_date (rt : runtime) (data : pyval)
    (ss : list sample) :
  set_iter_ok rt ->
  forecast_samples data = Ok ss ->
  Forall (wf_sample rt) ss ->
  exists es,
    parse_forecast rt data = Ok es /\
    StronglySorted str_lt (day_keys ss) /\
    (forall k, In k (day_keys ss) <-> In k (map sample_date ss)) /\
    Forall2 (fun k e => date_label rt k = Ok (date e)) (day_keys ss) es /\
    (ss = [] -> es = []).
Proof.
  intros Hset Hss Hwf.
  destruct (parse_forecast_wf rt data ss Hset Hss Hwf) as (es & Hes & Hall).
  destruct (day_keys_spec ss) as [Hsorted Hmem].
  exists es.
  split; [exact Hes|]. split; [exact Hsorted|]. split; [exact Hmem|]. split.
  - eapply Forall2_impl; [|exact Hall]. intros k e H; exact (proj1 H).
  - intros ->; inversion Hall; reflexivity.
Qed.

Lemma make_entry_extremes (rt : runtime) (k : pystr) (b : bucket)
    (e : forecast_entry) :
  make_entry rt k b = Ok e -> exists lo hi, extremes (temps b) e lo hi.
Proof.
  unfold make_entry.
  destruct (most_common rt (conditions b)) as [c|]; cbn [bind]; [|discriminate].
  destruct (date_label rt k) as [label|]; cbn [bind]; [|discriminate].
  destruct (py_max (temps b)) as [hi|] eqn:Ehi; cbn [bind]; [|discriminate].
  destruct (format_1f hi) as [hi_text|] eqn:Fhi; cbn [bind]; [|discriminate].
  destruct (py_min (temps b)) as [lo|] eqn:Elo; cbn [bind]; [|discriminate].
  destruct (format_1f lo) as [lo_text|] eqn:Flo; cbn [bind]; [|discriminate].
  destruct (py_title (unicode rt) c) as [shown|]; cbn [bind]; [|discriminate].
  intros H; injection H as <-.
  exists lo, hi; split; [exact Elo|split; [exact Ehi|]].
  exists lo_text, hi_text.
  split; [exact Flo|split; [exact Fhi|split; reflexivity]].
Qed.

Lemma format_1f_number (v : pyval) (text : pystr) :
  format_1f v = Ok text -> number v <> None.
Proof. destruct v; simpl; congruence. Qed.

(** The minimum is at most the maximum when the scan starts from a
    number other than a NaN. *)
Lemma extremes_ordered (ts : list pyval) (e : forecast_entry)
    (lo hi : pyval) :
  extremes ts e lo hi ->
  (forall t, hd_error ts = Some t -> number t <> Some XNaN) ->
  num_leb lo hi = true.
Proof.
  intros (Hlo & Hhi & lo_text & hi_text & Flo & Fhi & _ & _) Hfirst.
  destruct ts as [|t0 ts]; [discriminate|].
  cbn [py_min py_max] in Hlo, Hhi.
  assert (H0 : ordered_number t0).
  { destruct (number t0) as [x|] eqn:E.
    - exists x; split; [exact E|].
      intros ->; exact (Hfirst t0 eq_refl E).
    - exfalso; apply (format_1f_number hi hi_text Fhi).
      exact (max_from_not_number ts t0 hi E Hhi). }
  apply num_leb_trans with (b := t0).
  - exact (min_from_le_first ts t0 lo H0 Hlo).
  - exact (max_from_ge_first ts t0 hi H0 Hhi).
Qed.

(** C10 as stated does not hold: on [nan_forecast] the entry shows
    ["nan °C"] twice, [min] and [max] both return the NaN, and a NaN is
    not less than or equal to itself. *)
Lemma forecast_nan_not_ordered :
  ~ (forall (rt : runtime) (data : pyval) (ss : list sample)
            (es : list forecast_entry),
       parse_forecast rt data = Ok es ->
       forecast_samples data = Ok ss ->
       Forall2 (fun k e => forall lo hi,
                  extremes (temps_on k ss) e lo hi -> num_leb lo hi = true)
               (day_keys ss) es).
Proof.
  intros H.
  assert (Hes : parse_forecast example_runtime nan_forecast = Ok [nan_entry])
    by (vm_compute; reflexivity).
  assert (Hss : forecast_samples nan_forecast = Ok nan_samples)
    by (vm_compute; reflexivity).
  specialize (H example_runtime nan_forecast nan_samples [nan_entry] Hes Hss).
  change (day_keys nan_samples) with [lit "2026-02-07"] in H.
  inversion H as [|k e ks es' Hke _]; subst.
  specialize (Hke (PFloat S754_nan) (PFloat S754_nan)).
  assert (Hex : extremes (temps_on (lit "2026-02-07") nan_samples) nan_entry
                  (PFloat S754_nan) (PFloat S754_nan)).
  { split; [reflexivity|]. split; [reflexivity|].
    exists (lit "nan"), (lit "nan"); repeat split. }
  specialize (Hke Hex); discriminate Hke.
Qed.

(** C10, amended.  Every entry the parser returns shows the [".1f"]
    texts of the minimum and the maximum of its bucket, and the minimum
    is less than or equal to the maximum whenever the first temperature
    of the bucket is not a NaN. *)
Theorem parse_forecast_min_le_max (rt : runtime) (data : pyval)
    (es : list forecast_entry) :
  parse_forecast rt data = Ok es ->
  exists ss,
    forecast_samples data = Ok ss /\
    Forall2 (fun k e =>
               exists lo hi,
                 extremes (temps_on k ss) e lo hi /\
                 ((forall t, hd_error (temps_on k ss) = Some t ->
                             number t <> Some XNaN) ->
                  num_leb lo hi = true))
            (day_keys ss) es.
Proof.
  intros H; apply parse_forecast_ok in H as (ss & Hss & Hall).
  exists ss; split; [exact Hss|].
  eapply Forall2_impl; [|exact Hall].
  intros k e He; cbv beta in He.
  destruct (make_entry_extremes rt k _ e He) as (lo & hi & Hex).
  cbn [temps] in Hex.
  exists lo, hi; split; [exact Hex|].
  exact (extremes_ordered _ e lo hi Hex).
Qed.

(* ------------------------------------------------------------------ *)
(** ** What an entry shows of its bucket *)

(** A scan that starts from a number and succeeds has met numbers only. *)
Lemma max_from_numbers (l : list pyval) (cur hi : pyval) :
  number cur <> None -> max_from cur l = Ok hi ->
  Forall (fun t => number t <> None) l.
Proof.
  revert cur; induction l as [|x l IH]; intros cur Hc; simpl; [constructor|].
  destruct (number cur) as [c|] eqn:Hcur; [|congruence].
  destruct (py_gt x cur) as [g|] eqn:E; cbn [bind]; [|discriminate].
  unfold py_gt in E.
  destruct (py_lt_number_l cur x c g Hcur E) as (y & Hx & _).
  intros H; constructor; [congruence|].
  apply (IH (if g then x else cur)); [destruct g; congruence|exact H].
Qed.

Lemma min_from_numbers (l : list pyval) (cur lo : pyval) :
  number cur <> None -> min_from cur l = Ok lo ->
  Forall (fun t => number t <> None) l.
Proof.
  revert cur; induction l as [|x l IH]; intros cur Hc; simpl; [constructor|].
  destruct (number cur) as [c|] eqn:Hcur; [|congruence].
  destruct (py_lt x cur) as [g|] eqn:E; cbn [bind]; [|discriminate].
  destruct (py_lt_number_r x cur c g Hcur E) as (y & Hx & _).
  intros H; constructor; [congruence|].
  apply (IH (if g then x else cur)); [destruct g; congruence|exact H].
Qed.

Lemma ordered_numbers (ts : list pyval) :
  Forall (fun t => number t <> None) ts -> no_nan ts ->
  Forall ordered_number ts.
Proof.
  unfold no_nan; intros Hn Hnan; apply Forall_forall; intros t Ht.
  pose proof (proj1 (Forall_forall _ _) Hn t Ht) as H1.
  pose proof (proj1 (Forall_forall _ _) Hnan t Ht) as H2.
  cbv beta in H1, H2.
  destruct (number t) as [x|] eqn:E; [|congruence].
  exists x; split; [exact E|]. intros Hx; congruence.
Qed.

(** [max] of the empty set raises. *)
Lemma most_common_empty (rt : runtime) :
  set_iter_ok rt ->
  most_common rt [] = Raise (ValueError (lit "max() arg is an empty sequence")).
Proof.
  intros Hset; unfold most_common; cbn [forallb negb].
  destruct (set_iter rt []) as [|x l] eqn:Es; [reflexivity|exfalso].
  destruct (Hset []) as [_ Hmem]; cbn [map] in Hmem.
  apply (proj1 (Hmem x)); rewrite Es; left; reflexivity.
Qed.

(** The entry of a bucket without a NaN whose descriptions are strings
    summarises the bucket. *)
Lemma make_entry_summarises (rt : runtime) (k : pystr) (ts cs : list pyval)
    (e : forecast_entry) :
  set_iter_ok rt ->
  make_entry rt k {| temps := ts; conditions := cs |} = Ok e ->
  no_nan ts -> all_strings cs -> summarises rt ts cs e.
Proof.
  intros Hset He Hnan Hstr.
  unfold make_entry in He; cbn [temps conditions] in He.
  destruct (most_common rt cs) as [c|] eqn:Hmc; cbn [bind] in He;
    [|discriminate].
  destruct (date_label rt k) as [label|]; cbn [bind] in He; [|discriminate].
  destruct (py_max ts) as [hi|] eqn:Ehi; cbn [bind] in He; [|discriminate].
  destruct (format_1f hi) as [hi_text|] eqn:Fhi; cbn [bind] in He;
    [|discriminate].
  destruct (py_min ts) as [lo|] eqn:Elo; cbn [bind] in He; [|discriminate].
  destruct (format_1f lo) as [lo_text|] eqn:Flo; cbn [bind] in He;
    [|discriminate].
  destruct (py_title (unicode rt) c) as [shown|] eqn:Et; cbn [bind] in He;
    [|discriminate].
  injection He as <-.
  (* the temperatures *)
  destruct ts as [|t0 ts]; [discriminate|].
  cbn [py_max py_min] in Ehi, Elo.
  assert (H0 : number t0 <> None).
  { intros E0; apply (format_1f_number hi hi_text Fhi).
    exact (max_from_not_number ts t0 hi E0 Ehi). }
  assert (Hord : Forall ordered_number (t0 :: ts)).
  { apply ordered_numbers; [|exact Hnan].
    constructor; [exact H0|exact (max_from_numbers ts t0 hi H0 Ehi)]. }
  destruct (max_from_greatest ts t0 Hord) as (hi' & Hhi' & Hhib).
  destruct (min_from_least ts t0 Hord) as (lo' & Hlo' & Hlob).
  assert (hi' = hi) by congruence; assert (lo' = lo) by congruence.
  subst hi' lo'.
  (* the descriptions *)
  destruct (strings_of cs Hstr) as (cs0 & ->).
  assert (Hne : cs0 <> []).
  { intros ->; cbn [map] in Hmc.
    rewrite (most_common_empty rt Hset) in Hmc; discriminate. }
  destruct (most_common_strings rt cs0 Hset Hne) as (c0 & Hc0 & Hin & Hmax).
  rewrite Hc0 in Hmc; injection Hmc as <-.
  cbn [py_title] in Et; injection Et as <-.
  split; [|split].
  - exists hi, hi_text; split; [exact (max_from_in _ _ _ Ehi)|].
    split; [exact Hhib|]. split; [exact Fhi|reflexivity].
  - exists lo, lo_text; split; [exact (min_from_in _ _ _ Elo)|].
    split; [exact Hlob|]. split; [exact Flo|reflexivity].
  - exists c0; split; [apply in_map, Hin|]. split; [|reflexivity].
    intros c' Hc'; rewrite !count_strings; apply Hmax.
    apply in_map_iff in Hc' as (c'' & E & Hin'); injection E as ->.
    exact Hin'.
Qed.

(** C1, amended.  On well-formed samples the parser returns entries; and
    whenever it returns entries, there is one for each daily bucket, the
    bucket is not empty, and if no temperature of the bucket is a NaN
    and its descriptions are strings, then the entry's [max_temp] is
    the text of a greatest temperature of the bucket formatted with
    [".1f"] and followed by [" °C"], its [min_temp] that of a least one
    in the same format, and its condition the title-cased form of a
    description that occurs most often in the bucket. *)
Theorem parse_forecast_summarises (rt : runtime) (data : pyval)
    (ss : list sample) :
  set_iter_ok rt ->
  forecast_samples data = Ok ss ->
  (Forall (wf_sample rt) ss -> exists es, parse_forecast rt data = Ok es) /\
  forall es, parse_forecast rt data = Ok es ->
    Forall2 (fun k e =>
               temps_on k ss <> [] /\
               (no_nan (temps_on k ss) -> all_strings (conds_on k ss) ->
                summarises rt (temps_on k ss) (conds_on k ss) e))
            (day_keys ss) es.
Proof.
  intros Hset Hss; split.
  - intros Hwf.
    destruct (parse_forecast_wf rt data ss Hset Hss Hwf) as (es & Hes & _).
    exists es; exact Hes.
  - intros es Hes.
    apply parse_forecast_ok in Hes as (ss' & Hss' & Hall).
    assert (ss' = ss) by congruence; subst ss'.
    eapply Forall2_impl_in; [|exact Hall].
    intros k e Hk He; cbv beta in He; split.
    + intros E; apply (proj2 (day_keys_spec ss)) in Hk.
      apply (on_date_nonempty k ss Hk).
      unfold temps_on in E; destruct (on_date k ss); [reflexivity|discriminate].
    + intros Hnan Hstr.
      exact (make_entry_summarises rt k _ _ e Hset He Hnan Hstr).
Qed.

(* ------------------------------------------------------------------ *)
(** ** Determinism

    The parsers read no global and keep no state.  What they take from
    the interpreter is the character tables, [datetime] and the order in
    which a set is iterated; the last follows the hashes of the strings,
    which differ from one process to the next. *)

(** When one description occurs more often than every other, it is the
    one [most_common] returns, in whatever order the set is iterated. *)
Lemma most_common_untied (rt : runtime) (cs : list pyval) (m : pyval) :
  set_iter_ok rt -> all_strings cs ->
  In m cs ->
  (forall x, In x cs -> x <> m -> (count cs x < count cs m)%nat) ->
  most_common rt cs = Ok m.
Proof.
  intros Hset Hstr Hm Hmax.
  destruct (strings_of cs Hstr) as (cs0 & ->).
  assert (Hne : cs0 <> []) by (intros ->; exact Hm).
  destruct (most_common_strings rt cs0 Hset Hne) as (c & Hc & Hin & Hcmax).
  rewrite Hc; f_equal.
  apply in_map_iff in Hm as (m0 & <- & Hm0).
  destruct (str_eq_dec c m0) as [->|Hn]; [reflexivity|exfalso].
  assert (Hneq : PStr c <> PStr m0) by congruence.
  pose proof (Hmax (PStr c) (in_map PStr _ _ Hin) Hneq) as Hlt.
  rewrite !count_strings in Hlt.
  specialize (Hcmax m0 Hm0); lia.
Qed.

(** The entry of a bucket whose descriptions are strings, one of them
    more frequent than every other, does not depend on the order in
    which the set is iterated. *)
Lemma make_entry_untied (rt1 rt2 : runtime) (k : pystr) (b : bucket) :
  set_iter_ok rt1 -> set_iter_ok rt2 ->
  unicode rt1 = unicode rt2 ->
  (forall s, date_label rt1 s = date_label rt2 s) ->
  all_strings (conditions b) -> untied (conditions b) ->
  make_entry rt1 k b = make_entry rt2 k b.
Proof.
  intros H1 H2 Hu Hd Hstr (m & Hm & Hmax).
  unfold make_entry.
  rewrite (most_common_untied rt1 _ m H1 Hstr Hm Hmax).
  rewrite (most_common_untied rt2 _ m H2 Hstr Hm Hmax).
  rewrite Hd, Hu; reflexivity.
Qed.

Lemma make_entries_untied (rt1 rt2 : runtime) (daily : daily_t)
    (keys : list pystr) :
  set_iter_ok rt1 -> set_iter_ok rt2 ->
  unicode rt1 = unicode rt2 ->
  (forall s, date_label rt1 s = date_label rt2 s) ->
  (forall k, In k keys ->
             all_strings (conditions (bucket_of daily k)) /\
             untied (conditions (bucket_of daily k))) ->
  make_entries rt1 daily keys = make_entries rt2 daily keys.
Proof.
  intros H1 H2 Hu Hd; induction keys as [|k keys IH]; intros Hk; simpl;
    [reflexivity|].
  fold (bucket_of daily k).
  destruct (Hk k (or_introl eq_refl)) as [Hs Ht].
  rewrite (make_entry_untied rt1 rt2 k _ H1 H2 Hu Hd Hs Ht).
  rewrite IH; [reflexivity|].
  intros k' Hk'; apply Hk; right; exact Hk'.
Qed.

(** The entries of a bucket of strings under two orders of iteration
    differ at most in their condition. *)
Lemma make_entry_same_but_condition (rt1 rt2 : runtime) (k : pystr)
    (b : bucket) :
  set_iter_ok rt1 -> set_iter_ok rt2 ->
  unicode rt1 = unicode rt2 ->
  (forall s, date_label rt1 s = date_label rt2 s) ->
  all_strings (conditions b) ->
  match make_entry rt1 k b, make_entry rt2 k b with
  | Ok e1, Ok e2 => date e1 = date e2 /\
                    max_temp e1 = max_temp e2 /\ min_temp e1 = min_temp e2
  | Raise x1, Raise x2 => x1 = x2
  | _, _ => False
  end.
Proof.
  intros H1 H2 Hu Hd Hstr.
  destruct (strings_of _ Hstr) as (cs0 & Hcs).
  unfold make_entry; rewrite Hcs.
  destruct cs0 as [|c0 cs0].
  - cbn [map]; rewrite (most_common_empty rt1 H1), (most_common_empty rt2 H2).
    reflexivity.
  - destruct (most_common_strings rt1 (c0 :: cs0) H1) as (c1 & E1 & _);
      [discriminate|].
    destruct (most_common_strings rt2 (c0 :: cs0) H2) as (c2 & E2 & _);
      [discriminate|].
    rewrite E1, E2; cbn [bind]; rewrite <- Hd.
    destruct (date_label rt1 k) as [label|]; cbn [bind]; [|reflexivity].
    destruct (py_max (temps b)) as [hi|]; cbn [bind]; [|reflexivity].
    destruct (format_1f hi) as [hi_text|]; cbn [bind]; [|reflexivity].
    destruct (py_min (temps b)) as [lo|]; cbn [bind]; [|reflexivity].
    destruct (format_1f lo) as [lo_text|]; cbn [bind]; [|reflexivity].
    cbn [py_title bind date max_temp min_temp].
    split; [reflexivity|split; reflexivity].
Qed.

Lemma make_entries_same_but_conditions (rt1 rt2 : runtime) (daily : daily_t)
    (keys : list pystr) :
  set_iter_ok rt1 -> set_iter_ok rt2 ->
  unicode rt1 = unicode rt2 ->
  (forall s, date_label rt1 s = date_label rt2 s) ->
  (forall k, In k keys -> all_strings (conditions (bucket_of daily k))) ->
  same_but_conditions (make_entries rt1 daily keys)
                      (make_entries rt2 daily keys).
Proof.
  intros H1 H2 Hu Hd; unfold same_but_conditions.
  induction keys as [|k keys IH]; intros Hk; cbn [make_entries].
  - constructor.
  - fold (bucket_of daily k).
    pose proof (make_entry_same_but_condition rt1 rt2 k (bucket_of daily k)
                  H1 H2 Hu Hd (Hk k (or_introl eq_refl))) as He.
    pose proof (IH (fun k' Hk' => Hk k' (or_intror Hk'))) as IH'.
    destruct (make_entry rt1 k (bucket_of daily k)) as [e1|x1],
             (make_entry rt2 k (bucket_of daily k)) as [e2|x2];
      cbn [bind]; try contradiction; [|exact He].
    destruct (make_entries rt1 daily keys) as [es1|y1],
             (make_entries rt2 daily keys) as [es2|y2];
      cbn [bind]; try contradiction; [|exact IH'].
    constructor; assumption.
Qed.

(** C8, amended.  Under two interpreters with the same character tables
    and the same [datetime], whatever the order in which each iterates
    a set: [parse_current_weather] returns the same result (a value or
    an exception); and on a forecast whose descriptions are strings,
    [parse_forecast] returns results that differ at most in the
    conditions of the entries, and the same result when on every day one
    description occurs more often than every other. *)
Theorem parsers_deterministic (rt1 rt2 : runtime) (data : pyval) :
  set_iter_ok rt1 -> set_iter_ok rt2 ->
  unicode rt1 = unicode rt2 ->
  (forall s, date_label rt1 s = date_label rt2 s) ->
  parse_current_weather rt1 data = parse_current_weather rt2 data /\
  ((forall ss k, forecast_samples data = Ok ss -> In k (day_keys ss) ->
                 all_strings (conds_on k ss)) ->
   same_but_conditions (parse_forecast rt1 data) (parse_forecast rt2 data) /\
   ((forall ss k, forecast_samples data = Ok ss -> In k (day_keys ss) ->
                  untied (conds_on k ss)) ->
    parse_forecast rt1 data = parse_forecast rt2 data)).
Proof.
  intros H1 H2 Hu Hd; split.
  - unfold parse_current_weather; rewrite Hu; reflexivity.
  - intros Hstr; rewrite !parse_forecast_samples.
    destruct (forecast_samples data) as [ss|x] eqn:Ess; cbn [bind];
      [|split; [reflexivity|intros _; reflexivity]].
    assert (Hb : forall k, conditions (bucket_of (fold_left add_sample ss []) k)
                           = conds_on k ss).
    { intros k; rewrite bucket_of_samples; reflexivity. }
    split.
    + apply make_entries_same_but_conditions; try assumption.
      intros k Hk; rewrite Hb; exact (Hstr ss k eq_refl Hk).
    + intros Hun; apply make_entries_untied; try assumption.
      intros k Hk; rewrite Hb; split;
        [exact (Hstr ss k eq_refl Hk)|exact (Hun ss k eq_refl Hk)].
Qed.

(* ------------------------------------------------------------------ *)
(** ** The example interpreter and the inputs of the test suite *)

Lemma dedup_strings_in (l : list pystr) (v : pyval) :
  In v (dedup (map PStr l)) <-> In v (map PStr l).
Proof.
  induction l as [|c l IH]; simpl; [tauto|].
  rewrite filter_In, IH; split.
  - intros [H|[H _]]; [left|right]; exact H.
  - intros [H|H]; [left; exact H|].
    apply in_map_iff in H as (c' & <- & Hc').
    destruct (str_eq_dec c' c) as [->|Hn]; [left; reflexivity|right].
    split; [apply in_map, Hc'|].
    rewrite py_eqb_str, (proj2 (str_eqb_neq c' c) Hn); reflexivity.
Qed.

Lemma dedup_strings_nodup (l : list pystr) : NoDup (dedup (map PStr l)).
Proof.
  induction l as [|c l IH]; simpl; constructor.
  - rewrite filter_In, py_eqb_str, str_eqb_refl; intros [_ H]; discriminate.
  - apply NoDup_filter, IH.
Qed.

Lemma example_set_iter_ok : set_iter_ok example_runtime.
Proof.
  intros l; split; [apply dedup_strings_nodup|].
  intros v; apply dedup_strings_in.
Qed.

Lemma forecast_document_wf :
  Forall (wf_sample example_runtime) forecast_document_samples.
Proof.
  repeat constructor; try (eexists; reflexivity);
    eexists; (split; [vm_compute; reflexivity|discriminate]).
Qed.

Lemma reversed_set_iter_ok : set_iter_ok reversed_runtime.
Proof.
  intros l; split.
  - apply NoDup_rev, dedup_strings_nodup.
  - intros v; cbn [set_iter reversed_runtime].
    rewrite <- in_rev; apply dedup_strings_in.
Qed.

Lemma forecast_document_days (ss : list sample) (k : pystr) :
  forecast_samples forecast_document = Ok ss -> In k (day_keys ss) ->
  conds_on k ss = [PStr (lit "clouds"); PStr (lit "clouds")].
Proof.
  intros Hss Hk.
  assert (E : forecast_samples forecast_document = Ok forecast_document_samples)
    by (vm_compute; reflexivity).
  rewrite E in Hss; injection Hss as <-.
  change (day_keys forecast_document_samples) with [lit "2026-02-07"] in Hk.
  destruct Hk as [<-|[]]; reflexivity.
Qed.

Lemma tied_forecast_days (ss : list sample) (k : pystr) :
  forecast_samples tied_forecast = Ok ss -> In k (day_keys ss) ->
  conds_on k ss = [PStr (lit "rain"); PStr (lit "clouds")].
Proof.
  intros Hss Hk.
  assert (E : exists ss0, forecast_samples tied_forecast = Ok ss0 /\
                          day_keys ss0 = [lit "2026-02-07"] /\
                          conds_on (lit "2026-02-07") ss0
                            = [PStr (lit "rain"); PStr (lit "clouds")]).
  { eexists; split; [vm_compute; reflexivity|].
    split; vm_compute; reflexivity. }
  destruct E as (ss0 & E & Hkeys & Hconds).
  rewrite E in Hss; injection Hss as <-.
  rewrite Hkeys in Hk; destruct Hk as [<-|[]]; exact Hconds.
Qed.

(* ------------------------------------------------------------------ *)
(** ** Where the sentences of the specification fail *)

(** C1 as stated does not hold: on [nan_first_forecast] the bucket of
    the day holds a NaN and 5.0, the entry shows ["nan °C"] for both
    temperatures, and no temperature of the bucket is greater than or
    equal to every one of them, a NaN being in no order with a number. *)
Lemma parse_forecast_nan_not_summarised :
  ~ (forall (rt : runtime) (data : pyval) (ss : list sample)
            (es : list forecast_entry),
       set_iter_ok rt ->
       parse_forecast rt data = Ok es ->
       forecast_samples data = Ok ss ->
       Forall2 (fun k e => summarises rt (temps_on k ss) (conds_on k ss) e)
               (day_keys ss) es).
Proof.
  intros H.
  assert (Hes : parse_forecast example_runtime nan_first_forecast
                = Ok [nan_first_entry]) by (vm_compute; reflexivity).
  assert (Hss : forecast_samples nan_first_forecast = Ok nan_first_samples)
    by (vm_compute; reflexivity).
  specialize (H example_runtime nan_first_forecast nan_first_samples
                [nan_first_entry] example_set_iter_ok Hes Hss).
  change (day_keys nan_first_samples) with [lit "2026-02-07"] in H.
  inversion H as [|k e ks es' Hke _]; subst.
  destruct Hke as ((hi & hi_text & _ & Hb & _) & _).
  assert (Hin : In (PFloat S754_nan)
                   (temps_on (lit "2026-02-07") nan_first_samples))
    by (left; reflexivity).
  destruct (num_leb_ordered _ _ (Hb _ Hin)) as [(x & Hx & Hn) _].
  apply Hn; cbn [number xnum_of_float] in Hx; congruence.
Qed.

(** C8 as stated does not hold from one process to the next: on
    [tied_forecast], where "rain" and "clouds" occur once each, an
    interpreter that iterates the set in one order shows "Rain" and an
    interpreter that iterates it in the other order shows "Clouds". *)
Lemma parse_forecast_follows_set_order :
  ~ (forall (rt1 rt2 : runtime) (data : pyval),
       set_iter_ok rt1 -> set_iter_ok rt2 ->
       unicode rt1 = unicode rt2 ->
       (forall s, date_label rt1 s = date_label rt2 s) ->
       parse_forecast rt1 data = parse_forecast rt2 data).
Proof.
  intros H.
  specialize (H example_runtime reversed_runtime tied_forecast
                example_set_iter_ok reversed_set_iter_ok eq_refl
                (fun _ => eq_refl)).
  vm_compute in H; discriminate H.
Qed.

(* ------------------------------------------------------------------ *)
(** ** The theorems at the inputs of the test suite *)

Lemma parse_forecast_summarises_witness :
  parse_forecast example_runtime forecast_document
    = Ok [ {| date := lit "Sat, Feb 07";
              max_temp := lit "12.0" ++ degrees_c;
              min_temp := lit "10.0" ++ degrees_c;
              fcondition := lit "Clouds" |} ] /\
  Forall2 (fun k e =>
             temps_on k forecast_document_samples <> [] /\
             summarises example_runtime
               (temps_on k forecast_document_samples)
               (conds_on k forecast_document_samples) e)
          (day_keys forecast_document_samples) [forecast_document_entry].
Proof.
  assert (Hes : parse_forecast example_runtime forecast_document
                = Ok [forecast_document_entry]) by (vm_compute; reflexivity).
  assert (Hss : forecast_samples forecast_document
                = Ok forecast_document_samples) by (vm_compute; reflexivity).
  split; [exact Hes|].
  destruct (parse_forecast_summarises example_runtime forecast_document
              forecast_document_samples example_set_iter_ok Hss)
    as [_ Hall].
  eapply Forall2_impl_in; [|exact (Hall _ Hes)].
  intros k e Hk [Hne Hsum]; split; [exact Hne|].
  change (day_keys forecast_document_samples) with [lit "2026-02-07"] in Hk.
  destruct Hk as [<-|[]].
  apply Hsum.
  - change (temps_on (lit "2026-02-07") forecast_document_samples)
      with [PFloat (float_of_decimal 100 (-1));
            PFloat (float_of_decimal 120 (-1))].
    repeat (apply Forall_cons; [vm_compute; discriminate|]); apply Forall_nil.
  - change (conds_on (lit "2026-02-07") forecast_document_samples)
      with [PStr (lit "clouds"); PStr (lit "clouds")].
    repeat (apply Forall_cons; [eexists; reflexivity|]); apply Forall_nil.
Defined.

Lemma parse_forecast_one_entry_per_date_witness :
  exists es,
    parse_forecast example_runtime forecast_document = Ok es /\
    StronglySorted str_lt (day_keys forecast_document_samples) /\
    (forall k, In k (day_keys forecast_document_samples) <->
               In k (map sample_date forecast_document_samples)) /\
    Forall2 (fun k e => date_label example_runtime k = Ok (date e))
            (day_keys forecast_document_samples) es /\
    (forecast_document_samples = [] -> es = []).
Proof.
  apply (parse_forecast_one_entry_per_date example_runtime forecast_document
           forecast_document_samples).
  - exact example_set_iter_ok.
  - vm_compute; reflexivity.
  - exact forecast_document_wf.
Defined.

Lemma fetch_classifies_status_witness :
  snd (fetch_current_weather example_runtime example_config
         (answer 404 PNone) (lit "Atlantis") [])
    = Raise (ValueError (msg_not_found (lit "Atlantis"))) /\
  snd (fetch_forecast example_runtime example_config
         (answer 500 PNone) (lit "London") [])
    = Raise (ConnectionError (msg_api_error 500)).
Proof.
  split.
  - destruct (fetch_classifies_status example_runtime example_config
                (answer 404 PNone) (lit "Atlantis") []
                {| status_code := 404; json := Ok PNone |} eq_refl)
      as [Hc _].
    destruct (Hc eq_refl) as (_ & H404 & _).
    exact (proj1 (H404 eq_refl)).
  - destruct (fetch_classifies_status example_runtime example_config
                (answer 500 PNone) (lit "London") []
                {| status_code := 500; json := Ok PNone |} eq_refl)
      as [_ Hf].
    destruct (Hf eq_refl) as (_ & _ & _ & H500).
    refine (proj1 (H500 _ _ _)); discriminate.
Defined.

Lemma parse_current_weather_formats_witness :
  parse_current_weather example_runtime current_document =
    Ok {| temperature := lit "20.5" ++ degrees_c;
          condition   := lit "Clear Sky";
          humidity    := lit "65%";
          wind_speed  := lit "3.2 m/s" |}.
Proof.
  exact (parse_current_weather_formats example_runtime current_document
           (PFloat (float_of_decimal 205 (-1)))
           (PFloat (float_of_decimal 32 (-1)))
           (float_of_decimal 205 (-1)) (lit "clear sky") 65
           eq_refl (or_introl eq_refl) eq_refl eq_refl eq_refl).
Defined.

Lemma parse_current_weather_missing_field_witness :
  exists e, parse_current_weather example_runtime partial_document = Raise e /\
            is_lookup_error e = true.
Proof.
  destruct (proj1 (proj2 (parse_current_weather_missing_field
                            example_runtime partial_document)))
    as (e & He & Hl).
  - exists path_description; split; [simpl; tauto|reflexivity].
  - exists e; split; [exact He|apply Hl; reflexivity].
Defined.

Lemma fetch_requires_key_witness :
  fetch_current_weather example_runtime keyless_config (answer 200 PNone)
    (lit "London") [] = ([], Raise (ValueError msg_key_missing)) /\
  fetch_forecast example_runtime keyless_config (answer 200 PNone)
    (lit "London") [] = ([], Raise (ValueError msg_key_missing)) /\
  contains (lit "API key is missing") msg_key_missing = true.
Proof.
  exact (fetch_requires_key example_runtime keyless_config (answer 200 PNone)
           (lit "London") [] eq_refl).
Defined.

Lemma parsers_deterministic_witness :
  parse_current_weather example_runtime current_document
    = parse_current_weather reversed_runtime current_document /\
  parse_forecast reversed_runtime forecast_document
    = Ok [ {| date := lit "Sat, Feb 07";
              max_temp := lit "12.0" ++ degrees_c;
              min_temp := lit "10.0" ++ degrees_c;
              fcondition := lit "Clouds" |} ] /\
  same_but_conditions (parse_forecast example_runtime tied_forecast)
                      (parse_forecast reversed_runtime tied_forecast).
Proof.
  split; [|split].
  - exact (proj1 (parsers_deterministic example_runtime reversed_runtime
                    current_document example_set_iter_ok
                    reversed_set_iter_ok eq_refl (fun _ => eq_refl))).
  - destruct (proj2 (parsers_deterministic example_runtime reversed_runtime
                       forecast_document example_set_iter_ok
                       reversed_set_iter_ok eq_refl (fun _ => eq_refl)))
      as [_ Hsame].
    + intros ss k Hss Hk; rewrite (forecast_document_days ss k Hss Hk).
      repeat (apply Forall_cons; [eexists; reflexivity|]); apply Forall_nil.
    + rewrite <- Hsame; [vm_compute; reflexivity|].
      intros ss k Hss Hk; rewrite (forecast_document_days ss k Hss Hk).
      exists (PStr (lit "clouds")); split; [left; reflexivity|].
      intros x [<-|[<-|[]]] Hx; exfalso; apply Hx; reflexivity.
  - refine (proj1 (proj2 (parsers_deterministic example_runtime
                            reversed_runtime tied_forecast
                            example_set_iter_ok reversed_set_iter_ok eq_refl
                            (fun _ => eq_refl)) _)).
    intros ss k Hss Hk; rewrite (tied_forecast_days ss k Hss Hk).
    repeat (apply Forall_cons; [eexists; reflexivity|]); apply Forall_nil.
Defined.

Lemma fetch_functions_agree_witness :
  snd (fetch_current_weather example_runtime example_config
         (answer 200 current_document) (lit " London ") [])
    = snd (fetch_forecast example_runtime example_config
             (answer 200 current_document) (lit " London ") []).
Proof.
  exact (proj1 (fetch_functions_agree example_runtime example_config
                  (answer 200 current_document) (answer 200 current_document)
                  (lit " London ") [] eq_refl)).
Defined.

Lemma parse_forecast_min_le_max_witness :
  exists ss,
    forecast_samples forecast_document = Ok ss /\
    Forall2 (fun k e =>
               exists lo hi,
                 extremes (temps_on k ss) e lo hi /\
                 ((forall t, hd_error (temps_on k ss) = Some t ->
                             number t <> Some XNaN) ->
                  num_leb lo hi = true))
            (day_keys ss)
            [ {| date := lit "Sat, Feb 07";
                 max_temp := lit "12.0" ++ degrees_c;
                 min_temp := lit "10.0" ++ degrees_c;
                 fcondition := lit "Clouds" |} ].
Proof.
  apply (parse_forecast_min_le_max example_runtime forecast_document).
  vm_compute; reflexivity.
Defined.

(* ------------------------------------------------------------------ *)
(** ** What [".1f"] prints *)

Lemma div_half_even_nearest (n d : Z) :
  0 < d -> 2 * Z.abs (div_half_even n d * d - n) <= d.
Proof.
  intros Hd; unfold div_half_even.
  pose proof (Z.div_mod n d ltac:(lia)) as Hn.
  pose proof (Z.mod_pos_bound n d Hd) as Hr.
  destruct (Z.compare_spec (2 * (n mod d)) d) as [E|L|G];
    [destruct (Z.even (n / d))| |]; nia.
Qed.

(** The text of a finite float is its sign, the digits of its tenths
    before the last, a point and the last digit; the tenths are the
    integer nearest to ten times the value. *)
Lemma float_format_1f_finite (s : bool) (m : positive) (e : Z) :
  float_format_1f (S754_finite s m e) =
    sign_str s ++ digits (tenths m e / 10) ++ lit "." ++
    [digit (tenths m e mod 10)] /\
  0 <= tenths m e mod 10 < 10 /\
  (0 <= e -> tenths m e = Z.pos m * 2 ^ e * 10) /\
  (e < 0 ->
   2 * Z.abs (tenths m e * 2 ^ (- e) - Z.pos m * 10) <= 2 ^ (- e)).
Proof.
  split; [reflexivity|]. split; [apply Z.mod_pos_bound; lia|].
  unfold tenths; split; intros He.
  - rewrite (proj2 (Z.leb_le 0 e) He); reflexivity.
  - rewrite (proj2 (Z.leb_gt 0 e) He).
    apply div_half_even_nearest, Z.pow_pos_nonneg; lia.
Qed.

(* ------------------------------------------------------------------ *)
(** ** The tie between two conditions

    When two descriptions of a day occur equally often, the one shown is
    the one the set yields first.  The order is fixed within a process
    (it follows the hashes of the strings) and may differ between two
    processes; the specification leaves it open. *)

Remark tie_follows_set_order :
  map fcondition
      (match parse_forecast example_runtime tied_forecast with
       | Ok es => es
       | Raise _ => []
       end) = [lit "Rain"] /\
  map fcondition
      (match parse_forecast reversed_runtime tied_forecast with
       | Ok es => es
       | Raise _ => []
       end) = [lit "Clouds"].
Proof. split; vm_compute; reflexivity. Qed.

(* ------------------------------------------------------------------ *)
(** ** [search_weather]: what a search does to the window *)

Lemma search_weather_try (rt : runtime) (cfg : config) (net : network)
    (city : pystr) (g : gui) (log : list request) :
  fst (validate_input rt (Some city)) = true ->
  truthy (API_KEY cfg) = true ->
  search_weather rt cfg net city g log =
    match try_block rt cfg net city (set_text g []) log with
    | (log', g', Ok _) => (log', g', None)
    | (log', g', Raise e) => (log', fst (handle g' e), snd (handle g' e))
    end.
Proof.
  intros Hvalid Hkey; unfold search_weather.
  destruct (validate_input rt (Some city)) as [valid msg].
  simpl in Hvalid; subst valid; cbn [negb]; rewrite Hkey; cbn [negb].
  destruct (try_block rt cfg net city (set_text g []) log) as [[log' g'] [u|e]];
    [reflexivity|].
  destruct (handle g' e); reflexivity.
Qed.

Lemma try_block_ok (rt : runtime) (cfg : config) (net : network)
    (city : pystr) (g g' : gui) (log log' : list request) (u : unit) :
  try_block rt cfg net city g log = (log', g', Ok u) ->
  current_frame g' <> None /\ forecast_frame g' <> None.
Proof.
  unfold try_block.
  destruct (fetch_current_weather rt cfg net city log) as [log1 [dc|e]];
    [|discriminate].
  destruct (parse_current_weather rt dc) as [pc|e]; [|discriminate].
  destruct (fetch_forecast rt cfg net city log1) as [log2 [df|e]];
    [|discriminate].
  destruct (parse_forecast rt df) as [pf|e]; [|discriminate].
  intros H; injection H as _ <- _; split; discriminate.
Qed.

Lemma handle_caught (g g' : gui) (e : exn) :
  handle g e = (g', None) -> exists msg, g' = report g msg.
Proof.
  unfold handle.
  destruct (is_value_error e); [intros H; injection H as <-; eexists; reflexivity|].
  destruct (is_connectivity_error e);
    [intros H; injection H as <-; eexists; reflexivity|].
  destruct (is_request_exception e);
    [intros H; injection H as <-; eexists; reflexivity|].
  destruct (is_lookup_error e);
    [intros H; injection H as <-; eexists; reflexivity|discriminate].
Qed.

(** X1.  A search whose input the validator rejects, or that finds no
    API key, sends no request: the status shows the validator's message
    or the missing-key message, and the colour of the status and the two
    frames stay as they were. *)
Theorem search_weather_without_request (rt : runtime) (cfg : config)
    (net : network) (city : pystr) (g : gui) (log : list request) :
  fst (validate_input rt (Some city)) = false \/
  truthy (API_KEY cfg) = false ->
  search_weather rt cfg net city g log =
    (log,
     {| status_text :=
          if fst (validate_input rt (Some city))
          then lit "API key is missing. Please configure config.py."
          else snd (validate_input rt (Some city));
        status_fg := status_fg g;
        current_frame := current_frame g;
        forecast_frame := forecast_frame g |},
     None).
Proof.
  intros H; unfold search_weather.
  destruct (validate_input rt (Some city)) as [valid msg]; simpl in *.
  destruct valid; cbn [negb]; [|reflexivity].
  destruct H as [H|H]; [discriminate|].
  rewrite H; reflexivity.
Qed.

(** X2.  A search that succeeds sends two requests, the current weather
    first and the forecast second, with the same parameters; the status
    turns green and names the trimmed city, and the two frames show the
    two parsed results. *)
Theorem search_weather_shows_both (rt : runtime) (cfg : config)
    (net : network) (city : pystr) (g : gui) (log : list request)
    (dc df : pyval) (pc : current_weather) (pf : list forecast_entry) :
  fst (validate_input rt (Some city)) = true ->
  truthy (API_KEY cfg) = true ->
  net log (query_for rt cfg (CURRENT_WEATHER_URL cfg) city)
    = Ok {| status_code := 200; json := Ok dc |} ->
  parse_current_weather rt dc = Ok pc ->
  net (log ++ [query_for rt cfg (CURRENT_WEATHER_URL cfg) city])
      (query_for rt cfg (FORECAST_URL cfg) city)
    = Ok {| status_code := 200; json := Ok df |} ->
  parse_forecast rt df = Ok pf ->
  search_weather rt cfg net city g log =
    (log ++ [query_for rt cfg (CURRENT_WEATHER_URL cfg) city;
             query_for rt cfg (FORECAST_URL cfg) city],
     {| status_text := lit "Weather data for '" ++
                       strip (unicode rt) city ++ lit "'";
        status_fg := lit "green";
        current_frame := Some pc;
        forecast_frame := Some pf |},
     None).
Proof.
  intros Hvalid Hkey Hc Hpc Hf Hpf.
  rewrite (search_weather_try rt cfg net city g log Hvalid Hkey).
  unfold try_block.
  rewrite (fetch_current_weather_sends rt cfg net city log Hkey).
  cbv zeta; rewrite Hc; cbn [status_code json Z.eqb Pos.eqb negb].
  rewrite Hpc.
  rewrite (fetch_forecast_sends rt cfg net city _ Hkey).
  cbv zeta; rewrite Hf; cbn [status_code json Z.eqb Pos.eqb negb].
  rewrite Hpf, <- app_assoc; reflexivity.
Qed.

(** X3.  A search that returns normally leaves the two frames in step:
    if both were filled or both empty before, they are so afterwards.
    (Either nothing was touched, or both were filled, or a handler
    cleared both.) *)
Theorem search_weather_frames_agree (rt : runtime) (cfg : config)
    (net : network) (city : pystr) (g g' : gui) (log log' : list request) :
  frames_agree g ->
  search_weather rt cfg net city g log = (log', g', None) ->
  frames_agree g'.
Proof.
  intros Hg; unfold search_weather.
  destruct (validate_input rt (Some city)) as [valid msg].
  destruct valid; cbn [negb].
  2:{ intros H; injection H as _ <-; exact Hg. }
  destruct (truthy (API_KEY cfg)); cbn [negb].
  2:{ intros H; injection H as _ <-; exact Hg. }
  destruct (try_block rt cfg net city (set_text g []) log)
    as [[log1 g1] [u|e]] eqn:E.
  - intros H; injection H as _ <-.
    destruct (try_block_ok _ _ _ _ _ _ _ _ _ E) as [Hc Hf].
    split; intros H; contradiction.
  - destruct (handle g1 e) as [g2 [e'|]] eqn:Eh; [discriminate|].
    intros H; injection H as _ <-.
    destruct (handle_caught g1 g2 e Eh) as (m & ->).
    split; reflexivity.
Qed.

(** X4.  A status other than 200, 401 and 404 is raised by the fetch as
    the built-in [ConnectionError], which no handler of [search_weather]
    names: the exception leaves the method, the status still reads
    "Fetching weather data..." in blue and the frames are not cleared. *)
Theorem search_weather_server_error_uncaught (rt : runtime) (cfg : config)
    (net : network) (city : pystr) (g : gui) (log : list request)
    (resp : response) :
  fst (validate_input rt (Some city)) = true ->
  truthy (API_KEY cfg) = true ->
  net log (query_for rt cfg (CURRENT_WEATHER_URL cfg) city) = Ok resp ->
  status_code resp <> 200 ->
  status_code resp <> 404 ->
  status_code resp <> 401 ->
  search_weather rt cfg net city g log =
    (log ++ [query_for rt cfg (CURRENT_WEATHER_URL cfg) city],
     {| status_text := lit "Fetching weather data...";
        status_fg := lit "blue";
        current_frame := current_frame g;
        forecast_frame := forecast_frame g |},
     Some (ConnectionError (msg_api_error (status_code resp)))).
Proof.
  intros Hvalid Hkey Hnet H200 H404 H401.
  rewrite (search_weather_try rt cfg net city g log Hvalid Hkey).
  unfold try_block.
  rewrite (fetch_current_weather_sends rt cfg net city log Hkey).
  cbv zeta; rewrite Hnet.
  rewrite (proj2 (Z.eqb_neq _ _) H404), (proj2 (Z.eqb_neq _ _) H401),
    (proj2 (Z.eqb_neq _ _) H200); reflexivity.
Qed.

(** X5.  A 404 or a 401 on the first request is caught: the status
    shows the message of the fetch in red (for 404 with the city as it
    was typed), both frames are cleared, and the forecast is not
    requested. *)
Theorem search_weather_reports_fetch_error (rt : runtime) (cfg : config)
    (net : network) (city : pystr) (g : gui) (log : list request)
    (resp : response) :
  fst (validate_input rt (Some city)) = true ->
  truthy (API_KEY cfg) = true ->
  net log (query_for rt cfg (CURRENT_WEATHER_URL cfg) city) = Ok resp ->
  status_code resp = 404 \/ status_code resp = 401 ->
  search_weather rt cfg net city g log =
    (log ++ [query_for rt cfg (CURRENT_WEATHER_URL cfg) city],
     {| status_text := if status_code resp =? 404
                       then msg_not_found city else msg_invalid_key;
        status_fg := lit "red";
        current_frame := None;
        forecast_frame := None |},
     None).
Proof.
  intros Hvalid Hkey Hnet Hstatus.
  rewrite (search_weather_try rt cfg net city g log Hvalid Hkey).
  unfold try_block.
  rewrite (fetch_current_weather_sends rt cfg net city log Hkey).
  cbv zeta; rewrite Hnet.
  destruct Hstatus as [E|E]; rewrite E; reflexivity.
Qed.

Lemma connectivity_not_value (e : exn) :
  is_connectivity_error e = true -> is_value_error e = false.
Proof. destruct e as [| | | | | | |c m]; try discriminate; destruct c; auto. Qed.

(** X6.  When the network fails with [requests.ConnectionError] or
    [requests.Timeout], on the first request or on the second, the
    status shows the connection message in red and both frames are
    cleared, the current weather just displayed included. *)
Theorem search_weather_reports_connectivity (rt : runtime) (cfg : config)
    (net : network) (city : pystr) (g : gui) (log : list request)
    (e : exn) :
  fst (validate_input rt (Some city)) = true ->
  truthy (API_KEY cfg) = true ->
  is_connectivity_error e = true ->
  (net log (query_for rt cfg (CURRENT_WEATHER_URL cfg) city) = Raise e ->
   search_weather rt cfg net city g log =
     (log ++ [query_for rt cfg (CURRENT_WEATHER_URL cfg) city],
      report g msg_connection, None)) /\
  (forall dc pc,
     net log (query_for rt cfg (CURRENT_WEATHER_URL cfg) city)
       = Ok {| status_code := 200; json := Ok dc |} ->
     parse_current_weather rt dc = Ok pc ->
     net (log ++ [query_for rt cfg (CURRENT_WEATHER_URL cfg) city])
         (query_for rt cfg (FORECAST_URL cfg) city) = Raise e ->
     search_weather rt cfg net city g log =
       (log ++ [query_for rt cfg (CURRENT_WEATHER_URL cfg) city;
                query_for rt cfg (FORECAST_URL cfg) city],
        report g msg_connection, None)).
Proof.
  intros Hvalid Hkey He.
  pose proof (connectivity_not_value e He) as Hv.
  split.
  - intros Hnet.
    rewrite (search_weather_try rt cfg net city g log Hvalid Hkey).
    unfold try_block.
    rewrite (fetch_current_weather_sends rt cfg net city log Hkey).
    cbv zeta; rewrite Hnet; unfold handle; rewrite Hv, He; reflexivity.
  - intros dc pc Hc Hpc Hf.
    rewrite (search_weather_try rt cfg net city g log Hvalid Hkey).
    unfold try_block.
    rewrite (fetch_current_weather_sends rt cfg net city log Hkey).
    cbv zeta; rewrite Hc; cbn [status_code json Z.eqb Pos.eqb negb].
    rewrite Hpc.
    rewrite (fetch_forecast_sends rt cfg net city _ Hkey).
    cbv zeta; rewrite Hf; unfold handle; rewrite Hv, He, <- app_assoc.
    reflexivity.
Qed.

(** X7.  What reaches the handlers: an exception raised in the [try]
    block is caught exactly when it is a [ValueError], an exception of
    [requests], a [KeyError] or an [IndexError]; then both frames are
    cleared and the status is red.  Every other exception ([TypeError],
    [AttributeError], [OverflowError], the built-in [ConnectionError])
    leaves the method with the window as the block left it. *)
Theorem search_weather_catches (rt : runtime) (cfg : config)
    (net : network) (city : pystr) (g g1 : gui) (log log1 : list request)
    (e : exn) :
  fst (validate_input rt (Some city)) = true ->
  truthy (API_KEY cfg) = true ->
  try_block rt cfg net city (set_text g []) log = (log1, g1, Raise e) ->
  (is_value_error e || is_request_exception e || is_lookup_error e = true ->
   exists msg,
     search_weather rt cfg net city g log =
       (log1, {| status_text := msg; status_fg := lit "red";
                 current_frame := None; forecast_frame := None |}, None)) /\
  (is_value_error e || is_request_exception e || is_lookup_error e = false ->
   search_weather rt cfg net city g log = (log1, g1, Some e)).
Proof.
  intros Hvalid Hkey Htry.
  rewrite (search_weather_try rt cfg net city g log Hvalid Hkey), Htry.
  unfold handle; split; intros H.
  - destruct (is_value_error e); [eexists; reflexivity|].
    destruct (is_connectivity_error e); [eexists; reflexivity|].
    destruct (is_request_exception e); [eexists; reflexivity|].
    destruct (is_lookup_error e); [eexists; reflexivity|discriminate].
  - apply orb_false_iff in H as [H Hl]; apply orb_false_iff in H as [Hv Hr].
    rewrite Hv, Hr, Hl.
    replace (is_connectivity_error e) with false; [reflexivity|].
    destruct e as [| | | | | | |c m]; try reflexivity; discriminate.
Qed.

(* ------------------------------------------------------------------ *)
(** ** More on the weather client *)

(** X8.  The fetch functions do not catch what the network raises: an
    exception of [requests.get], or of [json()] on a 200 response,
    leaves the function unchanged, after the one request. *)
Theorem fetch_propagates (rt : runtime) (cfg : config) (net : network)
    (city_name : pystr) (log : list request) (e : exn) :
  truthy (API_KEY cfg) = true ->
  (net log (query_for rt cfg (CURRENT_WEATHER_URL cfg) city_name) = Raise e \/
   net log (query_for rt cfg (CURRENT_WEATHER_URL cfg) city_name)
     = Ok {| status_code := 200; json := Raise e |} ->
   fetch_current_weather rt cfg net city_name log =
     (log ++ [query_for rt cfg (CURRENT_WEATHER_URL cfg) city_name],
      Raise e)) /\
  (net log (query_for rt cfg (FORECAST_URL cfg) city_name) = Raise e \/
   net log (query_for rt cfg (FORECAST_URL cfg) city_name)
     = Ok {| status_code := 200; json := Raise e |} ->
   fetch_forecast rt cfg net city_name log =
     (log ++ [query_for rt cfg (FORECAST_URL cfg) city_name], Raise e)).
Proof.
  intros Hkey; split; intros [H|H].
  - rewrite fetch_current_weather_sends by exact Hkey.
    cbv zeta; rewrite H; reflexivity.
  - rewrite fetch_current_weather_sends by exact Hkey.
    cbv zeta; rewrite H; reflexivity.
  - rewrite fetch_forecast_sends by exact Hkey.
    cbv zeta; rewrite H; reflexivity.
  - rewrite fetch_forecast_sends by exact Hkey.
    cbv zeta; rewrite H; reflexivity.
Qed.

Section StripEnds.

Variable db : unicode_db.

Lemma lstrip_head (s : pystr) (c : char) :
  hd_error (lstrip db s) = Some c -> isspace db c = false.
Proof.
  induction s as [|x s IH]; simpl; [discriminate|].
  destruct (isspace db x) eqn:E; [exact IH|].
  simpl; intros H; injection H as <-; exact E.
Qed.

(** [s.strip()] neither starts nor ends with whitespace. *)
Lemma strip_ends (s : pystr) (c : char) :
  hd_error (strip db s) = Some c \/ hd_error (rev (strip db s)) = Some c ->
  isspace db c = false.
Proof.
  unfold strip, rstrip; intros [H|H].
  - destruct (lstrip_split db (rev (lstrip db s))) as (w & Hr & _).
    apply (lstrip_head s).
    rewrite <- (rev_involutive (lstrip db s)), Hr, rev_app_distr.
    destruct (rev (lstrip db (rev (lstrip db s)))) as [|x r];
      [discriminate|exact H].
  - rewrite rev_involutive in H; exact (lstrip_head _ c H).
Qed.

End StripEnds.

(** The validator as a test on the whole input. *)
Lemma validate_input_eq (rt : runtime) (s : pystr) :
  validate_input rt (Some s) =
    if forallb (isspace (unicode rt)) s then
      (false, lit "Please enter a city name.")
    else if negb (forallb (allowed rt) s) then
      (false, lit "City name contains invalid characters.")
    else (true, []).
Proof.
  unfold validate_input.
  replace (str_eqb s [] || str_eqb (strip (unicode rt) s) [])
    with (forallb (isspace (unicode rt)) s).
  - rewrite (forallb_strip (unicode rt) (allowed rt) s); [reflexivity|].
    intros c Hc; unfold allowed; rewrite Hc, orb_true_r; reflexivity.
  - destruct (forallb (isspace (unicode rt)) s) eqn:E.
    + apply (strip_blank (unicode rt)) in E; rewrite E.
      rewrite orb_true_r; reflexivity.
    + symmetry; apply orb_false_iff; split; apply str_eqb_neq; intros H.
      * subst s; discriminate.
      * apply (strip_blank (unicode rt)) in H; congruence.
Qed.

(** X9.  What the validator accepts, the client sends well-formed: the
    request has the parameters [q], [appid] and [units], in this order;
    [q] is the trimmed name ([city.strip()]), which is not empty,
    neither starts nor ends with whitespace, and holds only letters,
    whitespace and [-'.,]. *)
Theorem validated_city_query (rt : runtime) (cfg : config) (net : network)
    (city : pystr) (log : list request) :
  fst (validate_input rt (Some city)) = true ->
  truthy (API_KEY cfg) = true ->
  exists req q,
    fst (fetch_current_weather rt cfg net city log) = log ++ [req] /\
    q = strip (unicode rt) city /\
    params req = [ (lit "q", q);
                   (lit "appid", key_text (API_KEY cfg));
                   (lit "units", lit "metric") ] /\
    q <> [] /\
    Forall (city_char rt) q /\
    (forall c, hd_error q = Some c \/ hd_error (rev q) = Some c ->
               isspace (unicode rt) c = false).
Proof.
  intros Hvalid Hkey.
  exists (query_for rt cfg (CURRENT_WEATHER_URL cfg) city),
         (strip (unicode rt) city).
  split; [rewrite fetch_current_weather_sends by exact Hkey; reflexivity|].
  split; [reflexivity|]. split; [reflexivity|].
  unfold validate_input in Hvalid.
  destruct (str_eqb city [] || str_eqb (strip (unicode rt) city) []) eqn:E;
    [discriminate|].
  apply orb_false_iff in E as [_ E]; apply str_eqb_neq in E.
  destruct (forallb (allowed rt) (strip (unicode rt) city)) eqn:A;
    [|discriminate].
  split; [exact E|]. split; [apply forallb_allowed, A|].
  intros c; apply strip_ends.
Qed.

(** X10.  Whitespace around a name does not change the verdict of the
    validator. *)
Theorem validate_input_ignores_padding (rt : runtime) (a s b : pystr) :
  forallb (isspace (unicode rt)) a = true ->
  forallb (isspace (unicode rt)) b = true ->
  validate_input rt (Some (a ++ s ++ b)) = validate_input rt (Some s).
Proof.
  intros Ha Hb.
  assert (Hal : forall l, forallb (isspace (unicode rt)) l = true ->
                          forallb (allowed rt) l = true).
  { intros l Hl; apply forallb_forall; intros c Hc; unfold allowed.
    rewrite (proj1 (forallb_forall _ _) Hl c Hc), orb_true_r; reflexivity. }
  rewrite !validate_input_eq, !forallb_app, Ha, Hb, (Hal a Ha), (Hal b Hb).
  rewrite !andb_true_r; reflexivity.
Qed.

(* ------------------------------------------------------------------ *)
(** ** More on the forecast parser *)

Lemma daily_get_keys (daily : daily_t) (k : pystr) :
  daily_get daily k <> None <-> In k (map fst daily).
Proof.
  induction daily as [|[k0 b] daily IH]; simpl; [split; [congruence|tauto]|].
  destruct (str_eqb_spec k0 k) as [->|Hn].
  - split; [left; reflexivity|discriminate].
  - rewrite IH; split; [tauto|]. intros [H|H]; [contradiction|exact H].
Qed.

(** X11.  The first loop groups the intervals by date.  When it ends,
    the keys of the dictionary are the dates of the intervals, each
    once; the bucket of a date holds the temperatures and the
    descriptions of the intervals of that date, in the order of the
    list, so that its two lists have the same length and are not
    empty. *)
Theorem add_items_groups (items : list pyval) (daily : daily_t) :
  add_items [] items = Ok daily ->
  exists ss,
    samples_of items = Ok ss /\
    NoDup (map fst daily) /\
    (forall k, In k (map fst daily) <-> In k (map sample_date ss)) /\
    (forall k b, daily_get daily k = Some b ->
       temps b = temps_on k ss /\
       conditions b = conds_on k ss /\
       List.length (temps b) = List.length (conditions b) /\
       temps b <> []).
Proof.
  rewrite add_items_samples.
  destruct (samples_of items) as [ss|e]; cbn [bind]; [|discriminate].
  intros H; injection H as <-.
  exists ss; split; [reflexivity|].
  split; [apply keys_samples_nodup; constructor|].
  assert (Hkeys : forall k, In k (map fst (fold_left add_sample ss [])) <->
                            In k (map sample_date ss)).
  { intros k; rewrite keys_samples; simpl; tauto. }
  split; [exact Hkeys|].
  intros k b Hb.
  pose proof (bucket_of_samples ss [] k) as Hbucket.
  unfold bucket_of in Hbucket at 1; rewrite Hb in Hbucket; simpl in Hbucket.
  subst b; cbn [temps conditions].
  split; [reflexivity|]. split; [reflexivity|].
  split; [unfold temps_on, conds_on; rewrite !length_map; reflexivity|].
  assert (Hin : In k (map sample_date ss)).
  { apply Hkeys, daily_get_keys; congruence. }
  intros E; apply (on_date_nonempty k ss Hin).
  unfold temps_on in E; destruct (on_date k ss); [reflexivity|discriminate].
Qed.

Lemma day_keys_nodup (ss : list sample) : NoDup (day_keys ss).
Proof.
  unfold day_keys.
  apply (Permutation_NoDup (Permutation_sym (sorted_perm _))).
  apply keys_samples_nodup; constructor.
Qed.

(** X12.  The forecast has one entry for each distinct date: never more
    entries than intervals, and at least one as soon as there is an
    interval. *)
Theorem parse_forecast_length (rt : runtime) (data : pyval)
    (ss : list sample) (es : list forecast_entry) :
  parse_forecast rt data = Ok es ->
  forecast_samples data = Ok ss ->
  List.length es = List.length (nodup str_eq_dec (map sample_date ss)) /\
  (List.length es <= List.length ss)%nat /\
  (ss <> [] -> es <> []).
Proof.
  intros Hes Hss.
  apply parse_forecast_ok in Hes as (ss' & Hss' & Hall).
  assert (ss' = ss) by congruence; subst ss'.
  pose proof (Forall2_length Hall) as Hlen.
  pose proof (day_keys_nodup ss) as Hnd.
  pose proof (proj2 (day_keys_spec ss)) as Hmem.
  split; [|split].
  - rewrite <- Hlen.
    apply Nat.le_antisymm; apply NoDup_incl_length.
    + exact Hnd.
    + intros k Hk; apply nodup_In, Hmem, Hk.
    + apply NoDup_nodup.
    + intros k Hk; apply Hmem; apply nodup_In in Hk; exact Hk.
  - rewrite <- Hlen, <- (length_map sample_date ss).
    apply NoDup_incl_length; [exact Hnd|].
    intros k Hk; apply Hmem, Hk.
  - intros Hne ->.
    destruct ss as [|s ss]; [congruence|].
    assert (Hin : In (sample_date s) (day_keys (s :: ss)))
      by (apply Hmem; left; reflexivity).
    inversion Hall as [E|]; rewrite <- E in Hin; exact Hin.
Qed.

Lemma samples_of_raise (pre post : list pyval) (bad : pyval)
    (ss : list sample) (e : exn) :
  samples_of pre = Ok ss -> item_sample bad = Raise e ->
  samples_of (pre ++ bad :: post) = Raise e.
Proof.
  revert ss; induction pre as [|x pre IH]; intros ss; simpl.
  - intros _ ->; reflexivity.
  - destruct (item_sample x) as [s|]; cbn [bind]; [|discriminate].
    destruct (samples_of pre) as [ss'|] eqn:E; cbn [bind]; [|discriminate].
    intros _ Hbad; rewrite (IH ss' eq_refl Hbad); reflexivity.
Qed.

(** X13.  One malformed interval aborts the whole forecast: when the
    intervals before it are readable, the parser raises the error of
    the first interval that is not, whatever follows it, and returns no
    entry for the days that were readable. *)
Theorem parse_forecast_aborts (rt : runtime) (data : pyval)
    (pre post : list pyval) (bad : pyval) (ss : list sample) (e : exn) :
  getitem data (lit "list") = Ok (PList (pre ++ bad :: post)) ->
  samples_of pre = Ok ss ->
  item_sample bad = Raise e ->
  parse_forecast rt data = Raise e.
Proof.
  intros Hlist Hpre Hbad.
  rewrite parse_forecast_samples; unfold forecast_samples.
  rewrite Hlist; cbn [bind py_iter].
  rewrite (samples_of_raise pre post bad ss e Hpre Hbad); reflexivity.
Qed.

Lemma str_lt_irrefl (a : pystr) : ~ str_lt a a.
Proof.
  unfold str_lt; rewrite (proj2 (str_compare_eq a a) eq_refl); discriminate.
Qed.

(** Two strictly ascending lists with the same members are equal. *)
Lemma ascending_unique (l1 l2 : list pystr) :
  StronglySorted str_lt l1 -> StronglySorted str_lt l2 ->
  (forall k, In k l1 <-> In k l2) -> l1 = l2.
Proof.
  intros H1; revert l2; induction H1 as [|a l1 Hs1 IH Ha]; intros l2 H2 Hmem.
  - destruct l2 as [|b l2]; [reflexivity|].
    exfalso; apply (proj2 (Hmem b)); left; reflexivity.
  - destruct H2 as [|b l2 Hs2 Hb].
    + exfalso; apply (proj1 (Hmem a)); left; reflexivity.
    + assert (Hab : a = b).
      { destruct (proj1 (Hmem a) (or_introl eq_refl)) as [E|Hin];
          [congruence|].
        destruct (proj2 (Hmem b) (or_introl eq_refl)) as [E|Hin'];
          [congruence|].
        exfalso; apply (str_lt_irrefl a).
        apply str_lt_trans with (b := b).
        - exact (proj1 (Forall_forall _ _) Ha b Hin').
        - exact (proj1 (Forall_forall _ _) Hb a Hin). }
      subst b; f_equal; apply IH; [exact Hs2|].
      intros k; split; intros Hk.
      * destruct (proj1 (Hmem k) (or_intror Hk)) as [E|Hin]; [|exact Hin].
        subst k; exfalso; apply (str_lt_irrefl a).
        exact (proj1 (Forall_forall _ _) Ha a Hk).
      * destruct (proj2 (Hmem k) (or_intror Hk)) as [E|Hin]; [|exact Hin].
        subst k; exfalso; apply (str_lt_irrefl a).
        exact (proj1 (Forall_forall _ _) Hb a Hk).
Qed.

Lemma make_entry_date (rt : runtime) (k : pystr) (b : bucket)
    (e : forecast_entry) :
  make_entry rt k b = Ok e -> date_label rt k = Ok (date e).
Proof.
  unfold make_entry.
  destruct (most_common rt (conditions b)); cbn [bind]; [|discriminate].
  destruct (date_label rt k) as [label|]; cbn [bind]; [|discriminate].
  destruct (py_max (temps b)); cbn [bind]; [|discriminate].
  destruct (format_1f _); cbn [bind]; [|discriminate].
  destruct (py_min (temps b)); cbn [bind]; [|discriminate].
  destruct (format_1f _); cbn [bind]; [|discriminate].
  destruct (py_title (unicode rt) _); cbn [bind]; [|discriminate].
  intros H; injection H as <-; reflexivity.
Qed.

Lemma entry_dates (rt : runtime) (keys : list pystr)
    (es : list forecast_entry) :
  Forall2 (fun k e => date_label rt k = Ok (date e)) keys es ->
  map (fun e => Ok (date e)) es = map (date_label rt) keys.
Proof.
  induction 1 as [|k e keys es Hke _ IH]; simpl; [reflexivity|].
  rewrite Hke, IH; reflexivity.
Qed.

(** X14.  The days of a forecast do not depend on the order of the
    intervals: two lists of intervals that are permutations of each
    other give the same date keys in the same (ascending) order, and
    entries with the same date labels. *)
Theorem parse_forecast_order_independent (rt : runtime) (d d' : pyval)
    (ss ss' : list sample) (es es' : list forecast_entry) :
  forecast_samples d = Ok ss ->
  forecast_samples d' = Ok ss' ->
  Permutation ss ss' ->
  parse_forecast rt d = Ok es ->
  parse_forecast rt d' = Ok es' ->
  day_keys ss = day_keys ss' /\ map date es = map date es'.
Proof.
  intros Hss Hss' Hperm Hes Hes'.
  assert (Hkeys : day_keys ss = day_keys ss').
  { apply ascending_unique; try apply day_keys_spec.
    intros k; rewrite !(proj2 (day_keys_spec _)); split;
      apply Permutation_in, Permutation_map;
      [exact Hperm|apply Permutation_sym, Hperm]. }
  split; [exact Hkeys|].
  apply parse_forecast_ok in Hes as (s1 & Hs1 & H1).
  apply parse_forecast_ok in Hes' as (s2 & Hs2 & H2).
  assert (s1 = ss) by congruence; assert (s2 = ss') by congruence; subst.
  assert (D1 : map (fun e => Ok (date e)) es = map (date_label rt) (day_keys ss)).
  { apply entry_dates; eapply Forall2_impl; [|exact H1].
    intros k e; apply make_entry_date. }
  assert (D2 : map (fun e => Ok (date e)) es' = map (date_label rt) (day_keys ss')).
  { apply entry_dates; eapply Forall2_impl; [|exact H2].
    intros k e; apply make_entry_date. }
  rewrite <- Hkeys, <- D1 in D2.
  clear - D2; revert es' D2; induction es as [|e es IH]; intros [|e' es'];
    simpl; try discriminate; [reflexivity|].
  intros H; injection H as He Hrest; f_equal; [congruence|apply IH, Hrest].
Qed.

(* ------------------------------------------------------------------ *)
(** ** The forecast table *)

Lemma enumerate_in {A : Type} (l : list A) (s i : nat) (x : A) :
  nth_error l i = Some x -> In ((s + i)%nat, x) (enumerate s l).
Proof.
  revert s i; induction l as [|y l IH]; intros s [|i]; simpl;
    try discriminate.
  - intros H; injection H as ->; left; rewrite Nat.add_0_r; reflexivity.
  - intros H; right; rewrite <- Nat.add_succ_comm; apply IH, H.
Qed.

Lemma data_rows_length (fd : list forecast_entry) (s : nat) :
  List.length
    (flat_map (fun r => map (fun cv => data_label (fst r) (fst cv) (snd cv))
                            (enumerate 0 (row_values (snd r))))
              (enumerate s fd)) = (4 * List.length fd)%nat.
Proof.
  revert s; induction fd as [|day fd IH]; intros s; simpl; [reflexivity|].
  rewrite IH; lia.
Qed.

Lemma data_rows_positions (fd : list forecast_entry) (s : nat) :
  map position
    (flat_map (fun r => map (fun cv => data_label (fst r) (fst cv) (snd cv))
                            (enumerate 0 (row_values (snd r))))
              (enumerate s fd))
  = list_prod (seq s (List.length fd)) (seq 0 4).
Proof.
  revert s; induction fd as [|day fd IH]; intros s; simpl; [reflexivity|].
  rewrite IH; reflexivity.
Qed.

Lemma list_prod_nodup {A B : Type} (l : list A) (l' : list B) :
  NoDup l -> NoDup l' -> NoDup (list_prod l l').
Proof.
  intros Hl Hl'; induction Hl as [|x l Hx Hl IH]; simpl; [constructor|].
  apply NoDup_app.
  - clear -Hl'; induction Hl' as [|y l' Hy Hl' IH']; simpl; constructor.
    + intros Hin; apply in_map_iff in Hin as (z & E & Hz).
      injection E as ->; contradiction.
    + exact IH'.
  - exact IH.
  - intros [a b] Hin Hin'.
    apply in_map_iff in Hin as (y & E & _); injection E as <- <-.
    apply in_prod_iff in Hin' as [Hin' _]; contradiction.
Qed.

(** X15.  [create_forecast_table] replaces whatever the frame held by a
    grid of four columns: a header row and one row for each entry, in
    the order of the list.  No two labels share a cell, and the cell in
    row [i + 1], column [c] shows the [c]-th of the date, the maximum,
    the minimum and the condition of the [i]-th entry, on the stripe of
    its row. *)
Theorem forecast_table_layout (parent : list label)
    (fd : list forecast_entry) :
  List.length (create_forecast_table parent fd)
    = (4 * S (List.length fd))%nat /\
  NoDup (map position (create_forecast_table parent fd)) /\
  (forall i day c value,
     nth_error fd i = Some day ->
     nth_error (row_values day) c = Some value ->
     In (data_label (S i) c value) (create_forecast_table parent fd)).
Proof.
  unfold create_forecast_table, clear_frame; cbn [app].
  split; [|split].
  - rewrite length_app, data_rows_length; simpl; lia.
  - rewrite map_app, data_rows_positions.
    change (map position (header_row _)) with (list_prod (seq 0 1) (seq 0 4)).
    change (list_prod (seq 0 1) (seq 0 4) ++
            list_prod (seq 1 (List.length fd)) (seq 0 4))
      with (list_prod (seq 0 (S (List.length fd))) (seq 0 4)).
    apply list_prod_nodup; apply seq_NoDup.
  - intros i day c value Hday Hvalue.
    apply in_or_app; right.
    apply in_flat_map; exists (S i, day); split.
    + exact (enumerate_in fd 1 i day Hday).
    + apply in_map_iff; exists (c, value); split; [reflexivity|].
      exact (enumerate_in (row_values day) 0 c value Hvalue).
Qed.

(* ------------------------------------------------------------------ *)
(** ** The further properties at concrete inputs *)

Lemma search_weather_without_request_witness :
  search_weather example_runtime example_config unreachable
    (lit "London123") blank_window [] =
    ([], {| status_text := lit "City name contains invalid characters.";
            status_fg := lit "red";
            current_frame := None; forecast_frame := None |}, None).
Proof.
  exact (search_weather_without_request example_runtime example_config
           unreachable (lit "London123") blank_window []
           (or_introl eq_refl)).
Defined.

Lemma search_weather_shows_both_witness :
  exists pc pf,
    search_weather example_runtime example_config
      (serve current_document forecast_document) (lit " London ")
      blank_window [] =
      ([ query_for example_runtime example_config
           (CURRENT_WEATHER_URL example_config) (lit " London ");
         query_for example_runtime example_config
           (FORECAST_URL example_config) (lit " London ") ],
       {| status_text := lit "Weather data for 'London'";
          status_fg := lit "green";
          current_frame := Some pc; forecast_frame := Some pf |}, None).
Proof.
  eexists; eexists.
  apply (search_weather_shows_both example_runtime example_config
           (serve current_document forecast_document) (lit " London ")
           blank_window [] current_document forecast_document);
    vm_compute; reflexivity.
Defined.

Lemma search_weather_frames_agree_witness :
  frames_agree
    {| status_text := lit "City 'Atlantis' not found. Please check the name.";
       status_fg := lit "red";
       current_frame := None; forecast_frame := None |}.
Proof.
  apply (search_weather_frames_agree example_runtime example_config
           (answer 404 PNone) (lit "Atlantis") blank_window _ []
           [query_for example_runtime example_config
              (CURRENT_WEATHER_URL example_config) (lit "Atlantis")]).
  - split; reflexivity.
  - vm_compute; reflexivity.
Defined.

Lemma search_weather_server_error_uncaught_witness :
  search_weather example_runtime example_config (answer 500 PNone)
    (lit "London") blank_window [] =
    ([ query_for example_runtime example_config
         (CURRENT_WEATHER_URL example_config) (lit "London") ],
     {| status_text := lit "Fetching weather data...";
        status_fg := lit "blue";
        current_frame := None; forecast_frame := None |},
     Some (ConnectionError (lit "API error (status 500)."))).
Proof.
  apply (search_weather_server_error_uncaught example_runtime example_config
           (answer 500 PNone) (lit "London") blank_window []
           {| status_code := 500; json := Ok PNone |});
    try reflexivity; discriminate.
Defined.

Lemma search_weather_reports_fetch_error_witness :
  search_weather example_runtime example_config (answer 401 PNone)
    (lit "London") blank_window [] =
    ([ query_for example_runtime example_config
         (CURRENT_WEATHER_URL example_config) (lit "London") ],
     {| status_text := lit "Invalid API key. Please check config.py.";
        status_fg := lit "red";
        current_frame := None; forecast_frame := None |}, None).
Proof.
  apply (search_weather_reports_fetch_error example_runtime example_config
           (answer 401 PNone) (lit "London") blank_window []
           {| status_code := 401; json := Ok PNone |});
    try reflexivity.
  right; reflexivity.
Defined.

Lemma search_weather_reports_connectivity_witness :
  search_weather example_runtime example_config unreachable
    (lit "London") blank_window [] =
    ([ query_for example_runtime example_config
         (CURRENT_WEATHER_URL example_config) (lit "London") ],
     report blank_window msg_connection, None).
Proof.
  apply (proj1 (search_weather_reports_connectivity example_runtime
                  example_config unreachable (lit "London") blank_window []
                  (RequestException RConnectionError (lit "unreachable"))
                  eq_refl eq_refl eq_refl)).
  reflexivity.
Defined.

Lemma search_weather_catches_witness :
  exists msg,
    search_weather example_runtime example_config
      (answer 200 current_document) (lit "London") blank_window [] =
      ([ query_for example_runtime example_config
           (CURRENT_WEATHER_URL example_config) (lit "London");
         query_for example_runtime example_config
           (FORECAST_URL example_config) (lit "London") ],
       {| status_text := msg; status_fg := lit "red";
          current_frame := None; forecast_frame := None |}, None).
Proof.
  assert (Htry :
    try_block example_runtime example_config (answer 200 current_document)
      (lit "London") (set_text blank_window []) [] =
      ([ query_for example_runtime example_config
           (CURRENT_WEATHER_URL example_config) (lit "London");
         query_for example_runtime example_config
           (FORECAST_URL example_config) (lit "London") ],
       {| status_text := lit "Fetching weather data...";
          status_fg := lit "blue";
          current_frame :=
            Some {| temperature := lit "20.5" ++ degrees_c;
                    condition := lit "Clear Sky";
                    humidity := lit "65%";
                    wind_speed := lit "3.2 m/s" |};
          forecast_frame := None |},
       Raise (KeyError (PStr (lit "list")))))
    by (vm_compute; reflexivity).
  exact (proj1 (search_weather_catches example_runtime example_config
                  (answer 200 current_document) (lit "London") blank_window
                  _ [] _ _ eq_refl eq_refl Htry) eq_refl).
Defined.

Lemma fetch_propagates_witness :
  fetch_forecast example_runtime example_config unreachable (lit "London") []
    = ([ query_for example_runtime example_config
           (FORECAST_URL example_config) (lit "London") ],
       Raise (RequestException RConnectionError (lit "unreachable"))).
Proof.
  apply (proj2 (fetch_propagates example_runtime example_config unreachable
                  (lit "London") []
                  (RequestException RConnectionError (lit "unreachable"))
                  eq_refl)).
  left; reflexivity.
Defined.

Lemma validated_city_query_witness :
  exists req,
    fst (fetch_current_weather example_runtime example_config
           (answer 200 PNone) (lit "  New York ") []) = [] ++ [req] /\
    params req = [ (lit "q", lit "New York");
                   (lit "appid", lit "test_key");
                   (lit "units", lit "metric") ] /\
    Forall (city_char example_runtime) (lit "New York").
Proof.
  destruct (validated_city_query example_runtime example_config
              (answer 200 PNone) (lit "  New York ") [] eq_refl eq_refl)
    as (req & q & Hsent & Hq & Hparams & _ & Hchars & _).
  exists req; rewrite Hq in Hparams, Hchars.
  split; [exact Hsent|]. split; [exact Hparams|exact Hchars].
Defined.

Lemma validate_input_ignores_padding_witness :
  validate_input example_runtime (Some (lit "  " ++ lit "London" ++ lit " "))
    = validate_input example_runtime (Some (lit "London")).
Proof.
  exact (validate_input_ignores_padding example_runtime (lit "  ")
           (lit "London") (lit " ") eq_refl eq_refl).
Defined.

Lemma add_items_groups_witness :
  exists daily,
    add_items [] [ interval "2026-02-07 12:00:00" 100 "clouds";
                   interval "2026-02-08 12:00:00" 150 "rain";
                   interval "2026-02-07 15:00:00" 120 "clouds" ] = Ok daily /\
    exists ss,
      samples_of [ interval "2026-02-07 12:00:00" 100 "clouds";
                   interval "2026-02-08 12:00:00" 150 "rain";
                   interval "2026-02-07 15:00:00" 120 "clouds" ] = Ok ss /\
      NoDup (map fst daily) /\
      (forall k, In k (map fst daily) <-> In k (map sample_date ss)) /\
      (forall k b, daily_get daily k = Some b ->
         temps b = temps_on k ss /\
         conditions b = conds_on k ss /\
         List.length (temps b) = List.length (conditions b) /\
         temps b <> []).
Proof.
  eexists; split; [vm_compute; reflexivity|].
  apply add_items_groups; vm_compute; reflexivity.
Defined.

Lemma parse_forecast_length_witness :
  exists es,
    parse_forecast example_runtime forecast_document = Ok es /\
    List.length es
      = List.length (nodup str_eq_dec
                       (map sample_date forecast_document_samples)) /\
    (List.length es <= List.length forecast_document_samples)%nat /\
    (forecast_document_samples <> [] -> es <> []).
Proof.
  eexists; split; [vm_compute; reflexivity|].
  apply (parse_forecast_length example_runtime forecast_document);
    vm_compute; reflexivity.
Defined.

Lemma parse_forecast_aborts_witness :
  parse_forecast example_runtime
    (PDict [ (lit "list",
              PList [ interval "2026-02-07 12:00:00" 100 "clouds";
                      PDict [ (lit "dt_txt",
                               PStr (lit "2026-02-07 15:00:00")) ];
                      interval "2026-02-08 12:00:00" 150 "rain" ]) ])
    = Raise (KeyError (PStr (lit "main"))).
Proof.
  eapply (parse_forecast_aborts example_runtime _
            [interval "2026-02-07 12:00:00" 100 "clouds"]
            [interval "2026-02-08 12:00:00" 150 "rain"]
            (PDict [ (lit "dt_txt", PStr (lit "2026-02-07 15:00:00")) ])).
  - reflexivity.
  - vm_compute; reflexivity.
  - vm_compute; reflexivity.
Defined.

Lemma parse_forecast_order_independent_witness :
  exists es es',
    parse_forecast example_runtime later_day_first = Ok es /\
    parse_forecast example_runtime earlier_day_first = Ok es' /\
    map date es = map date es'.
Proof.
  eexists; eexists.
  split; [vm_compute; reflexivity|]. split; [vm_compute; reflexivity|].
  eapply proj2, (parse_forecast_order_independent example_runtime
                   later_day_first earlier_day_first).
  - vm_compute; reflexivity.
  - vm_compute; reflexivity.
  - apply perm_swap.
  - vm_compute; reflexivity.
  - vm_compute; reflexivity.
Defined.
